(** * Improvyu mock interview: the front-end scripts of [Improvyu/js/interview.js]

    The file holds two scripts.  The first drives the voice interview page
    (resume upload, spoken questions, speech recognition, the avatar, the
    report); it is embedded in [Module Voice].  The second holds the landing
    page and the typed interview page; it is embedded in [Module Chat].

    JavaScript runs each handler to its next [await] without interruption.
    A handler is therefore embedded as one state transformer per run-to-
    completion segment, and the promises, timers and callbacks that are still
    outstanding are kept in the state as a list of pending tasks.  The
    environment (user, browser, backend) drives the program through events.

    The state holds the variables of the script, the elements of the page
    the script touches, and a trace of what the script does to the world
    outside the page (alerts, requests, utterances, navigation).  Response
    bodies are typed by endpoint, with [undefined] for an absent field.
    The numbers the script computes with are IEEE 754 binary64 values, as
    in [SpecFloat].  Scrolling, focus styling, the choice of the voice and
    the three.js scene apart from the scale of the avatar are left out. *)

From Stdlib Require Import List String Ascii Bool Arith ZArith QArith Lia Lqa.
From Stdlib Require Import Strings.Byte.
From Stdlib Require Import SpecFloat.
Import ListNotations.
Set Warnings "-register-all".
Open Scope string_scope.
Open Scope nat_scope.

(** ** JavaScript values *)

(** A parsed JSON value.  Numbers are taken as exact rationals: the scripts
    only test them for truthiness and hand them on. *)
Inductive json : Type :=
| JNull
| JBool (b : bool)
| JNum (q : Q)
| JStr (s : string)
| JArr (items : list json)
| JObj (fields : list (string * json)).

(** What a property read yields: [None] is [undefined]. *)
Definition value : Type := option json.

Definition undefined : value := None.
Definition str (s : string) : value := Some (JStr s).

Definition is_empty (s : string) : bool :=
  match s with EmptyString => true | String _ _ => false end.

(** ToBoolean. *)
Definition truthy (v : value) : bool :=
  match v with
  | None => false
  | Some JNull => false
  | Some (JBool b) => b
  | Some (JNum q) => negb (Qeq_bool q 0)
  | Some (JStr s) => negb (is_empty s)
  | Some (JArr _) => true
  | Some (JObj _) => true
  end.

(** [a || b]. *)
Definition js_or (a b : value) : value := if truthy a then a else b.

(** [v === s] for a string literal [s]. *)
Definition is_string (s : string) (v : value) : bool :=
  match v with
  | Some (JStr t) => String.eqb t s
  | _ => false
  end.

(** ** Strings *)

(** A character is a code unit below 256.  [String.prototype.trim] removes
    white space and line terminators: TAB, LF, VT, FF, CR, SP and NBSP. *)
Definition is_space (c : ascii) : bool :=
  match nat_of_ascii c with
  | 9 | 10 | 11 | 12 | 13 | 32 | 160 => true
  | _ => false
  end.

Fixpoint trimStart (s : string) : string :=
  match s with
  | EmptyString => EmptyString
  | String c rest => if is_space c then trimStart rest else s
  end.

Definition reverse (s : string) : string :=
  string_of_list_ascii (rev (list_ascii_of_string s)).

Definition trimEnd (s : string) : string := reverse (trimStart (reverse s)).

Definition trim (s : string) : string := trimEnd (trimStart s).

(** A string of white space only. *)
Fixpoint all_space (s : string) : bool :=
  match s with
  | EmptyString => true
  | String c rest => is_space c && all_space rest
  end.

(** ** Text written to the page *)

(** A template literal is a sequence of literal pieces and interpolated
    values; the conversion of a value to characters is left to the browser. *)
Inductive segment : Type :=
| Lit (s : string)
| Interp (v : value).

Definition text : Type := list segment.

(** The [message] of [new Error(v)]: empty when [v] is [undefined], else [v]
    converted to a string. *)
Definition Error (v : value) : text :=
  match v with
  | None => []
  | Some (JStr s) => [Lit s]
  | Some j => [Interp (Some j)]
  end.

(** ** The document *)

Record file : Type := { name : string }.

Record element : Type := {
  classList : list string;
  disabled : bool;
  display : string;           (* style.display *)
  inner : text;               (* textContent / innerHTML, as last assigned *)
  children : list text;       (* nodes added with appendChild *)
  input : string;             (* .value of an input *)
  files : option file         (* .files[0] of a file input *)
}.

Definition blank : element :=
  {| classList := []; disabled := false; display := ""; inner := [];
     children := []; input := ""; files := None |}.

Definition has_class (c : string) (e : element) : bool :=
  existsb (String.eqb c) (classList e).

(** [classList.add(c)] *)
Definition add_class (c : string) (e : element) : element :=
  {| classList := if has_class c e then classList e else classList e ++ [c];
     disabled := disabled e; display := display e; inner := inner e;
     children := children e; input := input e; files := files e |}.

(** [classList.remove(c)] *)
Definition remove_class (c : string) (e : element) : element :=
  {| classList := filter (fun d => negb (String.eqb c d)) (classList e);
     disabled := disabled e; display := display e; inner := inner e;
     children := children e; input := input e; files := files e |}.

(** [className = ...], given as the list of class tokens. *)
Definition set_className (cs : list string) (e : element) : element :=
  {| classList := cs;
     disabled := disabled e; display := display e; inner := inner e;
     children := children e; input := input e; files := files e |}.

Definition set_disabled (b : bool) (e : element) : element :=
  {| classList := classList e; disabled := b; display := display e;
     inner := inner e; children := children e; input := input e;
     files := files e |}.

Definition set_display (d : string) (e : element) : element :=
  {| classList := classList e; disabled := disabled e; display := d;
     inner := inner e; children := children e; input := input e;
     files := files e |}.

(** [textContent = t] and [innerHTML = t]: the content is replaced. *)
Definition set_inner (t : text) (e : element) : element :=
  {| classList := classList e; disabled := disabled e; display := display e;
     inner := t; children := []; input := input e; files := files e |}.

Definition appendChild (t : text) (e : element) : element :=
  {| classList := classList e; disabled := disabled e; display := display e;
     inner := inner e; children := children e ++ [t]; input := input e;
     files := files e |}.

Definition set_input (s : string) (e : element) : element :=
  {| classList := classList e; disabled := disabled e; display := display e;
     inner := inner e; children := children e; input := s; files := files e |}.

Definition set_files (f : option file) (e : element) : element :=
  {| classList := classList e; disabled := disabled e; display := display e;
     inner := inner e; children := children e; input := input e; files := f |}.

(** The elements of the page, by id.  The entry nearest the head is the
    current one; an id without an entry stands for an element as the markup
    gives it, which the model takes as [blank]. *)
Definition document : Type := list (string * element).

Definition getElementById (d : document) (id : string) : element :=
  match find (fun entry => String.eqb (fst entry) id) d with
  | Some entry => snd entry
  | None => blank
  end.

Coercion getElementById : document >-> Funclass.

Definition update (id : string) (f : element -> element) (d : document)
  : document :=
  (id, f (d id)) :: d.

Definition hidden (d : document) (id : string) : bool :=
  has_class "hidden" (d id).

(** ** The outside world *)

(** One entry of [conversationHistory]: [{ role, parts: [{ text }] }]. *)
Record entry : Type := { role : string; parts : value }.

Inductive form_value : Type :=
| FormFile (f : file)
| FormString (s : string).

(** The body of a request. *)
Inductive payload : Type :=
| FormData (fields : list (string * form_value))
| Answers (answers : list string)            (* { answers } *)
| History (history : list entry)             (* { history } *)
| EmptyObject.                               (* {} *)

(** What a handler does to the world outside the document. *)
Inductive effect : Type :=
| Alert (s : string)
| Fetch (url : string) (body : payload)
| Utter (t : value)                          (* speechSynthesis.speak *)
| ConsoleError (s : string) (e : text)
| Uncaught (e : text)                        (* an exception nobody catches *)
| Call (callee : string)                     (* a browser or library call *)
| Render                                     (* renderer.render(scene, camera) *)
| SetItem (key : string) (v : list json)     (* sessionStorage.setItem *)
| Assign (href : string).                    (* window.location.href = ... *)

(** How [fetch(...)] followed by [response.json()] settles. *)
Inductive parsed (A : Type) : Type :=
| BadBody (message : text)                   (* response.json() rejects *)
| Body (data : A).

Inductive fetched (A : Type) : Type :=
| Rejected (message : text)                  (* fetch rejects *)
| Resolved (ok : bool) (body : parsed A).

Arguments BadBody {A} message.
Arguments Body {A} data.
Arguments Rejected {A} message.
Arguments Resolved {A} ok body.

(** Bodies of the three endpoints; a field that is absent is [undefined]. *)
Record analysis : Type := {
  analysis_error : value;
  questions : option (list json)             (* an array, when present *)
}.

Record followup : Type := {
  followup_error : value;
  question : value
}.

Record report : Type := {
  report_error : value;
  overallScore : value;
  strengths : value;
  weaknesses : value;
  suggestion : value
}.

(** [Array.prototype.splice(i, 0, x)]: a start beyond the end is clamped. *)
Definition splice {A : Type} (i : nat) (x : A) (l : list A) : list A :=
  firstn i l ++ x :: skipn i l.

(** Removing one pending task. *)
Section Pending.
Context {T : Type} (eqb : T -> T -> bool).

Fixpoint take (t : T) (l : list T) : option (list T) :=
  match l with
  | [] => None
  | u :: rest =>
      if eqb t u then Some rest
      else option_map (cons u) (take t rest)
  end.
End Pending.

(** A double quote, for the markup the scripts write. *)
Definition dq : string := String (ascii_of_nat 34) EmptyString.

(** ** Numbers *)

(** A Number is an IEEE 754 binary64 value, and the arithmetic operations
    round to nearest, ties to even.  [SpecFloat] defines them for any format;
    binary64 has 53 bits of precision and exponents below 1024. *)
Module Number.

Definition t : Type := spec_float.

Definition add : t -> t -> t := SFadd 53 1024.
Definition sub : t -> t -> t := SFsub 53 1024.
Definition mul : t -> t -> t := SFmul 53 1024.
Definition div : t -> t -> t := SFdiv 53 1024.

(** An integer as a Number: exact below 2^53. *)
Definition of_Z (z : Z) : t := binary_normalize 53 1024 z 0 false.

(** The literal for n / 10: the Number nearest to it, which is also what
    dividing n by 10 gives. *)
Definition tenths (n : Z) : t := div (of_Z n) (of_Z 10).

(** The value of a finite Number in units of 2^-1074, the smallest positive
    Number, and as a rational. *)
Definition ulps (x : t) : Z :=
  match x with
  | S754_finite s m e => (if s then Z.neg m else Z.pos m) * 2 ^ (e + 1074)
  | _ => 0
  end.

Definition to_Q (x : t) : Q := ulps x # 2 ^ 1074.

End Number.

Arguments Number.add : simpl never.
Arguments Number.sub : simpl never.
Arguments Number.mul : simpl never.
Arguments Number.div : simpl never.
Arguments Number.of_Z : simpl never.
Arguments Number.tenths : simpl never.

(** * The voice interview page *)

Module Voice.

(** ** State *)

(** The elements gathered in the [ui] object, by id. *)
Definition uploadSection : string := "upload-section".
Definition interviewContainer : string := "interview-container".
Definition selectResumeBtn : string := "select-resume-btn".
Definition resumeFile : string := "resume-file".
Definition fileName : string := "file-name".
Definition jobRoleSection : string := "job-role-section".
Definition jobRoleInput : string := "job-role".
Definition submitJobRoleBtn : string := "submit-job-role".
Definition uploadLoader : string := "upload-loader".
Definition uploadError : string := "upload-error".
Definition startInterviewBtn : string := "start-interview-btn".
Definition recordBtn : string := "record-btn".
Definition recordBtnSpan : string := "record-btn span".
Definition questionText : string := "question".
Definition responsesLog : string := "responses".
Definition reportResults : string := "report-results".
Definition reportContent : string := "report-content".
Definition statusDot : string := "status-dot".
Definition statusText : string := "status-text".

(** What is outstanding: a promise a handler awaits, a timer, a callback. *)
Inductive task : Type :=
| AwaitAnalyze          (* handleJobRoleSubmit, at fetch('/api/analyze') *)
| AwaitModel            (* setupMedia, at loadFromUri *)
| AwaitMedia            (* setupMedia, at getUserMedia *)
| AwaitQuestionSpoken   (* askNextQuestion, at speak(question) *)
| AwaitClosingSpoken    (* endInterview, at speak(...) *)
| Recognising           (* a started SpeechRecognition *)
| AwaitFollowUp         (* onend, at fetch('/api/follow-up') *)
| AwaitEvaluate         (* endInterview, at fetch('/api/evaluate') *)
| TimerAskNext          (* setTimeout(askNextQuestion, 500) *)
| NextFrame.            (* requestAnimationFrame(animateAvatar) *)

Definition task_eqb (a b : task) : bool :=
  match a, b with
  | AwaitAnalyze, AwaitAnalyze | AwaitModel, AwaitModel | AwaitMedia, AwaitMedia
  | AwaitQuestionSpoken, AwaitQuestionSpoken
  | AwaitClosingSpoken, AwaitClosingSpoken | Recognising, Recognising
  | AwaitFollowUp, AwaitFollowUp | AwaitEvaluate, AwaitEvaluate
  | TimerAskNext, TimerAskNext | NextFrame, NextFrame => true
  | _, _ => false
  end.

(** [avatar.scale]: x, y, z. *)
Definition scale : Type := (Number.t * Number.t * Number.t)%type.

Record state : Type := {
  initialQuestions : option (list json);   (* [None]: undefined *)
  conversationHistory : list entry;
  allUserAnswers : list string;
  currentQuestionIndex : nat;
  isRecording : bool;
  currentTranscript : string;
  analyser : option (list byte);           (* the node and its current data *)
  audioDataArray : list byte;
  smoothedVolume : Number.t;
  avatar : option scale;
  recognition : bool;                      (* the browser has SpeechRecognition *)
  webgl : option text;                     (* [Some m]: no renderer, m thrown *)
  page : document;
  trace : list effect;
  pending : list task
}.

Definition with_initialQuestions (x : option (list json)) (st : state) : state :=
  {| initialQuestions := x; conversationHistory := conversationHistory st;
     allUserAnswers := allUserAnswers st;
     currentQuestionIndex := currentQuestionIndex st;
     isRecording := isRecording st; currentTranscript := currentTranscript st;
     analyser := analyser st; audioDataArray := audioDataArray st;
     smoothedVolume := smoothedVolume st; avatar := avatar st;
     recognition := recognition st; webgl := webgl st; page := page st;
     trace := trace st; pending := pending st |}.

Definition with_conversationHistory (x : list entry) (st : state) : state :=
  {| initialQuestions := initialQuestions st; conversationHistory := x;
     allUserAnswers := allUserAnswers st;
     currentQuestionIndex := currentQuestionIndex st;
     isRecording := isRecording st; currentTranscript := currentTranscript st;
     analyser := analyser st; audioDataArray := audioDataArray st;
     smoothedVolume := smoothedVolume st; avatar := avatar st;
     recognition := recognition st; webgl := webgl st; page := page st;
     trace := trace st; pending := pending st |}.

Definition with_allUserAnswers (x : list string) (st : state) : state :=
  {| initialQuestions := initialQuestions st;
     conversationHistory := conversationHistory st; allUserAnswers := x;
     currentQuestionIndex := currentQuestionIndex st;
     isRecording := isRecording st; currentTranscript := currentTranscript st;
     analyser := analyser st; audioDataArray := audioDataArray st;
     smoothedVolume := smoothedVolume st; avatar := avatar st;
     recognition := recognition st; webgl := webgl st; page := page st;
     trace := trace st; pending := pending st |}.

Definition with_currentQuestionIndex (x : nat) (st : state) : state :=
  {| initialQuestions := initialQuestions st;
     conversationHistory := conversationHistory st;
     allUserAnswers := allUserAnswers st; currentQuestionIndex := x;
     isRecording := isRecording st; currentTranscript := currentTranscript st;
     analyser := analyser st; audioDataArray := audioDataArray st;
     smoothedVolume := smoothedVolume st; avatar := avatar st;
     recognition := recognition st; webgl := webgl st; page := page st;
     trace := trace st; pending := pending st |}.

Definition with_isRecording (x : bool) (st : state) : state :=
  {| initialQuestions := initialQuestions st;
     conversationHistory := conversationHistory st;
     allUserAnswers := allUserAnswers st;
     currentQuestionIndex := currentQuestionIndex st; isRecording := x;
     currentTranscript := currentTranscript st; analyser := analyser st;
     audioDataArray := audioDataArray st; smoothedVolume := smoothedVolume st;
     avatar := avatar st; recognition := recognition st; webgl := webgl st;
     page := page st; trace := trace st; pending := pending st |}.

Definition with_currentTranscript (x : string) (st : state) : state :=
  {| initialQuestions := initialQuestions st;
     conversationHistory := conversationHistory st;
     allUserAnswers := allUserAnswers st;
     currentQuestionIndex := currentQuestionIndex st;
     isRecording := isRecording st; currentTranscript := x;
     analyser := analyser st; audioDataArray := audioDataArray st;
     smoothedVolume := smoothedVolume st; avatar := avatar st;
     recognition := recognition st; webgl := webgl st; page := page st;
     trace := trace st; pending := pending st |}.

Definition with_analyser (x : option (list byte)) (st : state) : state :=
  {| initialQuestions := initialQuestions st;
     conversationHistory := conversationHistory st;
     allUserAnswers := allUserAnswers st;
     currentQuestionIndex := currentQuestionIndex st;
     isRecording := isRecording st; currentTranscript := currentTranscript st;
     analyser := x; audioDataArray := audioDataArray st;
     smoothedVolume := smoothedVolume st; avatar := avatar st;
     recognition := recognition st; webgl := webgl st; page := page st;
     trace := trace st; pending := pending st |}.

Definition with_audioDataArray (x : list byte) (st : state) : state :=
  {| initialQuestions := initialQuestions st;
     conversationHistory := conversationHistory st;
     allUserAnswers := allUserAnswers st;
     currentQuestionIndex := currentQuestionIndex st;
     isRecording := isRecording st; currentTranscript := currentTranscript st;
     analyser := analyser st; audioDataArray := x;
     smoothedVolume := smoothedVolume st; avatar := avatar st;
     recognition := recognition st; webgl := webgl st; page := page st;
     trace := trace st; pending := pending st |}.

Definition with_smoothedVolume (x : Number.t) (st : state) : state :=
  {| initialQuestions := initialQuestions st;
     conversationHistory := conversationHistory st;
     allUserAnswers := allUserAnswers st;
     currentQuestionIndex := currentQuestionIndex st;
     isRecording := isRecording st; currentTranscript := currentTranscript st;
     analyser := analyser st; audioDataArray := audioDataArray st;
     smoothedVolume := x; avatar := avatar st; recognition := recognition st;
     webgl := webgl st; page := page st; trace := trace st;
     pending := pending st |}.

Definition with_avatar (x : option scale) (st : state) : state :=
  {| initialQuestions := initialQuestions st;
     conversationHistory := conversationHistory st;
     allUserAnswers := allUserAnswers st;
     currentQuestionIndex := currentQuestionIndex st;
     isRecording := isRecording st; currentTranscript := currentTranscript st;
     analyser := analyser st; audioDataArray := audioDataArray st;
     smoothedVolume := smoothedVolume st; avatar := x;
     recognition := recognition st; webgl := webgl st; page := page st;
     trace := trace st; pending := pending st |}.

Definition with_recognition (x : bool) (st : state) : state :=
  {| initialQuestions := initialQuestions st;
     conversationHistory := conversationHistory st;
     allUserAnswers := allUserAnswers st;
     currentQuestionIndex := currentQuestionIndex st;
     isRecording := isRecording st; currentTranscript := currentTranscript st;
     analyser := analyser st; audioDataArray := audioDataArray st;
     smoothedVolume := smoothedVolume st; avatar := avatar st;
     recognition := x; webgl := webgl st; page := page st; trace := trace st;
     pending := pending st |}.

Definition with_webgl (x : option text) (st : state) : state :=
  {| initialQuestions := initialQuestions st;
     conversationHistory := conversationHistory st;
     allUserAnswers := allUserAnswers st;
     currentQuestionIndex := currentQuestionIndex st;
     isRecording := isRecording st; currentTranscript := currentTranscript st;
     analyser := analyser st; audioDataArray := audioDataArray st;
     smoothedVolume := smoothedVolume st; avatar := avatar st;
     recognition := recognition st; webgl := x; page := page st;
     trace := trace st; pending := pending st |}.

Definition with_page (x : document) (st : state) : state :=
  {| initialQuestions := initialQuestions st;
     conversationHistory := conversationHistory st;
     allUserAnswers := allUserAnswers st;
     currentQuestionIndex := currentQuestionIndex st;
     isRecording := isRecording st; currentTranscript := currentTranscript st;
     analyser := analyser st; audioDataArray := audioDataArray st;
     smoothedVolume := smoothedVolume st; avatar := avatar st;
     recognition := recognition st; webgl := webgl st; page := x;
     trace := trace st; pending := pending st |}.

Definition with_trace (x : list effect) (st : state) : state :=
  {| initialQuestions := initialQuestions st;
     conversationHistory := conversationHistory st;
     allUserAnswers := allUserAnswers st;
     currentQuestionIndex := currentQuestionIndex st;
     isRecording := isRecording st; currentTranscript := currentTranscript st;
     analyser := analyser st; audioDataArray := audioDataArray st;
     smoothedVolume := smoothedVolume st; avatar := avatar st;
     recognition := recognition st; webgl := webgl st; page := page st;
     trace := x; pending := pending st |}.

Definition with_pending (x : list task) (st : state) : state :=
  {| initialQuestions := initialQuestions st;
     conversationHistory := conversationHistory st;
     allUserAnswers := allUserAnswers st;
     currentQuestionIndex := currentQuestionIndex st;
     isRecording := isRecording st; currentTranscript := currentTranscript st;
     analyser := analyser st; audioDataArray := audioDataArray st;
     smoothedVolume := smoothedVolume st; avatar := avatar st;
     recognition := recognition st; webgl := webgl st; page := page st;
     trace := trace st; pending := x |}.

Definition emit (e : effect) (st : state) : state :=
  with_trace (trace st ++ [e]) st.

Definition await (t : task) (st : state) : state :=
  with_pending (pending st ++ [t]) st.

Definition on (id : string) (f : element -> element) (st : state) : state :=
  with_page (update id f (page st)) st.

(** The state when the script has run: [let initialQuestions = [], ...]. *)
Definition initial (supported : bool) (doc : document) : state :=
  {| initialQuestions := Some []; conversationHistory := [];
     allUserAnswers := []; currentQuestionIndex := 0; isRecording := false;
     currentTranscript := ""; analyser := None; audioDataArray := [];
     smoothedVolume := Number.of_Z 0; avatar := None; recognition := supported;
     webgl := None; page := doc; trace := []; pending := [] |}.

(** ** The avatar *)

Definition frequencyBinCount : nat := 32.   (* fftSize = 64 *)

Definition byte_value (b : byte) : Z := Z.of_N (Byte.to_N b).

(** [analyser.getByteFrequencyData(array)]: the current data is copied into
    the array as far as it fits. *)
Definition getByteFrequencyData (data array : list byte) : list byte :=
  firstn (List.length array) data ++ skipn (List.length data) array.

(** [array.reduce((a, b) => a + b)]: a TypeError on an empty array. *)
Definition reduce_sum (array : list byte) : option Z :=
  match array with
  | [] => None
  | b :: rest => Some (fold_left (fun a c => (a + byte_value c)%Z) rest (byte_value b))
  end.

(** What a call does: it returns, or it throws. *)
Inductive outcome : Type :=
| Returned (st : state)
| Thrown (message : text) (st : state).

(** An exception nobody catches. *)
Definition uncaught (o : outcome) : state :=
  match o with
  | Returned st => st
  | Thrown message st => emit (Uncaught message) st
  end.

(** The sum of the bins is an integer below 2^53, where the additions of
    [reduce] are exact. *)
Definition animateAvatar (st : state) : outcome :=
  let st := await NextFrame st in
  match analyser st, avatar st with
  | Some data, Some _ =>
      let st := with_audioDataArray (getByteFrequencyData data (audioDataArray st)) st in
      match reduce_sum (audioDataArray st) with
      | None => Thrown [Lit "Reduce of empty array with no initial value"] st
      | Some total =>
          let avg :=
            Number.div (Number.of_Z total)
              (Number.of_Z (Z.of_nat (List.length (audioDataArray st)))) in
          let targetScale :=
            Number.add (Number.of_Z 1)
              (Number.mul (Number.div avg (Number.of_Z 128)) (Number.tenths 7)) in
          let st := with_smoothedVolume
                      (Number.add (smoothedVolume st)
                         (Number.mul (Number.sub targetScale (smoothedVolume st))
                            (Number.tenths 2))) st in
          let st := with_avatar
                      (Some (smoothedVolume st, smoothedVolume st, smoothedVolume st)) st in
          Returned (emit Render st)
      end
  | _, _ => Returned (emit Render st)
  end.

(** [new THREE.WebGLRenderer] throws when the browser gives no WebGL
    context; a new mesh has scale (1, 1, 1). *)
Definition initAvatar (st : state) : outcome :=
  let st := emit (Call "initAvatar") st in
  match webgl st with
  | Some message => Thrown message st
  | None =>
      animateAvatar
        (with_avatar (Some (Number.of_Z 1, Number.of_Z 1, Number.of_Z 1)) st)
  end.

Definition initAudioVisualizer (audioTracks : nat) (st : state) : state :=
  match audioTracks with
  | 0 => st
  | S _ =>
      let st := with_analyser (Some (repeat x00 frequencyBinCount)) st in
      with_audioDataArray (repeat x00 frequencyBinCount) st
  end.

(** How [getUserMedia] settles. *)
Inductive media : Type :=
| Stream (audioTracks : nat)
| Denied (message : text).

(** [setupMedia] up to [await faceapi.nets.ssdMobilenetv1.loadFromUri(...)]. *)
Definition setupMedia (st : state) : state :=
  await AwaitModel (emit (Call "loadFromUri") st).

(** Its [catch (err)] block. *)
Definition setupMedia_catch (message : text) (st : state) : state :=
  emit (Alert "Could not access camera/microphone. Please check permissions.")
    (emit (ConsoleError "Error setting up media devices:" message) st).

(** [setupMedia] from the settled download to [await getUserMedia(...)]. *)
Definition setupMedia_loaded (failure : option text) (st : state) : state :=
  match failure with
  | Some message => setupMedia_catch message st
  | None => await AwaitMedia (emit (Call "getUserMedia") st)
  end.

(** [setupMedia] from the settled [getUserMedia] on. *)
Definition setupMedia_settled (m : media) (st : state) : state :=
  match m with
  | Stream audioTracks =>
      initAudioVisualizer audioTracks (emit (Call "video.srcObject") st)
  | Denied message => setupMedia_catch message st
  end.

Definition setupSpeechSynthesis (st : state) : state :=
  emit (Call "setupSpeechSynthesis") st.

(** ** Helpers *)

Definition updateStatus (status label : string) (st : state) : state :=
  let st := on statusDot (set_className ["status-dot"; "status-" ++ status]) st in
  on statusText (set_inner [Lit label]) st.

Definition logToConversation (who : string) (t : value) (st : state) : state :=
  let color := if String.eqb who "You" then "text-purple-300" else "text-cyan-300" in
  on responsesLog
    (appendChild [Lit ("<strong class=" ++ dq); Interp (str color);
                  Lit (dq ++ ">"); Interp (str who); Lit ":</strong> "; Interp t])
    st.

(** [speak(text)] up to the promise it returns. *)
Definition speak (t : value) (st : state) : state :=
  emit (Utter t) (updateStatus "status-speaking" "AI is speaking..." st).

(** [utterance.onend], before the promise resolves. *)
Definition spoken (st : state) : state :=
  updateStatus "status-idle" "Ready for your answer." st.

(** ** Interview flow *)

Definition handleFileSelection (st : state) : state :=
  match files (page st resumeFile) with
  | None => st
  | Some file =>
      let st := on fileName (set_inner [Lit "Selected: "; Interp (str (name file))]) st in
      let st := on selectResumeBtn (set_disabled true) st in
      on jobRoleSection (remove_class "hidden") st
  end.

(** [formData.append('resume', file)]: without a file the string
    "undefined" is appended. *)
Definition form_file (f : option file) : form_value :=
  match f with
  | Some f => FormFile f
  | None => FormString "undefined"
  end.

(** [handleJobRoleSubmit] up to [await fetch('/api/analyze', ...)]. *)
Definition handleJobRoleSubmit (st : state) : state :=
  let jobRole := trim (input (page st jobRoleInput)) in
  let file := files (page st resumeFile) in
  if is_empty jobRole then emit (Alert "Please enter a target job role.") st
  else
    let st := on uploadLoader (remove_class "hidden") st in
    let st := on jobRoleSection (add_class "hidden") st in
    let st := on uploadError (set_inner [Lit ""]) st in
    let formData := [("resume", form_file file); ("job_role", FormString jobRole)] in
    await AwaitAnalyze (emit (Fetch "/api/analyze" (FormData formData)) st).

(** Its [catch (error)] block. *)
Definition handleJobRoleSubmit_catch (message : text) (st : state) : state :=
  let st := on uploadLoader (add_class "hidden") st in
  let st := on uploadError (set_inner message) st in
  let st := on uploadError (remove_class "hidden") st in
  on selectResumeBtn (set_disabled false) st.

(** [handleJobRoleSubmit] from the settled request on. *)
Definition handleJobRoleSubmit_settled (r : fetched analysis) (st : state) : state :=
  match r with
  | Rejected message => handleJobRoleSubmit_catch message st
  | Resolved _ (BadBody message) => handleJobRoleSubmit_catch message st
  | Resolved ok (Body data) =>
      if negb ok then
        handleJobRoleSubmit_catch
          (Error (js_or (analysis_error data) (str "Failed to analyze resume."))) st
      else
        let st := with_initialQuestions (questions data) st in
        let st := on uploadSection (add_class "hidden") st in
        let st := on interviewContainer (remove_class "hidden") st in
        match initAvatar st with
        | Returned st => setupSpeechSynthesis (setupMedia st)
        | Thrown message st => handleJobRoleSubmit_catch message st
        end
  end.

Definition closing : string :=
  "That concludes the interview. Generating your report now.".

(** [endInterview] up to [await speak(...)]. *)
Definition endInterview (st : state) : state :=
  await AwaitClosingSpoken (speak (str closing) st).

(** [endInterview] from the end of the utterance to [await fetch]. *)
Definition endInterview_spoken (st : state) : state :=
  let st := spoken st in
  let st := on recordBtn (set_disabled true) st in
  let st := on reportResults (remove_class "hidden") st in
  let st := on reportContent
              (set_inner [Lit ("<div class=" ++ dq ++ "loader mx-auto" ++ dq
                               ++ "></div><p class=" ++ dq ++ "text-center mt-2"
                               ++ dq ++ ">Evaluating...</p>")]) st in
  await AwaitEvaluate (emit (Fetch "/api/evaluate" (Answers (allUserAnswers st))) st).

(** The report markup; white space between the tags is left out. *)
Definition report_markup (r : report) : text :=
  [Lit ("<p class=" ++ dq ++ "mb-2" ++ dq ++ "><strong>Overall Score:</strong> ");
   Interp (js_or (overallScore r) (str "N/A"));
   Lit ("</p><p class=" ++ dq ++ "mb-2" ++ dq ++ "><strong>Strengths:</strong> ");
   Interp (js_or (strengths r) (str "N/A"));
   Lit ("</p><p class=" ++ dq ++ "mb-2" ++ dq
        ++ "><strong>Areas for Improvement:</strong> ");
   Interp (js_or (weaknesses r) (str "N/A"));
   Lit "</p><p><strong>Suggestions:</strong> ";
   Interp (js_or (suggestion r) (str "N/A"));
   Lit "</p>"].

Definition endInterview_catch (message : text) (st : state) : state :=
  on reportContent
    (set_inner ([Lit ("<p class=" ++ dq ++ "text-red-400" ++ dq
                      ++ ">Error: Could not retrieve report. ")]
                ++ message ++ [Lit "</p>"])%list) st.

(** [endInterview] from the settled request on. *)
Definition endInterview_settled (r : fetched report) (st : state) : state :=
  match r with
  | Rejected message => endInterview_catch message st
  | Resolved _ (BadBody message) => endInterview_catch message st
  | Resolved ok (Body rep) =>
      if negb ok then endInterview_catch (Error (report_error rep)) st
      else
        let st := on reportContent (set_inner (report_markup rep)) st in
        updateStatus "status-idle" "Report Complete." st
  end.

(** [askNextQuestion] up to its first [await]. *)
Definition askNextQuestion (st : state) : state :=
  match initialQuestions st with
  | None =>
      emit (Uncaught [Lit "Cannot read properties of undefined (reading 'length')"]) st
  | Some qs =>
      if List.length qs <=? currentQuestionIndex st then endInterview st
      else
        let question := nth_error qs (currentQuestionIndex st) in
        let st := with_currentQuestionIndex (S (currentQuestionIndex st)) st in
        let st := with_conversationHistory
                    (conversationHistory st ++ [{| role := "model"; parts := question |}])
                    st in
        let st := on questionText (set_inner [Interp question]) st in
        let st := logToConversation "Improvyu" question st in
        let st := on recordBtn (set_disabled true) st in
        await AwaitQuestionSpoken (speak question st)
  end.

(** [askNextQuestion] after [await speak(question)]. *)
Definition askNextQuestion_spoken (st : state) : state :=
  on recordBtn (set_disabled false) (spoken st).

Definition toggleRecording (st : state) : state :=
  if isRecording st then emit (Call "speechRecognition.stop") st
  else if negb (recognition st) then
    emit (Alert "Speech Recognition is not supported by this browser.") st
  else
    let st := with_currentTranscript "" st in
    await Recognising (emit (Call "speechRecognition.start") st).

Definition onstart (st : state) : state :=
  let st := with_isRecording true st in
  let st := updateStatus "status-listening" "Listening..." st in
  let st := on recordBtnSpan (set_inner [Lit "Stop Recording"]) st in
  on recordBtn (add_class "is-recording") st.

(** [event.results] is given by the first transcript of each result. *)
Definition onresult (results : list string) (st : state) : state :=
  with_currentTranscript (String.concat "" results) st.

Definition sentinel : string := "[NEXT_QUESTION]".

(** [onend] up to [await fetch('/api/follow-up', ...)], or to its end when
    nothing was heard. *)
Definition onend (st : state) : state :=
  let st := with_isRecording false st in
  let st := updateStatus "status-processing" "Processing..." st in
  let st := on recordBtnSpan (set_inner [Lit "Record Answer"]) st in
  let st := on recordBtn (remove_class "is-recording") st in
  if negb (is_empty (currentTranscript st)) then
    let st := with_allUserAnswers (allUserAnswers st ++ [currentTranscript st]) st in
    let st := with_conversationHistory
                (conversationHistory st
                 ++ [{| role := "user"; parts := str (currentTranscript st) |}]) st in
    let st := logToConversation "You" (str (currentTranscript st)) st in
    await AwaitFollowUp
      (emit (Fetch "/api/follow-up" (History (conversationHistory st))) st)
  else await TimerAskNext st.

Definition onend_catch (message : text) (st : state) : state :=
  emit (ConsoleError "Follow-up fetch failed, proceeding to next question." message) st.

(** [onend] from the settled request on. *)
Definition onend_settled (r : fetched followup) (st : state) : state :=
  let st :=
    match r with
    | Rejected message => onend_catch message st
    | Resolved _ (BadBody message) => onend_catch message st
    | Resolved ok (Body data) =>
        if negb ok then onend_catch (Error (followup_error data)) st
        else
          match question data with
          | Some followUp =>
              if truthy (Some followUp) && negb (is_string sentinel (Some followUp))
              then
                match initialQuestions st with
                | Some qs =>
                    with_initialQuestions
                      (Some (splice (currentQuestionIndex st) followUp qs)) st
                | None =>
                    onend_catch
                      [Lit "Cannot read properties of undefined (reading 'splice')"] st
                end
              else st
          | None => st
          end
    end in
  await TimerAskNext st.

(** ** Events *)

Inductive event : Type :=
| ClickSelectResume
| ChooseFile (f : option file)
| TypeJobRole (s : string)
| ClickSubmitJobRole
| AnalyzeSettled (r : fetched analysis)
| WebGL (failure : option text)           (* the browser gains or loses WebGL *)
| ModelSettled (failure : option text)    (* the face-api model download *)
| MediaSettled (m : media)
| Hear (data : list byte)                  (* the microphone signal changes *)
| Frame
| ClickStart
| QuestionSpoken
| ClosingSpoken
| ClickRecord
| RecognitionStart
| RecognitionResult (results : list string)
| RecognitionEnd
| FollowUpSettled (r : fetched followup)
| TimerFired
| EvaluateSettled (r : fetched report).

(** A pending task is taken up. *)
Definition resume (t : task) (k : state -> state) (st : state) : option state :=
  option_map (fun rest => k (with_pending rest st)) (take task_eqb t (pending st)).

(** A callback of a task that stays pending. *)
Definition during (t : task) (k : state -> state) (st : state) : option state :=
  if existsb (task_eqb t) (pending st) then Some (k st) else None.

(** A disabled button does not fire. *)
Definition click (id : string) (k : state -> state) (st : state) : option state :=
  if disabled (page st id) then None else Some (k st).

(** One event; [None] when the event cannot happen in this state. *)
Definition step (st : state) (e : event) : option state :=
  match e with
  | ClickSelectResume => click selectResumeBtn (emit (Call "resumeFile.click")) st
  | ChooseFile f => Some (handleFileSelection (on resumeFile (set_files f) st))
  | TypeJobRole s => Some (on jobRoleInput (set_input s) st)
  | ClickSubmitJobRole => click submitJobRoleBtn handleJobRoleSubmit st
  | AnalyzeSettled r => resume AwaitAnalyze (handleJobRoleSubmit_settled r) st
  | WebGL failure => Some (with_webgl failure st)
  | ModelSettled failure => resume AwaitModel (setupMedia_loaded failure) st
  | MediaSettled m => resume AwaitMedia (setupMedia_settled m) st
  | Hear data =>
      match analyser st with
      | Some _ =>
          if List.length data =? frequencyBinCount
          then Some (with_analyser (Some data) st) else None
      | None => None
      end
  | Frame => resume NextFrame (fun st => uncaught (animateAvatar st)) st
  | ClickStart =>
      click startInterviewBtn
        (fun st => askNextQuestion (on startInterviewBtn (set_disabled true) st)) st
  | QuestionSpoken => resume AwaitQuestionSpoken askNextQuestion_spoken st
  | ClosingSpoken => resume AwaitClosingSpoken endInterview_spoken st
  | ClickRecord => click recordBtn toggleRecording st
  | RecognitionStart => during Recognising onstart st
  | RecognitionResult results => during Recognising (onresult results) st
  | RecognitionEnd => resume Recognising onend st
  | FollowUpSettled r => resume AwaitFollowUp (onend_settled r) st
  | TimerFired => resume TimerAskNext askNextQuestion st
  | EvaluateSettled r => resume AwaitEvaluate (endInterview_settled r) st
  end.

Fixpoint run (st : state) (events : list event) : option state :=
  match events with
  | [] => Some st
  | e :: rest =>
      match step st e with
      | Some st' => run st' rest
      | None => None
      end
  end.

(** The questions asked so far: the entries with role 'model'. *)
Definition asked (h : list entry) : list value :=
  map parts (filter (fun e => String.eqb (role e) "model") h).

(** The answers recorded in the history: the entries with role 'user'. *)
Definition answered (h : list entry) : list value :=
  map parts (filter (fun e => String.eqb (role e) "user") h).

End Voice.

(** * The landing page and the typed interview page *)

Module Chat.

(** [getDefaultQuestions()] *)
Definition getDefaultQuestions : list json :=
  [JStr "Tell me about a challenging project recently completed. What was the goal and outcome?";
   JStr "Walk through the design of a REST API built recently. What trade-offs were considered?";
   JStr "How is time complexity analyzed for a function that uses nested loops?";
   JStr "Explain how to diagnose and fix a memory leak in a Node/JS or Python service.";
   JStr "What is the difference between processes and threads, and when to use each?"].

(** The key under which the questions travel from one page to the next.
    [JSON.stringify] followed by [JSON.parse] gives back the parsed array, so
    [sessionStorage] is modelled as holding the array itself. *)
Definition interviewQuestions : string := "interviewQuestions".

(** ** The landing page: [handleLandingPage] *)

Module Landing.

Definition lenoraSection : string := "lenora-section".
Definition resumeForm : string := "resume-form".
Definition errorMessageDiv : string := "error-message".
Definition loadingIndicator : string := "loading-indicator".
Definition mainActionBtnSpan : string := "main-action-btn span".

Record state : Type := {
  selectedTool : value;
  toolBtns : list (string * value);   (* each .tool-btn with its data-tool *)
  page : document;
  trace : list effect;
  awaiting : nat;                     (* submissions at fetch("/api/analyze") *)
  storage : option (list json);       (* sessionStorage.interviewQuestions *)
  href : option string                (* window.location.href, once assigned *)
}.

Definition with_selectedTool (x : value) (st : state) : state :=
  {| selectedTool := x; toolBtns := toolBtns st; page := page st;
     trace := trace st; awaiting := awaiting st; storage := storage st;
     href := href st |}.

Definition with_toolBtns (x : list (string * value)) (st : state) : state :=
  {| selectedTool := selectedTool st; toolBtns := x; page := page st;
     trace := trace st; awaiting := awaiting st; storage := storage st;
     href := href st |}.

Definition with_page (x : document) (st : state) : state :=
  {| selectedTool := selectedTool st; toolBtns := toolBtns st; page := x;
     trace := trace st; awaiting := awaiting st; storage := storage st;
     href := href st |}.

Definition with_trace (x : list effect) (st : state) : state :=
  {| selectedTool := selectedTool st; toolBtns := toolBtns st;
     page := page st; trace := x; awaiting := awaiting st;
     storage := storage st; href := href st |}.

Definition with_awaiting (x : nat) (st : state) : state :=
  {| selectedTool := selectedTool st; toolBtns := toolBtns st;
     page := page st; trace := trace st; awaiting := x; storage := storage st;
     href := href st |}.

Definition with_storage (x : option (list json)) (st : state) : state :=
  {| selectedTool := selectedTool st; toolBtns := toolBtns st;
     page := page st; trace := trace st; awaiting := awaiting st;
     storage := x; href := href st |}.

Definition with_href (x : option string) (st : state) : state :=
  {| selectedTool := selectedTool st; toolBtns := toolBtns st;
     page := page st; trace := trace st; awaiting := awaiting st;
     storage := storage st; href := x |}.

Definition emit (e : effect) (st : state) : state :=
  with_trace (trace st ++ [e]) st.

Definition on (id : string) (f : element -> element) (st : state) : state :=
  with_page (update id f (page st)) st.

Definition setItem (qs : list json) (st : state) : state :=
  emit (SetItem interviewQuestions qs) (with_storage (Some qs) st).

Definition assign (target : string) (st : state) : state :=
  emit (Assign target) (with_href (Some target) st).

(** [let selectedTool = "interview"] *)
Definition initial (btns : list (string * value)) (doc : document)
  (stored : option (list json)) : state :=
  {| selectedTool := str "interview"; toolBtns := btns; page := doc;
     trace := []; awaiting := 0; storage := stored; href := None |}.

(** The observer callback for an intersecting entry. *)
Definition reveal (st : state) : state :=
  on lenoraSection (remove_class "hidden") st.

(** The click listener of a tool button. *)
Definition selectTool (btn : string) (tool : value) (st : state) : state :=
  let st := fold_left (fun st b => on (fst b) (remove_class "active") st) (toolBtns st) st in
  let st := on btn (add_class "active") st in
  let st := with_selectedTool tool st in
  if is_string "ats" (selectedTool st) then
    on mainActionBtnSpan (set_inner [Lit "Check Your Resume"]) st
  else if is_string "placement" (selectedTool st) then
    on mainActionBtnSpan (set_inner [Lit "Explore Resources"]) st
  else on mainActionBtnSpan (set_inner [Lit "Start AI Interview"]) st.

(** The submit listener up to [await fetch("/api/analyze", ...)]. *)
Definition submit (st : state) : state :=
  if is_string "ats" (selectedTool st) then assign "resumechecker.html" st
  else if is_string "placement" (selectedTool st) then
    assign "placementresources.html" st
  else
    let st := on errorMessageDiv (set_inner [Lit ""]) st in
    let st := on loadingIndicator (set_display "block") st in
    let st := on resumeForm (set_display "none") st in
    with_awaiting (S (awaiting st)) (emit (Fetch "/api/analyze" EmptyObject) st).

(** Its [catch (error)] block. *)
Definition submit_catch (message : text) (st : state) : state :=
  let st := emit (ConsoleError "API error, using fallback questions:" message) st in
  let fallback := getDefaultQuestions in
  if negb (List.length fallback =? 0) then
    assign "/interview.html" (setItem fallback st)
  else
    let st := on errorMessageDiv (set_inner (Lit "Error: " :: message)) st in
    let st := on loadingIndicator (set_display "none") st in
    on resumeForm (set_display "flex") st.

(** The submit listener from the settled request on. *)
Definition submit_settled (r : fetched analysis) (st : state) : state :=
  match r with
  | Rejected message => submit_catch message st
  | Resolved _ (BadBody message) => submit_catch message st
  | Resolved ok (Body data) =>
      if negb ok then
        submit_catch
          (Error (js_or (analysis_error data) (str "An unknown error occurred."))) st
      else
        let qs :=
          match questions data with
          | Some (q :: rest) => q :: rest
          | _ => getDefaultQuestions
          end in
        assign "/interview.html" (setItem qs st)
  end.

Inductive event : Type :=
| Intersect
| ClickTool (btn : string)
| Submit
| AnalyzeSettled (r : fetched analysis).

Definition step (st : state) (e : event) : option state :=
  match e with
  | Intersect => Some (reveal st)
  | ClickTool btn =>
      match find (fun b => String.eqb (fst b) btn) (toolBtns st) with
      | Some (_, tool) => Some (selectTool btn tool st)
      | None => None
      end
  | Submit => Some (submit st)
  | AnalyzeSettled r =>
      match awaiting st with
      | 0 => None
      | S n => Some (submit_settled r (with_awaiting n st))
      end
  end.

End Landing.

(** ** The typed interview page: [handleInterviewPage] *)

Module Interview.

Definition interviewBox : string := "interview-box".
Definition userAnswerInput : string := "user-answer".
Definition submitBtn : string := "submit-answer-btn".
Definition reportSection : string := "report-section".
Definition userInputArea : string := "user-input-area".
Definition loadingIndicator : string := "loading-indicator".
Definition errorMessageDiv : string := "error-message".
Definition reportContent : string := "report-content".

Inductive task : Type :=
| AwaitFollowUp         (* handleAnswerSubmission, at fetch("/api/follow-up") *)
| AwaitEvaluate.        (* endInterview, at fetch("/api/evaluate") *)

Definition task_eqb (a b : task) : bool :=
  match a, b with
  | AwaitFollowUp, AwaitFollowUp | AwaitEvaluate, AwaitEvaluate => true
  | _, _ => false
  end.

Record state : Type := {
  initialQuestions : list json;
  conversationHistory : list entry;
  allUserAnswers : list string;
  currentQuestionIndex : nat;
  page : document;
  trace : list effect;
  pending : list task
}.

Definition with_initialQuestions (x : list json) (st : state) : state :=
  {| initialQuestions := x; conversationHistory := conversationHistory st;
     allUserAnswers := allUserAnswers st;
     currentQuestionIndex := currentQuestionIndex st; page := page st;
     trace := trace st; pending := pending st |}.

Definition with_conversationHistory (x : list entry) (st : state) : state :=
  {| initialQuestions := initialQuestions st; conversationHistory := x;
     allUserAnswers := allUserAnswers st;
     currentQuestionIndex := currentQuestionIndex st; page := page st;
     trace := trace st; pending := pending st |}.

Definition with_allUserAnswers (x : list string) (st : state) : state :=
  {| initialQuestions := initialQuestions st;
     conversationHistory := conversationHistory st; allUserAnswers := x;
     currentQuestionIndex := currentQuestionIndex st; page := page st;
     trace := trace st; pending := pending st |}.

Definition with_currentQuestionIndex (x : nat) (st : state) : state :=
  {| initialQuestions := initialQuestions st;
     conversationHistory := conversationHistory st;
     allUserAnswers := allUserAnswers st; currentQuestionIndex := x;
     page := page st; trace := trace st; pending := pending st |}.

Definition with_page (x : document) (st : state) : state :=
  {| initialQuestions := initialQuestions st;
     conversationHistory := conversationHistory st;
     allUserAnswers := allUserAnswers st;
     currentQuestionIndex := currentQuestionIndex st; page := x;
     trace := trace st; pending := pending st |}.

Definition with_trace (x : list effect) (st : state) : state :=
  {| initialQuestions := initialQuestions st;
     conversationHistory := conversationHistory st;
     allUserAnswers := allUserAnswers st;
     currentQuestionIndex := currentQuestionIndex st; page := page st;
     trace := x; pending := pending st |}.

Definition with_pending (x : list task) (st : state) : state :=
  {| initialQuestions := initialQuestions st;
     conversationHistory := conversationHistory st;
     allUserAnswers := allUserAnswers st;
     currentQuestionIndex := currentQuestionIndex st; page := page st;
     trace := trace st; pending := x |}.

Definition emit (e : effect) (st : state) : state :=
  with_trace (trace st ++ [e]) st.

Definition await (t : task) (st : state) : state :=
  with_pending (pending st ++ [t]) st.

Definition on (id : string) (f : element -> element) (st : state) : state :=
  with_page (update id f (page st)) st.

Definition addMessageToBox (sender : string) (message : value) (st : state) : state :=
  on interviewBox
    (appendChild [Lit "<strong>"; Interp (str sender); Lit ":</strong><p>";
                  Interp message; Lit "</p>"]) st.

Definition enableUserInput (st : state) : state :=
  let st := on userAnswerInput (set_input "") st in
  let st := on userAnswerInput (set_disabled false) st in
  let st := on submitBtn (set_disabled false) st in
  emit (Call "userAnswerInput.focus") st.

Definition disableUserInput (st : state) : state :=
  let st := on userAnswerInput (set_disabled true) st in
  on submitBtn (set_disabled true) st.

Definition farewell : string :=
  "Thank you for your answers. Generating your performance report now...".

(** [endInterview] up to [await fetch("/api/evaluate", ...)]. *)
Definition endInterview (st : state) : state :=
  let st := addMessageToBox "AI" (str farewell) st in
  let st := on userInputArea (add_class "hidden") st in
  let st := on loadingIndicator (set_display "block") st in
  await AwaitEvaluate (emit (Fetch "/api/evaluate" (Answers (allUserAnswers st))) st).

(** The report markup; white space between the tags is left out. *)
Definition report_markup (r : report) : text :=
  [Lit "<h3>Overall Score: "; Interp (js_or (overallScore r) (str "N/A"));
   Lit " / 10</h3><h3>Strengths:</h3><p>";
   Interp (js_or (strengths r) (str "N/A"));
   Lit "</p><h3>Areas for Improvement:</h3><p>";
   Interp (js_or (weaknesses r) (str "N/A"));
   Lit "</p><h3>Suggestions:</h3><p>";
   Interp (js_or (suggestion r) (str "N/A"));
   Lit "</p>"].

Definition displayReport (r : report) (st : state) : state :=
  let st := on reportContent (set_inner (report_markup r)) st in
  on reportSection (remove_class "hidden") st.

Definition endInterview_catch (message : text) (st : state) : state :=
  on errorMessageDiv (set_inner (Lit "Error generating report: " :: message)) st.

(** [endInterview] from the settled request on, with its [finally]. *)
Definition endInterview_settled (r : fetched report) (st : state) : state :=
  let st :=
    match r with
    | Rejected message => endInterview_catch message st
    | Resolved _ (BadBody message) => endInterview_catch message st
    | Resolved ok (Body rep) =>
        if negb ok then endInterview_catch (Error (report_error rep)) st
        else displayReport rep st
    end in
  on loadingIndicator (set_display "none") st.

Definition askNextInitialQuestion (st : state) : state :=
  if currentQuestionIndex st <? List.length (initialQuestions st) then
    let question := nth_error (initialQuestions st) (currentQuestionIndex st) in
    let st := addMessageToBox "AI" question st in
    let st := with_conversationHistory
                (conversationHistory st ++ [{| role := "model"; parts := question |}])
                st in
    let st := enableUserInput st in
    with_currentQuestionIndex (S (currentQuestionIndex st)) st
  else endInterview st.

(** [startInterview], given [sessionStorage.getItem("interviewQuestions")]. *)
Definition startInterview (storedQuestions : option (list json)) (st : state) : state :=
  let st :=
    match storedQuestions with
    | None => with_initialQuestions getDefaultQuestions st
    | Some qs => with_initialQuestions qs st
    end in
  askNextInitialQuestion st.

(** [handleInterviewPage]: the variables are set up and the interview starts. *)
Definition initial (doc : document) (storedQuestions : option (list json)) : state :=
  startInterview storedQuestions
    {| initialQuestions := []; conversationHistory := []; allUserAnswers := [];
       currentQuestionIndex := 0; page := doc; trace := []; pending := [] |}.

Definition sentinel : string := "[NEXT_QUESTION]".

(** [handleAnswerSubmission] up to [await fetch("/api/follow-up", ...)]. *)
Definition handleAnswerSubmission (st : state) : state :=
  let answer := trim (input (page st userAnswerInput)) in
  if is_empty answer then st
  else
    let st := disableUserInput st in
    let st := addMessageToBox "You" (str answer) st in
    let st := with_allUserAnswers (allUserAnswers st ++ [answer]) st in
    let st := with_conversationHistory
                (conversationHistory st ++ [{| role := "user"; parts := str answer |}])
                st in
    let st := on loadingIndicator (set_display "block") st in
    await AwaitFollowUp
      (emit (Fetch "/api/follow-up" (History (conversationHistory st))) st).

Definition handleAnswerSubmission_catch (message : text) (st : state) : state :=
  askNextInitialQuestion (on errorMessageDiv (set_inner (Lit "Error: " :: message)) st).

(** [handleAnswerSubmission] from the settled request on, with its
    [finally]. *)
Definition handleAnswerSubmission_settled (r : fetched followup) (st : state) : state :=
  let st :=
    match r with
    | Rejected message => handleAnswerSubmission_catch message st
    | Resolved _ (BadBody message) => handleAnswerSubmission_catch message st
    | Resolved ok (Body data) =>
        if negb ok then handleAnswerSubmission_catch (Error (followup_error data)) st
        else
          let followUp := question data in
          if is_string sentinel followUp then askNextInitialQuestion st
          else
            let st := addMessageToBox "AI" followUp st in
            let st := with_conversationHistory
                        (conversationHistory st
                         ++ [{| role := "model"; parts := followUp |}]) st in
            enableUserInput st
    end in
  on loadingIndicator (set_display "none") st.

Inductive event : Type :=
| TypeAnswer (s : string)
| ClickSubmit
| PressKey (key : string) (shiftKey : bool)
| FollowUpSettled (r : fetched followup)
| EvaluateSettled (r : fetched report).

Definition resume (t : task) (k : state -> state) (st : state) : option state :=
  option_map (fun rest => k (with_pending rest st)) (take task_eqb t (pending st)).

(** One event; [None] when the event cannot happen in this state: a
    disabled control takes no input and does not fire. *)
Definition step (st : state) (e : event) : option state :=
  match e with
  | TypeAnswer s =>
      if disabled (page st userAnswerInput) then None
      else Some (on userAnswerInput (set_input s) st)
  | ClickSubmit =>
      if disabled (page st submitBtn) then None
      else Some (handleAnswerSubmission st)
  | PressKey key shiftKey =>
      if disabled (page st userAnswerInput) then None
      else if String.eqb key "Enter" && negb shiftKey
           then Some (handleAnswerSubmission st) else Some st
  | FollowUpSettled r => resume AwaitFollowUp (handleAnswerSubmission_settled r) st
  | EvaluateSettled r => resume AwaitEvaluate (endInterview_settled r) st
  end.

Definition asked (h : list entry) : list value :=
  map parts (filter (fun e => String.eqb (role e) "model") h).

Definition answered (h : list entry) : list value :=
  map parts (filter (fun e => String.eqb (role e) "user") h).

End Interview.

(** ** A browsing session over both pages *)

(** A page as served: the ids it has, the classes of its body, its tool
    buttons and its elements. *)
Record html : Type := {
  ids : list string;
  bodyClassList : list string;
  toolButtons : list (string * value);
  elements : document
}.

Inductive location : Type :=
| OnLanding (st : Landing.state)
| OnInterview (st : Interview.state)
| Elsewhere.                          (* a page on which neither handler runs *)

Record session : Type := {
  site : string -> html;              (* the pages, by address *)
  sessionStorage : option (list json);
  at_ : location
}.

(** The [DOMContentLoaded] listener: which handler runs on a page. *)
Definition load (p : html) (stored : option (list json)) : location :=
  if existsb (String.eqb Landing.lenoraSection) (ids p) then
    OnLanding (Landing.initial (toolButtons p) (elements p) stored)
  else if existsb (String.eqb "interview-page") (bodyClassList p) then
    OnInterview (Interview.initial (elements p) stored)
  else Elsewhere.

Inductive event : Type :=
| Open (address : string)             (* the user opens or reloads a page *)
| Landing_ (e : Landing.event)
| Interview_ (e : Interview.event).

Definition visit (address : string) (stored : option (list json)) (s : session)
  : session :=
  {| site := site s; sessionStorage := stored;
     at_ := load (site s address) stored |}.

(** One event of the session; an assignment to [window.location.href]
    leaves the page for the one assigned. *)
Definition step (s : session) (e : event) : option session :=
  match e, at_ s with
  | Open address, _ => Some (visit address (sessionStorage s) s)
  | Landing_ e, OnLanding st =>
      match Landing.step st e with
      | Some st' =>
          match Landing.href st' with
          | Some address => Some (visit address (Landing.storage st') s)
          | None =>
              Some {| site := site s; sessionStorage := Landing.storage st';
                      at_ := OnLanding st' |}
          end
      | None => None
      end
  | Interview_ e, OnInterview st =>
      match Interview.step st e with
      | Some st' =>
          Some {| site := site s; sessionStorage := sessionStorage s;
                  at_ := OnInterview st' |}
      | None => None
      end
  | _, _ => None
  end.

Fixpoint run (s : session) (events : list event) : option session :=
  match events with
  | [] => Some s
  | e :: rest =>
      match step s e with
      | Some s' => run s' rest
      | None => None
      end
  end.

(** A session starts with empty storage. *)
Definition start (pages : string -> html) (address : string) : session :=
  visit address None {| site := pages; sessionStorage := None; at_ := Elsewhere |}.

End Chat.

(** * What the backend supplies *)

(** The questions carried by the successful responses among the events of a
    voice interview: the [questions] of [/api/analyze] and the [question] of
    [/api/follow-up]. *)
Definition voice_supplied_by (e : Voice.event) : list value :=
  match e with
  | Voice.AnalyzeSettled (Resolved true (Body data)) =>
      match questions data with
      | Some qs => map Some qs
      | None => []
      end
  | Voice.FollowUpSettled (Resolved true (Body data)) => [question data]
  | _ => []
  end.

Definition voice_supplied (events : list Voice.event) : list value :=
  flat_map voice_supplied_by events.

(** The same for a session over the landing page and the typed interview. *)
Definition chat_supplied_by (e : Chat.event) : list value :=
  match e with
  | Chat.Landing_ (Chat.Landing.AnalyzeSettled (Resolved true (Body data))) =>
      match questions data with
      | Some qs => map Some qs
      | None => []
      end
  | Chat.Interview_ (Chat.Interview.FollowUpSettled (Resolved true (Body data))) =>
      [question data]
  | _ => []
  end.

Definition chat_supplied (events : list Chat.event) : list value :=
  flat_map chat_supplied_by events.

(** The questions asked on the page a session is at. *)
Definition chat_asked (s : Chat.session) : list value :=
  match Chat.at_ s with
  | Chat.OnInterview st => Chat.Interview.asked (Chat.Interview.conversationHistory st)
  | _ => []
  end.

(** * Reading the page *)


(** A request has failed unless it resolved with an ok status and a body
    that parses. *)
Definition failed {A : Type} (r : fetched A) : bool :=
  match r with
  | Resolved true (Body _) => false
  | _ => true
  end.

(** What [handleJobRoleSubmit] throws or catches when the request fails: the
    rejection of [fetch] or of [response.json()], or its own error for a
    response that is not ok. *)
Definition analyze_failure (r : fetched analysis) : text :=
  match r with
  | Rejected message => message
  | Resolved _ (BadBody message) => message
  | Resolved _ (Body data) =>
      Error (js_or (analysis_error data) (str "Failed to analyze resume."))
  end.

(** The message the upload form is said to show for a failed request: the
    error message of the response, or the fixed text when there is none. *)
Definition analyze_failure_claimed (r : fetched analysis) : text :=
  match r with
  | Resolved _ (Body data) =>
      Error (js_or (analysis_error data) (str "Failed to analyze resume."))
  | _ => [Lit "Failed to analyze resume."]
  end.


(** Answers and history go together: the recorded answers are the texts of
    the 'user' entries of the history, in order. *)
Definition voice_linked (st : Voice.state) : Prop :=
  map str (Voice.allUserAnswers st) = Voice.answered (Voice.conversationHistory st).

Definition chat_linked (st : Chat.Interview.state) : Prop :=
  map str (Chat.Interview.allUserAnswers st)
  = Chat.Interview.answered (Chat.Interview.conversationHistory st).

(** What one step may do to the answers [a] and the history [h]: leave the
    answers alone and add no 'user' entry, or append one text to both. *)
Definition in_step (a a' : list string) (u u' : list value) : Prop :=
  (a' = a /\ u' = u) \/ (exists t, a' = (a ++ [t])%list /\ u' = (u ++ [str t])%list).

(** A question value that a backend response in [S] carried, or one of the
    default questions. *)
Definition backend_or_default (S : list value) (v : value) : Prop :=
  In v S \/ In v (map Some Chat.getDefaultQuestions).

(** All questions a session holds or has asked are of that kind. *)
Definition chat_sourced (S : list value) (s : Chat.session) : Prop :=
  (forall qs q, Chat.sessionStorage s = Some qs -> In q qs ->
     backend_or_default S (Some q))
  /\ match Chat.at_ s with
     | Chat.OnLanding l =>
         forall qs q, Chat.Landing.storage l = Some qs -> In q qs ->
           backend_or_default S (Some q)
     | Chat.OnInterview st =>
         (forall q, In q (Chat.Interview.initialQuestions st) ->
            backend_or_default S (Some q))
         /\ (forall v,
               In v (Chat.Interview.asked (Chat.Interview.conversationHistory st)) ->
               backend_or_default S v)
     | Chat.Elsewhere => True
     end.

(** The avatar is ready for its frames: with an analyser the array has one
    byte per frequency bin, and a frame is only pending once the avatar
    exists. *)
Definition avatar_ready (st : Voice.state) : Prop :=
  (Voice.analyser st <> None ->
   List.length (Voice.audioDataArray st) = Voice.frequencyBinCount)
  /\ (In Voice.NextFrame (Voice.pending st) -> Voice.avatar st <> None).

(** The arithmetic mean of the bins. *)
Definition mean (bins : list byte) : Q :=
  inject_Z (fold_right (fun b acc => (Voice.byte_value b + acc)%Z) 0%Z bins)
  / inject_Z (Z.of_nat (List.length bins)).

(** * Sample pages and states *)

Module Sample.

Definition empty_page : document := [].

Definition resume : file := {| name := "cv.pdf" |}.

(** The upload form filled in: a file chosen, a job role typed. *)
Definition filled (role : string) : Voice.state :=
  Voice.on Voice.jobRoleInput (set_input role)
    (Voice.on Voice.resumeFile (set_files (Some resume))
       (Voice.initial true empty_page)).

Definition two_questions : list json := [JStr "Why this role?"; JStr "Why now?"].

(** An interview with two questions loaded, none asked yet. *)
Definition loaded : Voice.state :=
  Voice.with_initialQuestions (Some two_questions) (Voice.initial true empty_page).

(** A site whose interview page carries the class the dispatcher looks for. *)
Definition pages (address : string) : Chat.html :=
  if String.eqb address "/interview.html" then
    {| Chat.ids := ["interview-box"]; Chat.bodyClassList := ["interview-page"];
       Chat.toolButtons := []; Chat.elements := empty_page |}
  else
    {| Chat.ids := ["lenora-section"; "resume-form"]; Chat.bodyClassList := [];
       Chat.toolButtons := [("tool-interview", str "interview")];
       Chat.elements := empty_page |}.

(** The typed interview opened with the two questions stored: the first has
    been asked. *)
Definition typed : Chat.Interview.state :=
  Chat.Interview.initial empty_page (Some two_questions).



Definition silence : list byte := repeat x00 Voice.frequencyBinCount.

(** A page with avatar and analyser, the analyser holding [data]. *)
Definition listening (data : list byte) : Voice.state :=
  Voice.with_audioDataArray silence
    (Voice.with_analyser (Some data)
       (Voice.with_avatar (Some (Number.of_Z 1, Number.of_Z 1, Number.of_Z 1))
          (Voice.initial true empty_page))).

(** The landing page submitted while the backend is unreachable. *)
Definition offline : list Chat.event :=
  [Chat.Landing_ Chat.Landing.Submit;
   Chat.Landing_ (Chat.Landing.AnalyzeSettled (Rejected [Lit "Failed to fetch"]))].

(** A steady tone: every bin at 128. *)
Definition tone : list byte := repeat x80 Voice.frequencyBinCount.

(** The events up to the first frame that has an analyser to read. *)
Definition until_listening : list Voice.event :=
  [Voice.ClickSubmitJobRole;
   Voice.AnalyzeSettled
     (Resolved true
        (Body {| analysis_error := undefined; questions := Some two_questions |}));
   Voice.ModelSettled None;
   Voice.MediaSettled (Voice.Stream 1);
   Voice.Hear tone].

End Sample.

(** * Further readings of the state *)

(** The requests of a trace that go to [url]. *)
Definition is_fetch_to (url : string) (e : effect) : bool :=
  match e with
  | Fetch u _ => String.eqb u url
  | _ => false
  end.

Definition fetches_to (url : string) (trace : list effect) : nat :=
  List.length (filter (is_fetch_to url) trace).

(** The calls of [callee] in a trace. *)
Definition is_call_of (callee : string) (e : effect) : bool :=
  match e with
  | Call c => String.eqb c callee
  | _ => false
  end.

Definition calls_of (callee : string) (trace : list effect) : nat :=
  List.length (filter (is_call_of callee) trace).

(** The utterances of a trace. *)
Definition is_utterance (e : effect) : bool :=
  match e with
  | Utter _ => true
  | _ => false
  end.

Definition utterances (trace : list effect) : nat :=
  List.length (filter is_utterance trace).

(** How many tasks [t] are pending. *)
Definition voice_waiting (t : Voice.task) (pending : list Voice.task) : nat :=
  List.length (filter (Voice.task_eqb t) pending).

(** The line the conversation log of the voice page holds for an entry of
    the history: 'You' in purple for the user, 'Improvyu' in cyan otherwise. *)
Definition voice_log_line (e : entry) : text :=
  if String.eqb (role e) "user" then
    [Lit ("<strong class=" ++ dq); Interp (str "text-purple-300");
     Lit (dq ++ ">"); Interp (str "You"); Lit ":</strong> "; Interp (parts e)]
  else
    [Lit ("<strong class=" ++ dq); Interp (str "text-cyan-300");
     Lit (dq ++ ">"); Interp (str "Improvyu"); Lit ":</strong> "; Interp (parts e)].

(** No leading and no trailing white space. *)
Definition trimmed (s : string) : Prop := trimStart s = s /\ trimEnd s = s.

(** Leading white space dropped from a list of characters. *)
Fixpoint drop_space (l : list ascii) : list ascii :=
  match l with
  | [] => []
  | c :: rest => if is_space c then drop_space rest else l
  end.

(** Both controls of the typed interview are disabled. *)
Definition controls_disabled (st : Chat.Interview.state) : Prop :=
  disabled (Chat.Interview.page st Chat.Interview.userAnswerInput) = true
  /\ disabled (Chat.Interview.page st Chat.Interview.submitBtn) = true.

(** How often the report has been requested. *)
Definition report_requests (st : Chat.Interview.state) : nat :=
  fetches_to "/api/evaluate" (Chat.Interview.trace st).

(** The typed interview has one request in flight at most: none before the
    report is requested, or, with the controls disabled, the follow-up for
    the last answer, or the one request for the report, pending or
    settled. *)
Definition one_request_at_a_time (st : Chat.Interview.state) : Prop :=
  (Chat.Interview.pending st = [] /\ report_requests st = 0)
  \/ (controls_disabled st
      /\ ((Chat.Interview.pending st = [Chat.Interview.AwaitFollowUp]
           /\ report_requests st = 0)
          \/ (report_requests st = 1
              /\ (Chat.Interview.pending st = [Chat.Interview.AwaitEvaluate]
                  \/ Chat.Interview.pending st = [])))).

(** * Further sample runs *)

Module Scenario.

(** One spoken answer on the voice page. *)
Definition answering : list Voice.event :=
  [Voice.ClickRecord; Voice.RecognitionResult ["I led "; "a team."];
   Voice.RecognitionEnd].


(** One typed answer on the interview page. *)
Definition typing : list Chat.event :=
  [Chat.Interview_ (Chat.Interview.TypeAnswer " Because. ");
   Chat.Interview_ Chat.Interview.ClickSubmit].

(** The questions arrive, the microphone is refused, a frame runs. *)
Definition no_microphone : list Voice.event :=
  [Voice.ClickSubmitJobRole;
   Voice.AnalyzeSettled
     (Resolved true
        (Body {| analysis_error := undefined;
                 questions := Some Sample.two_questions |}));
   Voice.ModelSettled None;
   Voice.MediaSettled (Voice.Denied [Lit "Permission denied"]);
   Voice.Frame].

(** A typed interview of one question, from the landing page to the request
    for the report. *)
Definition one_question : list Chat.event :=
  [Chat.Landing_ Chat.Landing.Submit;
   Chat.Landing_
     (Chat.Landing.AnalyzeSettled
        (Resolved true
           (Body {| analysis_error := undefined;
                    questions := Some [JStr "Why this role?"] |})));
   Chat.Interview_ (Chat.Interview.TypeAnswer "Because.");
   Chat.Interview_ Chat.Interview.ClickSubmit;
   Chat.Interview_
     (Chat.Interview.FollowUpSettled
        (Resolved true
           (Body {| followup_error := undefined;
                    question := str Chat.Interview.sentinel |})))].

End Scenario.

(** * Rounding in binary64 *)

(** The definitions below describe what the operations of [SpecFloat] compute
    at 53 bits of precision, in terms of integers: the value of a Number in
    units of 2^-2200, fine enough to hold the exact product of two Numbers,
    and the rounding of such a value to the nearest Number, ties to even. *)

Section Rounding.
Local Open Scope Z_scope.

(** m / 2^k rounded to the nearest integer, ties to even. *)
Definition rne (m k : Z) : Z :=
  let q := m / 2 ^ k in
  let r := m mod 2 ^ k in
  if r =? 0 then q
  else match 2 * r ?= 2 ^ k with
       | Lt => q
       | Eq => if Z.even q then q else q + 1
       | Gt => q + 1
       end.

(** Where m / 2^k lies between two integers. *)
Definition loc_of (m k : Z) : location :=
  let r := m mod 2 ^ k in
  if r =? 0 then loc_Exact else loc_Inexact (2 * r ?= 2 ^ k).

(** The rounding of the positive mantissa [m] at exponent [e]. *)
Definition bra (sx : bool) (m : positive) (e : Z) : spec_float :=
  binary_round_aux 53 1024 sx (Z.pos m) e loc_Exact.

(** The exponent a value of that size is rounded at. *)
Definition target_exp (m : positive) (e : Z) : Z :=
  Z.max (Z.pos (digits2_pos m) + e - 53) (-1074).

Definition grain : Z := 2200.

(** m * 2^e in units of 2^-2200. *)
Definition scaled (m e : Z) : Z := m * 2 ^ (e + grain).

(** The value of a finite Number in these units. *)
Definition weight (x : spec_float) : Z :=
  match x with
  | S754_finite s m e => scaled (if s then Z.neg m else Z.pos m) e
  | _ => 0
  end.

(** m * 2^e rounded to a multiple of 2^E. *)
Definition rnd_at (E m e : Z) : Z :=
  if E <=? e then scaled m e else scaled (rne m (E - e)) E.

Definition rndW (m : positive) (e : Z) : Z := rnd_at (target_exp m e) (Z.pos m) e.

(** A value rounded to the nearest Number. *)
Definition nearest (v : Z) : Z :=
  match v with
  | 0 => 0
  | Z.pos p => rndW p (- grain)
  | Z.neg p => - rndW p (- grain)
  end.

(** A zero, or a finite Number of at most 53 digits at an exponent of
    binary64. *)
Definition representable (x : spec_float) : Prop :=
  match x with
  | S754_zero _ => True
  | S754_finite _ m e => Z.pos (digits2_pos m) <= 53 /\ -1074 <= e
  | _ => False
  end.

(** The same, and below 2^B in absolute value. *)
Definition finite_below (B : Z) (x : spec_float) : Prop :=
  match x with
  | S754_zero _ => True
  | S754_finite _ m e =>
      Z.pos (digits2_pos m) <= 53 /\ -1074 <= e /\ Z.pos (digits2_pos m) + e <= B
  | _ => False
  end.

Definition signed (s : bool) (v : Z) : Z := if s then - v else v.

(** A positive Number with 53 digits. *)
Definition normal (x : spec_float) : bool :=
  match x with
  | S754_finite false m e => (digits2_pos m =? 53)%positive && (-1074 <=? e)
  | _ => false
  end.

(** The order of two such Numbers, read off exponent and mantissa. *)
Definition leb_normal (x y : spec_float) : bool :=
  match x, y with
  | S754_finite false m1 e1, S754_finite false m2 e2 =>
      (e1 <? e2) || ((e1 =? e2) && (m1 <=? m2)%positive)
  | _, _ => false
  end.

(** [avg] is exactly [total] / 32. *)
Definition mean_exact (total : Z) (avg : spec_float) : bool :=
  match avg with
  | S754_zero _ => total =? 0
  | S754_finite false m e =>
      (-60 <=? e) && (Z.pos m * 2 ^ (e + 60) * 32 =? total * 2 ^ 60)
  | _ => false
  end.

(** The rule of [animateAvatar]: the target scale for a mean, and the
    smoothing of the volume towards a target. *)
Definition targetScale (avg : Number.t) : Number.t :=
  Number.add (Number.of_Z 1)
    (Number.mul (Number.div avg (Number.of_Z 128)) (Number.tenths 7)).

Definition smooth (s t : Number.t) : Number.t :=
  Number.add s (Number.mul (Number.sub t s) (Number.tenths 2)).

(** The target scale for 32 bins that add up to [total]. *)
Definition target_of (total : Z) : Number.t :=
  targetScale (Number.div (Number.of_Z total) (Number.of_Z 32)).

(** What is verified of each of the 8161 possible sums of 32 bins. *)
Definition target_check (k : nat) : bool :=
  let total := Z.of_nat k in
  let t := target_of total in
  let t' := target_of (total + 1) in
  normal t && normal t' && leb_normal (Number.of_Z 1) t && leb_normal t t'
  && mean_exact total (Number.div (Number.of_Z total) (Number.of_Z 32))
  && (match t with S754_finite _ _ e => e <=? -51 | _ => false end).

(** The weight of 0.2. *)
Definition fifth : Z := weight (Number.tenths 2).

End Rounding.

(** * The size of the avatar *)

(** The sum of the bins. *)
Definition sum_of (bins : list byte) : Z :=
  fold_right (fun b acc => (Voice.byte_value b + acc)%Z) 0%Z bins.

(** The largest target scale: every bin at 255. *)
Definition largest_scale : Number.t := target_of 8160.

(** A Number between 0 and the largest target scale. *)
Definition in_range (x : Number.t) : Prop :=
  finite_below 2 x /\ (0 <= weight x <= weight largest_scale)%Z.

(** The volume is within its bounds and the avatar, if there is one, is a
    new mesh or has the volume as its scale on every axis. *)
Definition avatar_in_bounds (st : Voice.state) : Prop :=
  in_range (Voice.smoothedVolume st)
  /\ (Voice.avatar st = None
      \/ Voice.avatar st = Some (Number.of_Z 1, Number.of_Z 1, Number.of_Z 1)
      \/ Voice.avatar st
         = Some (Voice.smoothedVolume st, Voice.smoothedVolume st,
                 Voice.smoothedVolume st)).

(** * Properties *)

Open Scope list_scope.

(** ** Elements and documents *)

Lemma has_class_add (c : string) (e : element) :
  has_class c (add_class c e) = true.
Proof.
  unfold add_class, has_class at 1; simpl.
  destruct (has_class c e) eqn:E; [exact E|].
  rewrite existsb_app; simpl. now rewrite String.eqb_refl, orb_true_r.
Qed.

Lemma has_class_remove (c : string) (e : element) :
  has_class c (remove_class c e) = false.
Proof.
  unfold has_class, remove_class; simpl.
  induction (classList e) as [|d l IH]; simpl; [reflexivity|].
  destruct (String.eqb c d) eqn:E; simpl; [exact IH|].
  now rewrite E, IH.
Qed.

Lemma update_same (id : string) (f : element -> element) (d : document) :
  update id f d id = f (d id).
Proof. unfold update, getElementById. simpl. now rewrite String.eqb_refl. Qed.

Lemma update_other (id k : string) (f : element -> element) (d : document) :
  String.eqb id k = false -> update id f d k = d k.
Proof. unfold update, getElementById. simpl. now intros ->. Qed.

(** ** Trimming *)

Lemma trimStart_empty (s : string) : is_empty (trimStart s) = all_space s.
Proof.
  induction s as [|c s IH]; simpl; [reflexivity|].
  destruct (is_space c); simpl; [exact IH|reflexivity].
Qed.

Lemma trimStart_all_space (s : string) :
  all_space (trimStart s) = is_empty (trimStart s).
Proof.
  induction s as [|c s IH]; simpl; [reflexivity|].
  destruct (is_space c) eqn:E; simpl; [exact IH|]. now rewrite E.
Qed.

Lemma all_space_forallb (s : string) :
  all_space s = forallb is_space (list_ascii_of_string s).
Proof. induction s as [|c s IH]; simpl; [reflexivity|]. now rewrite IH. Qed.

Lemma forallb_rev {A : Type} (f : A -> bool) (l : list A) :
  forallb f (rev l) = forallb f l.
Proof.
  induction l as [|a l IH]; simpl; [reflexivity|].
  rewrite forallb_app, IH. simpl. rewrite andb_true_r. apply andb_comm.
Qed.

Lemma all_space_reverse (s : string) : all_space (reverse s) = all_space s.
Proof.
  unfold reverse.
  now rewrite !all_space_forallb, list_ascii_of_string_of_list_ascii, forallb_rev.
Qed.

Lemma is_empty_reverse (s : string) : is_empty (reverse s) = is_empty s.
Proof.
  unfold reverse. destruct s as [|c s]; [reflexivity|]. simpl.
  destruct (rev (list_ascii_of_string s)); reflexivity.
Qed.

(** A string trims to the empty string exactly when it is white space only. *)
Lemma trim_empty (s : string) : is_empty (trim s) = all_space s.
Proof.
  unfold trim, trimEnd.
  now rewrite is_empty_reverse, trimStart_empty, all_space_reverse,
    trimStart_all_space, trimStart_empty.
Qed.

Example trim_keeps_inner_space : trim "  Data  Engineer " = "Data  Engineer"%string.
Proof. reflexivity. Qed.

Example trim_of_white_space :
  trim (String (ascii_of_nat 9) (String (ascii_of_nat 160) " ")) = ""%string.
Proof. reflexivity. Qed.

(** ** The upload form *)

(** C6: a job role that trims to the empty string makes
    [handleJobRoleSubmit] alert and return: the alert is the only effect (so
    no request is issued), nothing is awaited, and the questions, the
    history, the answers, the index and the whole page (hence the visible
    section) are as before. *)
Theorem empty_job_role_only_alerts (st : Voice.state) :
  is_empty (trim (input (Voice.page st Voice.jobRoleInput))) = true ->
  let st' := Voice.handleJobRoleSubmit st in
  Voice.trace st' = Voice.trace st ++ [Alert "Please enter a target job role."]
  /\ Voice.pending st' = Voice.pending st
  /\ Voice.initialQuestions st' = Voice.initialQuestions st
  /\ Voice.conversationHistory st' = Voice.conversationHistory st
  /\ Voice.allUserAnswers st' = Voice.allUserAnswers st
  /\ Voice.currentQuestionIndex st' = Voice.currentQuestionIndex st
  /\ Voice.page st' = Voice.page st
  /\ (disabled (Voice.page st Voice.submitJobRoleBtn) = false ->
      Voice.step st Voice.ClickSubmitJobRole = Some st').
Proof.
  intros Hempty st'.
  assert (E : st' = Voice.emit (Alert "Please enter a target job role.") st).
  { subst st'. unfold Voice.handleJobRoleSubmit. now rewrite Hempty. }
  repeat split; try (rewrite E; reflexivity).
  intros Hbtn. simpl. unfold Voice.click. now rewrite Hbtn.
Qed.

Lemma empty_job_role_only_alerts_witness :
  Voice.trace (Voice.handleJobRoleSubmit (Sample.filled "  "))
  = [Alert "Please enter a target job role."].
Proof.
  exact (proj1 (empty_job_role_only_alerts (Sample.filled "  ") eq_refl)).
Defined.

(** ** Pending tasks *)

Lemma take_last {T : Type} (eqb : T -> T -> bool) (t : T) (l : list T) :
  eqb t t = true -> exists rest, take eqb t (l ++ [t]) = Some rest.
Proof.
  intros Hrefl. induction l as [|u l [rest IH]]; simpl.
  - rewrite Hrefl. now exists [].
  - destruct (eqb t u); [now exists (l ++ [t])|].
    rewrite IH. now exists (u :: rest).
Qed.

Lemma take_in {T : Type} (eqb : T -> T -> bool) (t : T) (l : list T) :
  (forall u, eqb u u = true) -> In t l -> exists rest, take eqb t l = Some rest.
Proof.
  intros Hrefl. induction l as [|u l IH]; simpl; [tauto|].
  intros [->|Hin].
  - rewrite Hrefl. now exists l.
  - destruct (eqb t u); [now exists l|].
    destruct (IH Hin) as [rest ->]. now exists (u :: rest).
Qed.

Lemma voice_task_eqb_refl (t : Voice.task) : Voice.task_eqb t t = true.
Proof. now destruct t. Qed.

Lemma chat_task_eqb_refl (t : Chat.Interview.task) :
  Chat.Interview.task_eqb t t = true.
Proof. now destruct t. Qed.

(** ** The question loop *)

Lemma voice_asks_in_range (st : Voice.state) (qs : list json) :
  Voice.initialQuestions st = Some qs ->
  Voice.currentQuestionIndex st < List.length qs ->
  exists q,
    nth_error qs (Voice.currentQuestionIndex st) = Some q
    /\ Voice.currentQuestionIndex (Voice.askNextQuestion st)
       = S (Voice.currentQuestionIndex st)
    /\ Voice.conversationHistory (Voice.askNextQuestion st)
       = Voice.conversationHistory st ++ [{| role := "model"; parts := Some q |}]
    /\ inner (Voice.page (Voice.askNextQuestion st) Voice.questionText)
       = [Interp (Some q)]
    /\ Voice.trace (Voice.askNextQuestion st) = Voice.trace st ++ [Utter (Some q)]
    /\ Voice.pending (Voice.askNextQuestion st)
       = Voice.pending st ++ [Voice.AwaitQuestionSpoken]
    /\ Voice.initialQuestions (Voice.askNextQuestion st) = Some qs
    /\ Voice.allUserAnswers (Voice.askNextQuestion st) = Voice.allUserAnswers st.
Proof.
  intros Hqs Hlt.
  destruct (nth_error qs (Voice.currentQuestionIndex st)) as [q|] eqn:Hq.
  2:{ apply nth_error_None in Hq. lia. }
  exists q. unfold Voice.askNextQuestion. rewrite Hqs.
  apply Nat.leb_gt in Hlt. rewrite Hlt. simpl. rewrite Hq.
  repeat split; try assumption; reflexivity.
Qed.

Lemma voice_endInterview_keeps (st : Voice.state) :
  Voice.currentQuestionIndex (Voice.endInterview st) = Voice.currentQuestionIndex st
  /\ Voice.conversationHistory (Voice.endInterview st) = Voice.conversationHistory st
  /\ Voice.initialQuestions (Voice.endInterview st) = Voice.initialQuestions st
  /\ Voice.trace (Voice.endInterview st) = Voice.trace st ++ [Utter (str Voice.closing)]
  /\ Voice.pending (Voice.endInterview st)
     = Voice.pending st ++ [Voice.AwaitClosingSpoken].
Proof. repeat split. Qed.

Lemma voice_ends_iff_exhausted (st : Voice.state) (qs : list json) :
  Voice.initialQuestions st = Some qs ->
  Voice.askNextQuestion st = Voice.endInterview st
  <-> List.length qs <= Voice.currentQuestionIndex st.
Proof.
  intros Hqs. split.
  - intros Heq.
    destruct (Nat.le_gt_cases (List.length qs) (Voice.currentQuestionIndex st))
      as [Hle|Hlt]; [exact Hle|].
    destruct (voice_asks_in_range st qs Hqs Hlt) as (q & _ & Hidx & _).
    rewrite Heq in Hidx. simpl in Hidx. lia.
  - intros Hle. unfold Voice.askNextQuestion. rewrite Hqs.
    apply Nat.leb_le in Hle. now rewrite Hle.
Qed.

Lemma firstn_succ_nth {A : Type} (l : list A) (k : nat) (x : A) :
  nth_error l k = Some x -> firstn (S k) l = firstn k l ++ [x].
Proof.
  revert k. induction l as [|a l IH]; intros [|k] H; simpl in *; try discriminate.
  - now injection H as ->.
  - now rewrite <- (IH k H).
Qed.

Lemma voice_asks_in_order (k : nat) (st : Voice.state) (qs : list json) :
  Voice.initialQuestions st = Some qs ->
  Voice.currentQuestionIndex st + k <= List.length qs ->
  let st' := Nat.iter k Voice.askNextQuestion st in
  Voice.initialQuestions st' = Some qs
  /\ Voice.currentQuestionIndex st' = Voice.currentQuestionIndex st + k
  /\ Voice.conversationHistory st'
     = Voice.conversationHistory st
       ++ map (fun q => {| role := "model"; parts := Some q |})
            (firstn k (skipn (Voice.currentQuestionIndex st) qs)).
Proof.
  intros Hqs. induction k as [|k IH]; intros Hle; cbv zeta.
  - simpl. now rewrite Nat.add_0_r, app_nil_r.
  - change (Nat.iter (S k) Voice.askNextQuestion st)
      with (Voice.askNextQuestion (Nat.iter k Voice.askNextQuestion st)).
    destruct IH as (Hqs' & Hidx & Hhist); [lia|].
    destruct (voice_asks_in_range _ _ Hqs') as (q & Hq & Hi & Hh & _ & _ & _ & Hq' & _);
      [lia|].
    rewrite Hq', Hi, Hh, Hidx, Hhist. repeat split; [lia|].
    rewrite Hidx, <- nth_error_skipn in Hq.
    rewrite (firstn_succ_nth _ _ _ Hq), map_app, <- app_assoc. reflexivity.
Qed.

Lemma asked_model (h : list entry) (qs : list json) :
  Voice.asked (h ++ map (fun q => {| role := "model"; parts := Some q |}) qs)
  = Voice.asked h ++ map Some qs.
Proof.
  unfold Voice.asked. rewrite filter_app, map_app. f_equal.
  induction qs as [|q qs IH]; simpl; [reflexivity|]. now rewrite IH.
Qed.

Lemma chat_asks_in_range (st : Chat.Interview.state) :
  Chat.Interview.currentQuestionIndex st
  < List.length (Chat.Interview.initialQuestions st) ->
  let st' := Chat.Interview.askNextInitialQuestion st in
  exists q,
    nth_error (Chat.Interview.initialQuestions st)
      (Chat.Interview.currentQuestionIndex st) = Some q
    /\ Chat.Interview.currentQuestionIndex st'
       = S (Chat.Interview.currentQuestionIndex st)
    /\ Chat.Interview.conversationHistory st'
       = Chat.Interview.conversationHistory st
         ++ [{| role := "model"; parts := Some q |}]
    /\ children (Chat.Interview.page st' Chat.Interview.interviewBox)
       = children (Chat.Interview.page st Chat.Interview.interviewBox)
         ++ [[Lit "<strong>"; Interp (str "AI"); Lit ":</strong><p>";
              Interp (Some q); Lit "</p>"]]
    /\ Chat.Interview.initialQuestions st' = Chat.Interview.initialQuestions st
    /\ Chat.Interview.allUserAnswers st' = Chat.Interview.allUserAnswers st
    /\ Chat.Interview.pending st' = Chat.Interview.pending st.
Proof.
  intros Hlt st'. subst st'.
  destruct (nth_error (Chat.Interview.initialQuestions st)
              (Chat.Interview.currentQuestionIndex st)) as [q|] eqn:Hq.
  2:{ apply nth_error_None in Hq. lia. }
  exists q. unfold Chat.Interview.askNextInitialQuestion.
  apply Nat.ltb_lt in Hlt. rewrite Hlt. simpl. rewrite Hq.
  repeat split; reflexivity.
Qed.

Lemma chat_endInterview_keeps (st : Chat.Interview.state) :
  let st' := Chat.Interview.endInterview st in
  Chat.Interview.currentQuestionIndex st' = Chat.Interview.currentQuestionIndex st
  /\ Chat.Interview.conversationHistory st' = Chat.Interview.conversationHistory st
  /\ Chat.Interview.initialQuestions st' = Chat.Interview.initialQuestions st
  /\ Chat.Interview.allUserAnswers st' = Chat.Interview.allUserAnswers st
  /\ Chat.Interview.trace st'
     = Chat.Interview.trace st
       ++ [Fetch "/api/evaluate" (Answers (Chat.Interview.allUserAnswers st))]
  /\ Chat.Interview.pending st'
     = Chat.Interview.pending st ++ [Chat.Interview.AwaitEvaluate].
Proof. repeat split. Qed.

Lemma chat_ends_iff_exhausted (st : Chat.Interview.state) :
  Chat.Interview.askNextInitialQuestion st = Chat.Interview.endInterview st
  <-> List.length (Chat.Interview.initialQuestions st)
      <= Chat.Interview.currentQuestionIndex st.
Proof.
  split.
  - intros Heq.
    destruct (Nat.le_gt_cases (List.length (Chat.Interview.initialQuestions st))
                (Chat.Interview.currentQuestionIndex st)) as [Hle|Hlt]; [exact Hle|].
    destruct (chat_asks_in_range st Hlt) as (q & _ & Hidx & _).
    rewrite Heq in Hidx. simpl in Hidx. lia.
  - intros Hle. unfold Chat.Interview.askNextInitialQuestion.
    apply Nat.ltb_ge in Hle. now rewrite Hle.
Qed.

Lemma chat_asks_in_order (k : nat) (st : Chat.Interview.state) :
  Chat.Interview.currentQuestionIndex st + k
  <= List.length (Chat.Interview.initialQuestions st) ->
  let st' := Nat.iter k Chat.Interview.askNextInitialQuestion st in
  Chat.Interview.initialQuestions st' = Chat.Interview.initialQuestions st
  /\ Chat.Interview.currentQuestionIndex st'
     = Chat.Interview.currentQuestionIndex st + k
  /\ Chat.Interview.conversationHistory st'
     = Chat.Interview.conversationHistory st
       ++ map (fun q => {| role := "model"; parts := Some q |})
            (firstn k (skipn (Chat.Interview.currentQuestionIndex st)
                         (Chat.Interview.initialQuestions st))).
Proof.
  induction k as [|k IH]; intros Hle; cbv zeta.
  - simpl. now rewrite Nat.add_0_r, app_nil_r.
  - change (Nat.iter (S k) Chat.Interview.askNextInitialQuestion st)
      with (Chat.Interview.askNextInitialQuestion
              (Nat.iter k Chat.Interview.askNextInitialQuestion st)).
    destruct IH as (Hqs' & Hidx & Hhist); [lia|].
    destruct (chat_asks_in_range (Nat.iter k Chat.Interview.askNextInitialQuestion st))
      as (q & Hq & Hi & Hh & _ & Hq' & _); [rewrite Hqs'; lia|].
    rewrite Hq', Hi, Hh, Hidx, Hhist, Hqs'. repeat split; [lia|].
    rewrite Hidx, Hqs', <- nth_error_skipn in Hq.
    rewrite (firstn_succ_nth _ _ _ Hq), map_app, <- app_assoc. reflexivity.
Qed.

(** C1: the interview is a loop over [initialQuestions].  On both pages a
    call with [currentQuestionIndex < initialQuestions.length] asks the
    question at the current index (it is shown, and spoken on the voice page),
    raises the index by exactly one and appends that question to
    [conversationHistory] with role 'model'; the call is a call of
    [endInterview] exactly when the index has reached the length.  Repeated
    calls therefore ask the elements from the current index on, in order and
    once each, and the call after the last element ends the interview. *)
Theorem question_loop :
  (forall (st : Voice.state) (qs : list json),
      Voice.initialQuestions st = Some qs ->
      (Voice.currentQuestionIndex st < List.length qs ->
       exists q,
         nth_error qs (Voice.currentQuestionIndex st) = Some q
         /\ Voice.currentQuestionIndex (Voice.askNextQuestion st)
            = S (Voice.currentQuestionIndex st)
         /\ Voice.conversationHistory (Voice.askNextQuestion st)
            = Voice.conversationHistory st ++ [{| role := "model"; parts := Some q |}]
         /\ inner (Voice.page (Voice.askNextQuestion st) Voice.questionText)
            = [Interp (Some q)]
         /\ Voice.trace (Voice.askNextQuestion st)
            = Voice.trace st ++ [Utter (Some q)])
      /\ (Voice.askNextQuestion st = Voice.endInterview st
          <-> List.length qs <= Voice.currentQuestionIndex st)
      /\ (forall k, Voice.currentQuestionIndex st + k <= List.length qs ->
          Voice.asked (Voice.conversationHistory (Nat.iter k Voice.askNextQuestion st))
          = Voice.asked (Voice.conversationHistory st)
            ++ map Some (firstn k (skipn (Voice.currentQuestionIndex st) qs)))
      /\ (forall k, Voice.currentQuestionIndex st + k = List.length qs ->
          Nat.iter (S k) Voice.askNextQuestion st
          = Voice.endInterview (Nat.iter k Voice.askNextQuestion st)))
  /\ (forall st : Chat.Interview.state,
      let qs := Chat.Interview.initialQuestions st in
      let ask := Chat.Interview.askNextInitialQuestion in
      (Chat.Interview.currentQuestionIndex st < List.length qs ->
       exists q,
         nth_error qs (Chat.Interview.currentQuestionIndex st) = Some q
         /\ Chat.Interview.currentQuestionIndex (ask st)
            = S (Chat.Interview.currentQuestionIndex st)
         /\ Chat.Interview.conversationHistory (ask st)
            = Chat.Interview.conversationHistory st
              ++ [{| role := "model"; parts := Some q |}]
         /\ children (Chat.Interview.page (ask st) Chat.Interview.interviewBox)
            = children (Chat.Interview.page st Chat.Interview.interviewBox)
              ++ [[Lit "<strong>"; Interp (str "AI"); Lit ":</strong><p>";
                   Interp (Some q); Lit "</p>"]])
      /\ (ask st = Chat.Interview.endInterview st
          <-> List.length qs <= Chat.Interview.currentQuestionIndex st)
      /\ (forall k, Chat.Interview.currentQuestionIndex st + k <= List.length qs ->
          Chat.Interview.asked (Chat.Interview.conversationHistory (Nat.iter k ask st))
          = Chat.Interview.asked (Chat.Interview.conversationHistory st)
            ++ map Some (firstn k (skipn (Chat.Interview.currentQuestionIndex st) qs)))
      /\ (forall k, Chat.Interview.currentQuestionIndex st + k = List.length qs ->
          Nat.iter (S k) ask st = Chat.Interview.endInterview (Nat.iter k ask st))).
Proof.
  split.
  - intros st qs Hqs. repeat split.
    + intros Hlt.
      destruct (voice_asks_in_range st qs Hqs Hlt)
        as (q & Hq & Hi & Hh & Hp & Ht & _).
      exists q. now repeat split.
    + apply (voice_ends_iff_exhausted st qs Hqs).
    + apply (voice_ends_iff_exhausted st qs Hqs).
    + intros k Hk.
      destruct (voice_asks_in_order k st qs Hqs Hk) as (_ & _ & ->).
      apply asked_model.
    + intros k Hk.
      destruct (voice_asks_in_order k st qs Hqs) as (Hqs' & Hidx & _); [lia|].
      change (Nat.iter (S k) Voice.askNextQuestion st)
        with (Voice.askNextQuestion (Nat.iter k Voice.askNextQuestion st)).
      apply (voice_ends_iff_exhausted _ qs Hqs'). lia.
  - intros st qs ask. subst qs ask. repeat split.
    + intros Hlt.
      destruct (chat_asks_in_range st Hlt) as (q & Hq & Hi & Hh & Hp & _).
      exists q. now repeat split.
    + apply chat_ends_iff_exhausted.
    + apply chat_ends_iff_exhausted.
    + intros k Hk.
      destruct (chat_asks_in_order k st Hk) as (_ & _ & ->).
      apply asked_model.
    + intros k Hk.
      destruct (chat_asks_in_order k st) as (Hqs' & Hidx & _); [lia|].
      change (Nat.iter (S k) Chat.Interview.askNextInitialQuestion st)
        with (Chat.Interview.askNextInitialQuestion
                (Nat.iter k Chat.Interview.askNextInitialQuestion st)).
      apply chat_ends_iff_exhausted. rewrite Hqs'. lia.
Qed.

Lemma question_loop_witness :
  Voice.currentQuestionIndex (Voice.askNextQuestion Sample.loaded) = 1
  /\ Voice.asked (Voice.conversationHistory
                    (Nat.iter 2 Voice.askNextQuestion Sample.loaded))
     = [Some (JStr "Why this role?"); Some (JStr "Why now?")]
  /\ Chat.Interview.currentQuestionIndex
       (Chat.Interview.askNextInitialQuestion Sample.typed) = 2
  /\ Nat.iter 2 Chat.Interview.askNextInitialQuestion Sample.typed
     = Chat.Interview.endInterview
         (Nat.iter 1 Chat.Interview.askNextInitialQuestion Sample.typed).
Proof.
  destruct question_loop as [Hvoice Hchat].
  destruct (Hvoice Sample.loaded Sample.two_questions eq_refl)
    as (Hask & _ & Horder & _).
  destruct (Hchat Sample.typed) as (Hcask & _ & _ & Hcend).
  split; [|split; [|split]].
  - destruct Hask as (q & _ & Hidx & _); [vm_compute; lia|exact Hidx].
  - apply (Horder 2). vm_compute. lia.
  - destruct Hcask as (q & _ & Hidx & _); [vm_compute; lia|exact Hidx].
  - apply (Hcend 1). reflexivity.
Defined.

(** ** Requesting the questions *)

Lemma voice_submit_sends (st : Voice.state) :
  is_empty (trim (input (Voice.page st Voice.jobRoleInput))) = false ->
  Voice.trace (Voice.handleJobRoleSubmit st)
  = Voice.trace st
    ++ [Fetch "/api/analyze"
          (FormData [("resume", Voice.form_file (files (Voice.page st Voice.resumeFile)));
                     ("job_role",
                      FormString (trim (input (Voice.page st Voice.jobRoleInput))))])]
  /\ Voice.pending (Voice.handleJobRoleSubmit st)
     = Voice.pending st ++ [Voice.AwaitAnalyze]
  /\ Voice.initialQuestions (Voice.handleJobRoleSubmit st) = Voice.initialQuestions st.
Proof.
  intros Hrole. unfold Voice.handleJobRoleSubmit. rewrite Hrole.
  repeat split.
Qed.

(** What a call of [initAvatar] leaves alone, however it ends. *)
Lemma voice_initAvatar_keeps (s : Voice.state) :
  exists s',
    (Voice.initAvatar s = Voice.Returned s'
     \/ exists message, Voice.initAvatar s = Voice.Thrown message s')
    /\ Voice.page s' = Voice.page s
    /\ Voice.initialQuestions s' = Voice.initialQuestions s
    /\ Voice.conversationHistory s' = Voice.conversationHistory s
    /\ Voice.allUserAnswers s' = Voice.allUserAnswers s
    /\ Voice.currentQuestionIndex s' = Voice.currentQuestionIndex s.
Proof.
  unfold Voice.initAvatar, Voice.animateAvatar. simpl.
  destruct (Voice.webgl s) as [message|]; [eexists; split; [right; eexists; reflexivity|]|].
  { now repeat split. }
  destruct (Voice.analyser s); simpl.
  - destruct (Voice.reduce_sum _); eexists; (split; [first [left; reflexivity|right; eexists; reflexivity]|]);
      now repeat split.
  - eexists. split; [left; reflexivity|]. now repeat split.
Qed.

Lemma voice_analysis_loaded (st : Voice.state) (data : analysis) :
  let st' := Voice.handleJobRoleSubmit_settled (Resolved true (Body data)) st in
  Voice.initialQuestions st' = questions data
  /\ hidden (Voice.page st') Voice.uploadSection = true
  /\ hidden (Voice.page st') Voice.interviewContainer = false
  /\ Voice.conversationHistory st' = Voice.conversationHistory st
  /\ Voice.allUserAnswers st' = Voice.allUserAnswers st
  /\ Voice.currentQuestionIndex st' = Voice.currentQuestionIndex st.
Proof.
  intros st'. subst st'. unfold Voice.handleJobRoleSubmit_settled. simpl negb. cbv iota.
  match goal with |- context [Voice.initAvatar ?s] =>
    destruct (voice_initAvatar_keeps s) as (s' & Hs' & Hp & Hq & Hh & Ha & Hi)
  end.
  assert (Hu : hidden (Voice.page s') Voice.uploadSection = true).
  { rewrite Hp. unfold hidden. simpl. unfold update. simpl. apply has_class_add. }
  assert (Hc : hidden (Voice.page s') Voice.interviewContainer = false).
  { rewrite Hp. unfold hidden. simpl. unfold update. simpl. apply has_class_remove. }
  destruct Hs' as [->|[message ->]].
  - unfold Voice.setupSpeechSynthesis, Voice.setupMedia. simpl.
    rewrite Hq, Hh, Ha, Hi. now repeat split.
  - unfold Voice.handleJobRoleSubmit_catch. simpl.
    rewrite Hq, Hh, Ha, Hi. unfold hidden in *. simpl.
    rewrite !update_other by reflexivity. now repeat split.
Qed.

(** C3: with a job role that does not trim to the empty string and a
    resume file selected, [handleJobRoleSubmit] sends the file and the
    trimmed job role to /api/analyze; when the response is ok, whatever has
    happened meanwhile, [initialQuestions] becomes the [questions] of the
    body, the upload section is hidden and the interview container shown. *)
Theorem questions_are_requested_and_loaded (st : Voice.state) (f : file) :
  is_empty (trim (input (Voice.page st Voice.jobRoleInput))) = false ->
  files (Voice.page st Voice.resumeFile) = Some f ->
  (Voice.trace (Voice.handleJobRoleSubmit st)
   = Voice.trace st
     ++ [Fetch "/api/analyze"
           (FormData [("resume", FormFile f);
                      ("job_role",
                       FormString (trim (input (Voice.page st Voice.jobRoleInput))))])]
   /\ Voice.pending (Voice.handleJobRoleSubmit st)
      = Voice.pending st ++ [Voice.AwaitAnalyze]
   /\ (disabled (Voice.page st Voice.submitJobRoleBtn) = false ->
       Voice.step st Voice.ClickSubmitJobRole = Some (Voice.handleJobRoleSubmit st)))
  /\ forall (st2 : Voice.state) (data : analysis),
      In Voice.AwaitAnalyze (Voice.pending st2) ->
      exists st3,
        Voice.step st2 (Voice.AnalyzeSettled (Resolved true (Body data))) = Some st3
        /\ Voice.initialQuestions st3 = questions data
        /\ hidden (Voice.page st3) Voice.uploadSection = true
        /\ hidden (Voice.page st3) Voice.interviewContainer = false.
Proof.
  intros Hrole Hfile. split.
  - destruct (voice_submit_sends st Hrole) as (Ht & Hp & _).
    rewrite Hfile in Ht. repeat split; [exact Ht|exact Hp|].
    intros Hbtn. simpl. unfold Voice.click. now rewrite Hbtn.
  - intros st2 data Hin.
    destruct (take_in Voice.task_eqb Voice.AwaitAnalyze (Voice.pending st2)
                voice_task_eqb_refl Hin) as [rest Hrest].
    eexists. split.
    + simpl. unfold Voice.resume. rewrite Hrest. reflexivity.
    + destruct (voice_analysis_loaded (Voice.with_pending rest st2) data)
        as (Hq & Hu & Hi & _).
      now repeat split.
Qed.

Lemma questions_are_requested_and_loaded_witness :
  Voice.trace (Voice.handleJobRoleSubmit (Sample.filled " Engineer "))
  = [Fetch "/api/analyze"
       (FormData [("resume", FormFile Sample.resume);
                  ("job_role", FormString "Engineer")])].
Proof.
  exact (proj1 (proj1 (questions_are_requested_and_loaded
                         (Sample.filled " Engineer ") Sample.resume eq_refl eq_refl))).
Defined.

(** C5, as the specification has it, fails when the request is rejected
    by the network: the form shows the message of the rejection, which is
    neither an error message of a response nor the fixed text. *)
Lemma network_error_shows_its_own_message :
  failed (Rejected [Lit "Failed to fetch"] : fetched analysis) = true
  /\ inner (Voice.page
              (Voice.handleJobRoleSubmit_settled (Rejected [Lit "Failed to fetch"])
                 (Voice.handleJobRoleSubmit (Sample.filled "Engineer")))
              Voice.uploadError)
     <> analyze_failure_claimed (Rejected [Lit "Failed to fetch"]).
Proof. split; [reflexivity|]. simpl. discriminate. Qed.

(** C5, amended: when the /api/analyze request fails, [initialQuestions]
    is unchanged, the upload loader is hidden, the upload-error element is
    shown with the message of the error that was thrown, the select-resume
    button is enabled again, and the interview is not started (the sections,
    the effects and the pending tasks are as before).  For a response that is
    not ok and has a JSON body the message is the body's [error] field, or
    'Failed to analyze resume.' when that field is absent or falsy; for a
    network error or a body that does not parse it is the message of that
    rejection. *)
Theorem analyze_failure_is_reported (st : Voice.state) (r : fetched analysis) :
  failed r = true ->
  let st' := Voice.handleJobRoleSubmit_settled r st in
  Voice.initialQuestions st' = Voice.initialQuestions st
  /\ hidden (Voice.page st') Voice.uploadLoader = true
  /\ inner (Voice.page st' Voice.uploadError) = analyze_failure r
  /\ hidden (Voice.page st') Voice.uploadError = false
  /\ disabled (Voice.page st' Voice.selectResumeBtn) = false
  /\ hidden (Voice.page st') Voice.uploadSection
     = hidden (Voice.page st) Voice.uploadSection
  /\ hidden (Voice.page st') Voice.interviewContainer
     = hidden (Voice.page st) Voice.interviewContainer
  /\ Voice.trace st' = Voice.trace st
  /\ Voice.pending st' = Voice.pending st
  /\ Voice.currentQuestionIndex st' = Voice.currentQuestionIndex st
  /\ Voice.conversationHistory st' = Voice.conversationHistory st
  /\ (forall data, r = Resolved false (Body data) ->
      (truthy (analysis_error data) = false ->
       analyze_failure r = [Lit "Failed to analyze resume."])
      /\ (forall s, analysis_error data = str s -> is_empty s = false ->
          analyze_failure r = [Lit s]))
  /\ (forall message, r = Rejected message -> analyze_failure r = message).
Proof.
  intros Hfail st'.
  assert (E : st' = Voice.handleJobRoleSubmit_catch (analyze_failure r) st).
  { subst st'. destruct r as [m|[|] [m|data]]; try reflexivity. discriminate. }
  rewrite E. unfold Voice.handleJobRoleSubmit_catch.
  repeat match goal with |- _ /\ _ => split end; try reflexivity.
  - unfold hidden. simpl. unfold update. simpl. apply has_class_add.
  - unfold hidden. simpl. unfold update. simpl. apply has_class_remove.
  - intros data ->. simpl. unfold js_or. split.
    + now intros ->.
    + intros s -> Hne. simpl. now rewrite Hne.
  - now intros message ->.
Qed.

Lemma analyze_failure_is_reported_witness :
  inner (Voice.page
           (Voice.handleJobRoleSubmit_settled
              (Resolved false
                 (Body {| analysis_error := undefined; questions := None |}))
              (Voice.handleJobRoleSubmit (Sample.filled "Engineer")))
           Voice.uploadError)
  = [Lit "Failed to analyze resume."].
Proof.
  exact (proj1 (proj2 (proj2
           (analyze_failure_is_reported
              (Voice.handleJobRoleSubmit (Sample.filled "Engineer"))
              (Resolved false
                 (Body {| analysis_error := undefined; questions := None |}))
              eq_refl)))).
Defined.

(** ** The report *)






(** ** Follow-up questions *)


Lemma splice_length {A : Type} (i : nat) (x : A) (l : list A) :
  List.length (splice i x l) = S (List.length l).
Proof.
  unfold splice. rewrite length_app. simpl.
  rewrite Nat.add_succ_r, <- length_app, firstn_skipn. reflexivity.
Qed.




Example splice_in_the_middle : splice 1 7 [1; 2; 3] = [1; 7; 2; 3].
Proof. reflexivity. Qed.

Example splice_beyond_the_end : splice 5 7 [1; 2] = [1; 2; 7].
Proof. reflexivity. Qed.



Lemma voice_timer_fires (st : Voice.state) :
  exists rest,
    Voice.step (Voice.await Voice.TimerAskNext st) Voice.TimerFired
    = Some (Voice.askNextQuestion
              (Voice.with_pending rest (Voice.await Voice.TimerAskNext st))).
Proof.
  destruct (take_last Voice.task_eqb Voice.TimerAskNext (Voice.pending st) eq_refl)
    as [rest Hrest].
  exists rest. simpl. unfold Voice.resume. simpl. now rewrite Hrest.
Qed.

(** ** Empty submissions *)

(** C10: an answer that trims to the empty string makes
    [handleAnswerSubmission] return at once, leaving the whole state (box,
    answers, history, effects, pending requests) as it was; and the [onend]
    handler with an empty transcript records no answer, writes nothing to the
    log, issues no request and only schedules [askNextQuestion]. *)
Theorem empty_submissions_are_skipped :
  (forall st : Chat.Interview.state,
      is_empty (trim (input (Chat.Interview.page st Chat.Interview.userAnswerInput)))
      = true ->
      Chat.Interview.handleAnswerSubmission st = st
      /\ (disabled (Chat.Interview.page st Chat.Interview.submitBtn) = false ->
          Chat.Interview.step st Chat.Interview.ClickSubmit = Some st))
  /\ (forall st : Voice.state,
      Voice.currentTranscript st = ""%string ->
      let st' := Voice.onend st in
      Voice.allUserAnswers st' = Voice.allUserAnswers st
      /\ Voice.conversationHistory st' = Voice.conversationHistory st
      /\ children (Voice.page st' Voice.responsesLog)
         = children (Voice.page st Voice.responsesLog)
      /\ Voice.trace st' = Voice.trace st
      /\ Voice.initialQuestions st' = Voice.initialQuestions st
      /\ Voice.currentQuestionIndex st' = Voice.currentQuestionIndex st
      /\ Voice.pending st' = Voice.pending st ++ [Voice.TimerAskNext]
      /\ exists rest,
          Voice.step st' Voice.TimerFired
          = Some (Voice.askNextQuestion (Voice.with_pending rest st'))).
Proof.
  split.
  - intros st Hempty.
    assert (E : Chat.Interview.handleAnswerSubmission st = st).
    { unfold Chat.Interview.handleAnswerSubmission. now rewrite Hempty. }
    split; [exact E|]. intros Hbtn. simpl. now rewrite Hbtn, E.
  - intros st Hempty st'.
    assert (E : st' = Voice.await Voice.TimerAskNext
                        (Voice.on Voice.recordBtn (remove_class "is-recording")
                           (Voice.on Voice.recordBtnSpan (set_inner [Lit "Record Answer"])
                              (Voice.updateStatus "status-processing" "Processing..."
                                 (Voice.with_isRecording false st))))).
    { subst st'. unfold Voice.onend. simpl. now rewrite Hempty. }
    rewrite E. repeat match goal with |- _ /\ _ => split end; try reflexivity.
    apply voice_timer_fires.
Qed.

Lemma empty_submissions_are_skipped_witness :
  Chat.Interview.handleAnswerSubmission
    (Chat.Interview.on Chat.Interview.userAnswerInput (set_input "   ") Sample.typed)
  = Chat.Interview.on Chat.Interview.userAnswerInput (set_input "   ") Sample.typed
  /\ Voice.allUserAnswers (Voice.onend Sample.loaded) = []
  /\ Voice.trace (Voice.onend Sample.loaded) = [].
Proof.
  destruct empty_submissions_are_skipped as [Hchat Hvoice].
  destruct (Hvoice Sample.loaded eq_refl) as (Hanswers & _ & _ & Htrace & _).
  split; [|split].
  - apply Hchat. vm_compute. reflexivity.
  - exact Hanswers.
  - exact Htrace.
Defined.

(** ** Answers and history *)

Lemma answered_model (h : list entry) (q : value) :
  Voice.answered (h ++ [{| role := "model"; parts := q |}]) = Voice.answered h.
Proof. unfold Voice.answered. rewrite filter_app. simpl. now rewrite app_nil_r. Qed.

Lemma answered_user (h : list entry) (t : value) :
  Voice.answered (h ++ [{| role := "user"; parts := t |}]) = Voice.answered h ++ [t].
Proof. unfold Voice.answered. rewrite filter_app, map_app. reflexivity. Qed.

Ltac break_match :=
  repeat match goal with
    | |- context [match ?x with _ => _ end] =>
        lazymatch x with
        | context [match _ with _ => _ end] => fail
        | _ => destruct x eqn:?; simpl
        end
    end.

Lemma chat_answered_model (h : list entry) (q : value) :
  Chat.Interview.answered (h ++ [{| role := "model"; parts := q |}])
  = Chat.Interview.answered h.
Proof. apply answered_model. Qed.

Lemma chat_answered_user (h : list entry) (t : value) :
  Chat.Interview.answered (h ++ [{| role := "user"; parts := t |}])
  = Chat.Interview.answered h ++ [t].
Proof. apply answered_user. Qed.

Ltac settle_in_step :=
  solve [ left; split;
          [reflexivity
          | rewrite ?answered_model, ?chat_answered_model; reflexivity]
        | right; eexists; split;
          [reflexivity
          | rewrite ?answered_user, ?chat_answered_user,
              ?answered_model, ?chat_answered_model; reflexivity] ].

Lemma voice_step_in_step (st st' : Voice.state) (e : Voice.event) :
  Voice.step st e = Some st' ->
  in_step (Voice.allUserAnswers st) (Voice.allUserAnswers st')
    (Voice.answered (Voice.conversationHistory st))
    (Voice.answered (Voice.conversationHistory st')).
Proof.
  destruct e; simpl; unfold Voice.click, Voice.resume, Voice.during, option_map; intros H.
  all: repeat match type of H with
         | context [match ?x with _ => _ end] => destruct x eqn:?; simpl in H
         end; try discriminate; injection H as <-.
  all: unfold in_step.
  all: unfold Voice.handleFileSelection, Voice.handleJobRoleSubmit,
      Voice.handleJobRoleSubmit_settled, Voice.handleJobRoleSubmit_catch,
      Voice.setupMedia_settled, Voice.setupMedia_loaded,
      Voice.setupMedia_catch, Voice.uncaught, Voice.initAudioVisualizer,
      Voice.setupSpeechSynthesis, Voice.setupMedia, Voice.initAvatar,
      Voice.animateAvatar, Voice.askNextQuestion, Voice.askNextQuestion_spoken,
      Voice.endInterview, Voice.endInterview_spoken, Voice.endInterview_settled,
      Voice.endInterview_catch, Voice.toggleRecording, Voice.onstart,
      Voice.onresult, Voice.onend, Voice.onend_settled, Voice.onend_catch;
    simpl; break_match; settle_in_step.
Qed.

Lemma chat_step_in_step (st st' : Chat.Interview.state) (e : Chat.Interview.event) :
  Chat.Interview.step st e = Some st' ->
  in_step (Chat.Interview.allUserAnswers st) (Chat.Interview.allUserAnswers st')
    (Chat.Interview.answered (Chat.Interview.conversationHistory st))
    (Chat.Interview.answered (Chat.Interview.conversationHistory st')).
Proof.
  destruct e; simpl; unfold Chat.Interview.resume, option_map; intros H.
  all: repeat match type of H with
         | context [match ?x with _ => _ end] => destruct x eqn:?; simpl in H
         end; try discriminate; injection H as <-.
  all: unfold in_step.
  all: unfold Chat.Interview.handleAnswerSubmission,
      Chat.Interview.handleAnswerSubmission_settled,
      Chat.Interview.handleAnswerSubmission_catch,
      Chat.Interview.endInterview_settled, Chat.Interview.endInterview_catch,
      Chat.Interview.displayReport, Chat.Interview.askNextInitialQuestion,
      Chat.Interview.endInterview, Chat.Interview.enableUserInput,
      Chat.Interview.disableUserInput;
    simpl; break_match; settle_in_step.
Qed.

Lemma in_step_linked (a a' : list string) (u u' : list value) :
  in_step a a' u u' -> map str a = u -> map str a' = u'.
Proof.
  intros [[-> ->]|(t & -> & ->)] H; [exact H|].
  rewrite map_app, H. reflexivity.
Qed.

Lemma voice_run_invariant (P : Voice.state -> Prop) :
  (forall st e st', P st -> Voice.step st e = Some st' -> P st') ->
  forall events st st', P st -> Voice.run st events = Some st' -> P st'.
Proof.
  intros Hstep. induction events as [|e events IH]; simpl; intros st st' HP H.
  - now injection H as <-.
  - destruct (Voice.step st e) as [st1|] eqn:E; [|discriminate].
    apply (IH st1 st'); [|exact H]. now apply (Hstep st e).
Qed.

Lemma chat_run_invariant (P : Chat.session -> Prop) :
  (forall s e s', P s -> Chat.step s e = Some s' -> P s') ->
  forall events s s', P s -> Chat.run s events = Some s' -> P s'.
Proof.
  intros Hstep. induction events as [|e events IH]; simpl; intros s s' HP H.
  - now injection H as <-.
  - destruct (Chat.step s e) as [s1|] eqn:E; [|discriminate].
    apply (IH s1 s'); [|exact H]. now apply (Hstep s e).
Qed.

Lemma chat_initial_linked (doc : document) (stored : option (list json)) :
  chat_linked (Chat.Interview.initial doc stored).
Proof.
  unfold chat_linked, Chat.Interview.initial, Chat.Interview.startInterview,
    Chat.Interview.askNextInitialQuestion, Chat.Interview.endInterview.
  destruct stored; simpl; break_match; reflexivity.
Qed.

Lemma load_linked (p : Chat.html) (stored : option (list json))
  (st : Chat.Interview.state) :
  Chat.load p stored = Chat.OnInterview st -> chat_linked st.
Proof.
  unfold Chat.load.
  destruct (existsb _ (Chat.ids p)); [discriminate|].
  destruct (existsb _ (Chat.bodyClassList p)); [|discriminate].
  intros H. injection H as <-. apply chat_initial_linked.
Qed.

Lemma chat_session_linked (s s' : Chat.session) (e : Chat.event) :
  (forall st, Chat.at_ s = Chat.OnInterview st -> chat_linked st) ->
  Chat.step s e = Some s' ->
  forall st, Chat.at_ s' = Chat.OnInterview st -> chat_linked st.
Proof.
  intros HP Hstep st' Hat. unfold Chat.step in Hstep.
  destruct e as [address|e|e].
  - assert (E : s' = Chat.visit address (Chat.sessionStorage s) s)
      by (destruct (Chat.at_ s); now injection Hstep as <-).
    subst s'. apply (load_linked _ _ _ Hat).
  - destruct (Chat.at_ s) as [l| |]; try discriminate.
    destruct (Chat.Landing.step l e) as [l'|]; [|discriminate].
    destruct (Chat.Landing.href l') as [address|]; injection Hstep as <-.
    + apply (load_linked _ _ _ Hat).
    + discriminate.
  - destruct (Chat.at_ s) as [|st|] eqn:Hs; try discriminate.
    destruct (Chat.Interview.step st e) as [st1|] eqn:E; [|discriminate].
    injection Hstep as <-. simpl in Hat. injection Hat as <-.
    apply (in_step_linked _ _ _ _ (chat_step_in_step st st1 e E)).
    now apply HP.
Qed.

(** C9: on both pages every step either leaves [allUserAnswers] alone
    and adds no 'user' entry to [conversationHistory], or appends one text to
    both.  Hence after any sequence of events the answers are exactly the
    texts of the 'user' entries, in order, and the two counts agree. *)
Theorem answers_follow_history :
  (forall (st st' : Voice.state) (e : Voice.event),
      Voice.step st e = Some st' ->
      in_step (Voice.allUserAnswers st) (Voice.allUserAnswers st')
        (Voice.answered (Voice.conversationHistory st))
        (Voice.answered (Voice.conversationHistory st')))
  /\ (forall (supported : bool) (doc : document) (events : list Voice.event)
        (st : Voice.state),
      Voice.run (Voice.initial supported doc) events = Some st ->
      map str (Voice.allUserAnswers st) = Voice.answered (Voice.conversationHistory st)
      /\ List.length (Voice.allUserAnswers st)
         = List.length (Voice.answered (Voice.conversationHistory st)))
  /\ (forall (st st' : Chat.Interview.state) (e : Chat.Interview.event),
      Chat.Interview.step st e = Some st' ->
      in_step (Chat.Interview.allUserAnswers st) (Chat.Interview.allUserAnswers st')
        (Chat.Interview.answered (Chat.Interview.conversationHistory st))
        (Chat.Interview.answered (Chat.Interview.conversationHistory st')))
  /\ (forall (pages : string -> Chat.html) (address : string)
        (events : list Chat.event) (s : Chat.session) (st : Chat.Interview.state),
      Chat.run (Chat.start pages address) events = Some s ->
      Chat.at_ s = Chat.OnInterview st ->
      map str (Chat.Interview.allUserAnswers st)
      = Chat.Interview.answered (Chat.Interview.conversationHistory st)
      /\ List.length (Chat.Interview.allUserAnswers st)
         = List.length (Chat.Interview.answered (Chat.Interview.conversationHistory st))).
Proof.
  repeat match goal with |- _ /\ _ => split end.
  - apply voice_step_in_step.
  - intros supported doc events st Hrun.
    assert (H : voice_linked st).
    { apply (voice_run_invariant voice_linked) with (3 := Hrun); [|reflexivity].
      intros s e s' Hs Hstep.
      apply (in_step_linked _ _ _ _ (voice_step_in_step s s' e Hstep) Hs). }
    split; [exact H|]. rewrite <- H. now rewrite length_map.
  - apply chat_step_in_step.
  - intros pages address events s st Hrun Hat.
    assert (H : chat_linked st).
    { apply (chat_run_invariant
               (fun s => forall st, Chat.at_ s = Chat.OnInterview st -> chat_linked st))
        with (3 := Hrun) (4 := Hat).
      - intros s0 e s' HP Hstep. now apply (chat_session_linked s0 s' e).
      - intros st0 H0. apply (load_linked _ _ _ H0). }
    split; [exact H|]. rewrite <- H. now rewrite length_map.
Qed.

Lemma answers_follow_history_witness :
  (exists st,
      Voice.run (Voice.initial true Sample.empty_page)
        [Voice.ClickRecord; Voice.RecognitionResult ["I led "; "a team."]%string;
         Voice.RecognitionEnd] = Some st
      /\ Voice.allUserAnswers st = ["I led a team."]%string
      /\ map str (Voice.allUserAnswers st)
         = Voice.answered (Voice.conversationHistory st))
  /\ (exists s st,
        Chat.run (Chat.start Sample.pages "/interview.html")
          [Chat.Interview_ (Chat.Interview.TypeAnswer " Because. ");
           Chat.Interview_ Chat.Interview.ClickSubmit] = Some s
        /\ Chat.at_ s = Chat.OnInterview st
        /\ Chat.Interview.allUserAnswers st = ["Because."]%string
        /\ map str (Chat.Interview.allUserAnswers st)
           = Chat.Interview.answered (Chat.Interview.conversationHistory st)).
Proof.
  destruct answers_follow_history as (_ & Hvoice & _ & Hchat).
  split.
  - assert (H : exists st,
               Voice.run (Voice.initial true Sample.empty_page)
                 [Voice.ClickRecord;
                  Voice.RecognitionResult ["I led "; "a team."]%string;
                  Voice.RecognitionEnd] = Some st
               /\ Voice.allUserAnswers st = ["I led a team."]%string).
    { vm_compute. eexists. split; reflexivity. }
    destruct H as (st & Hrun & Hanswers). exists st.
    split; [exact Hrun|]. split; [exact Hanswers|].
    exact (proj1 (Hvoice true Sample.empty_page _ st Hrun)).
  - assert (H : exists s st,
               Chat.run (Chat.start Sample.pages "/interview.html")
                 [Chat.Interview_ (Chat.Interview.TypeAnswer " Because. ");
                  Chat.Interview_ Chat.Interview.ClickSubmit] = Some s
               /\ Chat.at_ s = Chat.OnInterview st
               /\ Chat.Interview.allUserAnswers st = ["Because."]%string).
    { vm_compute. do 2 eexists. repeat split; reflexivity. }
    destruct H as (s & st & Hrun & Hat & Hanswers). exists s, st.
    split; [exact Hrun|]. split; [exact Hat|]. split; [exact Hanswers|].
    exact (proj1 (Hchat Sample.pages "/interview.html" _ s st Hrun Hat)).
Defined.

(** ** Where the questions come from *)

(** What one event of the voice page does to the questions and the history. *)
Lemma voice_step_effect (st st' : Voice.state) (e : Voice.event) :
  Voice.step st e = Some st' ->
  match e with
  | Voice.AnalyzeSettled r =>
      Voice.conversationHistory st' = Voice.conversationHistory st
      /\ (Voice.initialQuestions st' = Voice.initialQuestions st
          \/ exists data, r = Resolved true (Body data)
                          /\ Voice.initialQuestions st' = questions data)
  | Voice.FollowUpSettled r =>
      Voice.conversationHistory st' = Voice.conversationHistory st
      /\ (Voice.initialQuestions st' = Voice.initialQuestions st
          \/ exists data q qs,
              r = Resolved true (Body data) /\ question data = Some q
              /\ Voice.initialQuestions st = Some qs
              /\ Voice.initialQuestions st'
                 = Some (splice (Voice.currentQuestionIndex st) q qs))
  | Voice.ClickStart | Voice.TimerFired =>
      Voice.initialQuestions st' = Voice.initialQuestions st
      /\ (Voice.conversationHistory st' = Voice.conversationHistory st
          \/ exists qs q,
              Voice.initialQuestions st = Some qs /\ In q qs
              /\ Voice.conversationHistory st'
                 = Voice.conversationHistory st
                   ++ [{| role := "model"; parts := Some q |}])
  | Voice.RecognitionEnd =>
      Voice.initialQuestions st' = Voice.initialQuestions st
      /\ (Voice.conversationHistory st' = Voice.conversationHistory st
          \/ exists t,
              Voice.conversationHistory st'
              = Voice.conversationHistory st ++ [{| role := "user"; parts := t |}])
  | _ =>
      Voice.initialQuestions st' = Voice.initialQuestions st
      /\ Voice.conversationHistory st' = Voice.conversationHistory st
  end.
Proof.
  destruct e; simpl; unfold Voice.click, Voice.resume, Voice.during, option_map;
    intros H.
  all: repeat match type of H with
         | context [match ?x with _ => _ end] => destruct x eqn:?; simpl in H
         end; try discriminate; injection H as <-.
  all: unfold Voice.handleFileSelection, Voice.handleJobRoleSubmit,
      Voice.handleJobRoleSubmit_settled, Voice.handleJobRoleSubmit_catch,
      Voice.setupMedia_settled, Voice.setupMedia_loaded,
      Voice.setupMedia_catch, Voice.uncaught, Voice.initAudioVisualizer,
      Voice.setupSpeechSynthesis, Voice.setupMedia, Voice.initAvatar,
      Voice.animateAvatar, Voice.askNextQuestion, Voice.askNextQuestion_spoken,
      Voice.endInterview, Voice.endInterview_spoken, Voice.endInterview_settled,
      Voice.endInterview_catch, Voice.toggleRecording, Voice.onstart,
      Voice.onresult, Voice.onend, Voice.onend_settled, Voice.onend_catch;
    simpl; break_match.
  all: try match goal with
         | H : negb ?b = false |- _ => destruct b; [clear H|discriminate H]
         end.
  all: try match goal with
         | Hlt : (List.length ?l <=? ?n) = false |- context [nth_error ?l ?n] =>
             let E := fresh "E" in
             destruct (nth_error l n) eqn:E;
             [ pose proof (nth_error_In _ _ E)
             | apply nth_error_None in E; apply Nat.leb_gt in Hlt; lia ]
         end.
  all: split; [congruence|].
  all: first [ congruence
             | left; congruence
             | right; eexists; reflexivity
             | right; eexists; split; reflexivity
             | right; do 3 eexists; repeat split; eassumption
             | right; do 2 eexists; repeat split; eassumption ].
Qed.

Lemma asked_user (h : list entry) (t : value) :
  Voice.asked (h ++ [{| role := "user"; parts := t |}]) = Voice.asked h.
Proof. unfold Voice.asked. rewrite filter_app. simpl. now rewrite app_nil_r. Qed.

Lemma asked_one (h : list entry) (q : value) :
  Voice.asked (h ++ [{| role := "model"; parts := q |}]) = Voice.asked h ++ [q].
Proof. unfold Voice.asked. rewrite filter_app, map_app. reflexivity. Qed.

Lemma splice_in {A : Type} (i : nat) (x y : A) (l : list A) :
  In y (splice i x l) -> y = x \/ In y l.
Proof.
  unfold splice. intros H. apply in_elt_inv in H.
  rewrite firstn_skipn in H. destruct H as [->|H]; auto.
Qed.

(** Every question in the list after a step was in the list before or came
    with the event; every question asked was asked before or was in the list. *)
Lemma voice_step_sources (st st' : Voice.state) (e : Voice.event) :
  Voice.step st e = Some st' ->
  (forall qs' q, Voice.initialQuestions st' = Some qs' -> In q qs' ->
     (exists qs, Voice.initialQuestions st = Some qs /\ In q qs)
     \/ In (Some q) (voice_supplied_by e))
  /\ (forall v, In v (Voice.asked (Voice.conversationHistory st')) ->
      In v (Voice.asked (Voice.conversationHistory st))
      \/ exists qs q, Voice.initialQuestions st = Some qs /\ In q qs /\ v = Some q).
Proof.
  intros Hstep. pose proof (voice_step_effect st st' e Hstep) as Heff.
  split.
  - intros qs' q Hqs' Hin.
    destruct e; simpl in Heff;
      try (left; exists qs'; split; [now rewrite <- (proj1 Heff)|exact Hin]).
    + destruct Heff as [_ [Hiq|(data & -> & Hiq)]].
      * left. exists qs'. now rewrite <- Hiq.
      * right. simpl. rewrite <- Hiq, Hqs'. now apply in_map.
    + destruct Heff as [_ [Hiq|(data & q0 & qs & -> & Hq0 & Hqs & Hiq)]].
      * left. exists qs'. now rewrite <- Hiq.
      * rewrite Hqs' in Hiq. injection Hiq as ->.
        destruct (splice_in _ _ _ _ Hin) as [->|Hold].
        -- right. simpl. left. now rewrite Hq0.
        -- left. now exists qs.
  - intros v Hin.
    destruct e; simpl in Heff;
      try (left; now rewrite <- (proj2 Heff));
      try (left; now rewrite <- (proj1 Heff)).
    + destruct Heff as [_ [Hh|(qs & q & Hqs & Hq & Hh)]].
      * left. now rewrite <- Hh.
      * rewrite Hh, asked_one in Hin. apply in_app_or in Hin as [Hin|[<-|[]]].
        -- now left.
        -- right. now exists qs, q.
    + destruct Heff as [_ [Hh|(t & Hh)]].
      * left. now rewrite <- Hh.
      * left. now rewrite Hh, asked_user in Hin.
    + destruct Heff as [_ [Hh|(qs & q & Hqs & Hq & Hh)]].
      * left. now rewrite <- Hh.
      * rewrite Hh, asked_one in Hin. apply in_app_or in Hin as [Hin|[<-|[]]].
        -- now left.
        -- right. now exists qs, q.
Qed.

Lemma voice_run_sources (events : list Voice.event) :
  forall (st st' : Voice.state) (S : list value),
    (forall qs q, Voice.initialQuestions st = Some qs -> In q qs -> In (Some q) S) ->
    (forall v, In v (Voice.asked (Voice.conversationHistory st)) -> In v S) ->
    Voice.run st events = Some st' ->
    (forall qs q, Voice.initialQuestions st' = Some qs -> In q qs ->
       In (Some q) (S ++ voice_supplied events))
    /\ (forall v, In v (Voice.asked (Voice.conversationHistory st')) ->
        In v (S ++ voice_supplied events)).
Proof.
  induction events as [|e events IH]; simpl; intros st st' S Hqs Hasked Hrun.
  - injection Hrun as <-. rewrite app_nil_r. now split.
  - destruct (Voice.step st e) as [st1|] eqn:Hstep; [|discriminate].
    destruct (voice_step_sources st st1 e Hstep) as [HA HB].
    unfold voice_supplied in IH. rewrite app_assoc.
    apply (IH st1 st' (S ++ voice_supplied_by e)); [| |exact Hrun].
    + intros qs' q Hqs' Hin. apply in_or_app.
      destruct (HA qs' q Hqs' Hin) as [(qs & Hq & Hi)|Hnew]; [left|now right].
      now apply (Hqs qs).
    + intros v Hin. apply in_or_app. left.
      destruct (HB v Hin) as [Hold|(qs & q & Hq & Hi & ->)]; [now apply Hasked|].
      now apply (Hqs qs).
Qed.

(** What one event of the typed interview does to the questions and the
    history. *)
Lemma chat_step_effect (st st' : Chat.Interview.state) (e : Chat.Interview.event) :
  Chat.Interview.step st e = Some st' ->
  Chat.Interview.initialQuestions st' = Chat.Interview.initialQuestions st
  /\ (Chat.Interview.conversationHistory st' = Chat.Interview.conversationHistory st
      \/ (exists t,
             Chat.Interview.conversationHistory st'
             = Chat.Interview.conversationHistory st
               ++ [{| role := "user"; parts := t |}])
      \/ (exists q,
             In q (Chat.Interview.initialQuestions st)
             /\ Chat.Interview.conversationHistory st'
                = Chat.Interview.conversationHistory st
                  ++ [{| role := "model"; parts := Some q |}])
      \/ (exists data,
             e = Chat.Interview.FollowUpSettled (Resolved true (Body data))
             /\ Chat.Interview.conversationHistory st'
                = Chat.Interview.conversationHistory st
                  ++ [{| role := "model"; parts := question data |}])).
Proof.
  destruct e; simpl; unfold Chat.Interview.resume, option_map; intros H.
  all: repeat match type of H with
         | context [match ?x with _ => _ end] => destruct x eqn:?; simpl in H
         end; try discriminate; injection H as <-.
  all: unfold Chat.Interview.handleAnswerSubmission,
      Chat.Interview.handleAnswerSubmission_settled,
      Chat.Interview.handleAnswerSubmission_catch,
      Chat.Interview.endInterview_settled, Chat.Interview.endInterview_catch,
      Chat.Interview.displayReport, Chat.Interview.askNextInitialQuestion,
      Chat.Interview.endInterview, Chat.Interview.enableUserInput,
      Chat.Interview.disableUserInput;
    simpl; break_match.
  all: try match goal with
         | H : negb ?b = false |- _ => destruct b; [clear H|discriminate H]
         end.
  all: try match goal with
         | Hlt : (?n <? List.length ?l) = true |- context [nth_error ?l ?n] =>
             let E := fresh "E" in
             destruct (nth_error l n) eqn:E;
             [ pose proof (nth_error_In _ _ E)
             | apply nth_error_None in E; apply Nat.ltb_lt in Hlt; lia ]
         end.
  all: split; [reflexivity|].
  all: first [ left; reflexivity
             | right; left; eexists; reflexivity
             | right; right; left; eexists; split; [eassumption|reflexivity]
             | right; right; right; eexists; split; reflexivity ].
Qed.

Lemma chat_asked_user (h : list entry) (t : value) :
  Chat.Interview.asked (h ++ [{| role := "user"; parts := t |}])
  = Chat.Interview.asked h.
Proof. apply asked_user. Qed.

Lemma chat_asked_one (h : list entry) (q : value) :
  Chat.Interview.asked (h ++ [{| role := "model"; parts := q |}])
  = Chat.Interview.asked h ++ [q].
Proof. apply asked_one. Qed.

Lemma backend_or_default_more (S T : list value) (v : value) :
  backend_or_default S v -> backend_or_default (S ++ T) v.
Proof. intros [H|H]; [left; apply in_or_app; now left|now right]. Qed.

Lemma chat_step_sources (st st' : Chat.Interview.state) (e : Chat.Interview.event)
  (S : list value) :
  Chat.Interview.step st e = Some st' ->
  (forall q, In q (Chat.Interview.initialQuestions st) -> backend_or_default S (Some q)) ->
  (forall v, In v (Chat.Interview.asked (Chat.Interview.conversationHistory st)) ->
     backend_or_default S v) ->
  (forall q, In q (Chat.Interview.initialQuestions st') ->
     backend_or_default (S ++ chat_supplied_by (Chat.Interview_ e)) (Some q))
  /\ (forall v, In v (Chat.Interview.asked (Chat.Interview.conversationHistory st')) ->
      backend_or_default (S ++ chat_supplied_by (Chat.Interview_ e)) v).
Proof.
  intros Hstep Hqs Hasked.
  destruct (chat_step_effect st st' e Hstep) as [Hiq Hh]. split.
  - intros q Hin. rewrite Hiq in Hin. now apply backend_or_default_more, Hqs.
  - intros v Hin.
    destruct Hh as [Hh|[(t & Hh)|[(q & Hq & Hh)|(data & -> & Hh)]]]; rewrite Hh in Hin.
    + now apply backend_or_default_more, Hasked.
    + rewrite chat_asked_user in Hin. now apply backend_or_default_more, Hasked.
    + rewrite chat_asked_one in Hin. apply in_app_or in Hin as [Hin|[<-|[]]];
        apply backend_or_default_more; [now apply Hasked|now apply Hqs].
    + rewrite chat_asked_one in Hin. apply in_app_or in Hin as [Hin|[<-|[]]].
      * now apply backend_or_default_more, Hasked.
      * left. apply in_or_app. right. simpl. now left.
Qed.

Lemma chat_initial_sources (doc : document) (stored : option (list json))
  (S : list value) :
  (forall qs q, stored = Some qs -> In q qs -> backend_or_default S (Some q)) ->
  (forall q, In q (Chat.Interview.initialQuestions (Chat.Interview.initial doc stored)) ->
     backend_or_default S (Some q))
  /\ (forall v,
        In v (Chat.Interview.asked
                (Chat.Interview.conversationHistory (Chat.Interview.initial doc stored))) ->
        backend_or_default S v).
Proof.
  intros Hstored.
  assert (Hqs : forall q,
             In q (match stored with Some qs => qs | None => Chat.getDefaultQuestions end) ->
             backend_or_default S (Some q)).
  { destruct stored as [qs|]; intros q Hin.
    - now apply (Hstored qs).
    - right. now apply in_map. }
  unfold Chat.Interview.initial, Chat.Interview.startInterview,
    Chat.Interview.askNextInitialQuestion.
  destruct stored as [qs|].
  - cbn [Chat.Interview.initialQuestions Chat.Interview.with_initialQuestions
           Chat.Interview.currentQuestionIndex].
    destruct (0 <? List.length qs) eqn:Hlt; simpl; (split; [exact Hqs|]);
      [|intros v []].
    destruct qs as [|q qs]; [discriminate|]. simpl.
    intros v [<-|[]]. apply Hqs. now left.
  - simpl. split; [exact Hqs|]. intros v [<-|[]]. right. now left.
Qed.

Lemma landing_deactivate_storage (btns : list (string * value)) :
  forall l : Chat.Landing.state,
    Chat.Landing.storage
      (fold_left (fun st b => Chat.Landing.on (fst b) (remove_class "active") st)
         btns l)
    = Chat.Landing.storage l.
Proof. induction btns as [|b btns IH]; intros l; simpl; [reflexivity|]. now rewrite IH. Qed.

(** What one event of the landing page stores. *)
Lemma landing_step_storage (l l' : Chat.Landing.state) (e : Chat.Landing.event) :
  Chat.Landing.step l e = Some l' ->
  Chat.Landing.storage l' = Chat.Landing.storage l
  \/ Chat.Landing.storage l' = Some Chat.getDefaultQuestions
  \/ exists data qs,
      e = Chat.Landing.AnalyzeSettled (Resolved true (Body data))
      /\ questions data = Some qs /\ Chat.Landing.storage l' = Some qs.
Proof.
  destruct e; simpl; intros H.
  all: repeat match type of H with
         | context [match ?x with _ => _ end] => destruct x eqn:?; simpl in H
         end; try discriminate; injection H as <-.
  all: unfold Chat.Landing.reveal, Chat.Landing.selectTool, Chat.Landing.submit,
      Chat.Landing.submit_settled, Chat.Landing.submit_catch; simpl; break_match.
  all: try match goal with
         | H : negb ?b = false |- _ => destruct b; [clear H|discriminate H]
         end.
  all: rewrite ?landing_deactivate_storage.
  all: first [ left; reflexivity
             | right; left; reflexivity
             | right; right; do 2 eexists; repeat split; eassumption ].
Qed.

Lemma chat_sourced_more (S T : list value) (s : Chat.session) :
  chat_sourced S s -> chat_sourced (S ++ T) s.
Proof.
  unfold chat_sourced. intros [Hst Hat]. split.
  - intros qs q Hqs Hin. now apply backend_or_default_more, (Hst qs).
  - destruct (Chat.at_ s) as [l|st|]; [| |exact I].
    + intros qs q Hqs Hin. now apply backend_or_default_more, (Hat qs).
    + destruct Hat as [Hq Ha]. split; intros x Hin;
        apply backend_or_default_more; auto.
Qed.

Lemma visit_sourced (address : string) (stored : option (list json))
  (s : Chat.session) (S : list value) :
  (forall qs q, stored = Some qs -> In q qs -> backend_or_default S (Some q)) ->
  chat_sourced S (Chat.visit address stored s).
Proof.
  intros Hstored. unfold chat_sourced, Chat.visit, Chat.load. simpl.
  split; [exact Hstored|].
  destruct (existsb _ (Chat.ids _)); [exact Hstored|].
  destruct (existsb _ (Chat.bodyClassList _)); [|exact I].
  now apply chat_initial_sources.
Qed.

Lemma chat_session_sources (s s' : Chat.session) (e : Chat.event) (S : list value) :
  chat_sourced S s ->
  Chat.step s e = Some s' ->
  chat_sourced (S ++ chat_supplied_by e) s'.
Proof.
  intros [Hst Hat] Hstep. unfold Chat.step in Hstep.
  destruct e as [address|e|e].
  - assert (E : s' = Chat.visit address (Chat.sessionStorage s) s)
      by (destruct (Chat.at_ s); now injection Hstep as <-).
    subst s'. apply visit_sourced.
    intros qs q Hqs Hin. now apply backend_or_default_more, (Hst qs).
  - destruct (Chat.at_ s) as [l| |]; try discriminate.
    destruct (Chat.Landing.step l e) as [l'|] eqn:El; [|discriminate].
    assert (Hl' : forall qs q, Chat.Landing.storage l' = Some qs -> In q qs ->
                    backend_or_default (S ++ chat_supplied_by (Chat.Landing_ e)) (Some q)).
    { intros qs q Hqs Hin.
      destruct (landing_step_storage l l' e El)
        as [Hsame|[Hdef|(data & qs' & -> & Hdata & Hnew)]].
      - rewrite Hsame in Hqs. now apply backend_or_default_more, (Hat qs).
      - rewrite Hdef in Hqs. injection Hqs as <-. right. now apply in_map.
      - rewrite Hnew in Hqs. injection Hqs as ->. left. apply in_or_app. right.
        simpl. rewrite Hdata. now apply in_map. }
    destruct (Chat.Landing.href l') as [address|]; injection Hstep as <-.
    + now apply visit_sourced.
    + split; exact Hl'.
  - destruct (Chat.at_ s) as [|st|]; try discriminate.
    destruct (Chat.Interview.step st e) as [st1|] eqn:E; [|discriminate].
    injection Hstep as <-. destruct Hat as [Hq Ha]. split; simpl.
    + intros qs q Hqs Hin. now apply backend_or_default_more, (Hst qs).
    + now apply (chat_step_sources st st1 e S).
Qed.

Lemma chat_run_sources (events : list Chat.event) :
  forall (s s' : Chat.session) (S : list value),
    chat_sourced S s ->
    Chat.run s events = Some s' ->
    chat_sourced (S ++ chat_supplied events) s'.
Proof.
  induction events as [|e events IH]; simpl; intros s s' S Hs Hrun.
  - injection Hrun as <-. now rewrite app_nil_r.
  - destruct (Chat.step s e) as [s1|] eqn:Hstep; [|discriminate].
    unfold chat_supplied in IH. rewrite app_assoc.
    apply (IH s1 s'); [|exact Hrun]. now apply (chat_session_sources s s1 e S).
Qed.

(** C2, as the specification has it, fails: when /api/analyze is
    unreachable the landing page stores the default questions of
    [getDefaultQuestions], and the interview page asks the first of them
    although no backend response has carried any question. *)
Lemma default_question_is_asked :
  exists s q,
    Chat.run (Chat.start Sample.pages "/index.html") Sample.offline = Some s
    /\ In q (chat_asked s)
    /\ ~ In q (chat_supplied Sample.offline).
Proof.
  vm_compute. do 2 eexists. split; [reflexivity|]. split; [left; reflexivity|].
  intros [].
Qed.

(** C2, amended: on the voice page every question asked comes from a
    backend response (the [questions] of /api/analyze or the [question] of
    /api/follow-up); in a session over the landing page and the typed
    interview every question asked comes from such a response or from the
    local list of [getDefaultQuestions].  That list is what the landing page
    stores when /api/analyze fails or brings no non-empty [questions] array,
    and what the interview page takes when nothing is stored. *)
Theorem questions_come_from_backend_or_defaults :
  (forall (supported : bool) (doc : document) (events : list Voice.event)
      (st : Voice.state) (v : value),
      Voice.run (Voice.initial supported doc) events = Some st ->
      In v (Voice.asked (Voice.conversationHistory st)) ->
      In v (voice_supplied events))
  /\ (forall (pages : string -> Chat.html) (address : string)
        (events : list Chat.event) (s : Chat.session) (v : value),
      Chat.run (Chat.start pages address) events = Some s ->
      In v (chat_asked s) ->
      In v (chat_supplied events) \/ In v (map Some Chat.getDefaultQuestions))
  /\ (forall (st : Chat.Landing.state) (r : fetched analysis),
      Chat.Landing.storage (Chat.Landing.submit_settled r st)
      = Some match r with
             | Resolved true (Body data) =>
                 match questions data with
                 | Some (q :: qs) => q :: qs
                 | _ => Chat.getDefaultQuestions
                 end
             | _ => Chat.getDefaultQuestions
             end)
  /\ (forall (doc : document) (stored : option (list json)),
      Chat.Interview.initialQuestions (Chat.Interview.initial doc stored)
      = match stored with
        | Some qs => qs
        | None => Chat.getDefaultQuestions
        end).
Proof.
  split; [|split; [|split]].
  - intros supported doc events st v Hrun Hin.
    destruct (voice_run_sources events (Voice.initial supported doc) st [])
      as [_ Hasked]; try exact Hrun.
    + intros qs q Hqs Hq. simpl in Hqs. injection Hqs as <-. destruct Hq.
    + intros w [].
    + exact (Hasked v Hin).
  - intros pages address events s v Hrun Hin.
    assert (Hs : chat_sourced ([] ++ chat_supplied events) s).
    { apply (chat_run_sources events (Chat.start pages address)); [|exact Hrun].
      apply visit_sourced. discriminate. }
    destruct Hs as [_ Hat]. unfold chat_asked in Hin.
    destruct (Chat.at_ s) as [l|st|]; try destruct Hin.
    all: now apply (proj2 Hat).
  - intros st r. destruct r as [m|[|] [m|data]]; reflexivity.
  - intros doc stored. unfold Chat.Interview.initial, Chat.Interview.startInterview,
      Chat.Interview.askNextInitialQuestion.
    destruct stored as [qs|]; simpl; [|reflexivity].
    destruct (0 <? List.length qs); reflexivity.
Qed.

Lemma questions_come_from_backend_or_defaults_witness :
  In (Some (JStr "Why this role?")) (voice_supplied (Sample.until_listening ++ [Voice.ClickStart]))
  /\ exists s v,
      Chat.run (Chat.start Sample.pages "/index.html") Sample.offline = Some s
      /\ In v (chat_asked s)
      /\ (In v (chat_supplied Sample.offline)
          \/ In v (map Some Chat.getDefaultQuestions)).
Proof.
  destruct questions_come_from_backend_or_defaults as (Hvoice & Hchat & _).
  split.
  - assert (H : exists st,
               Voice.run (Voice.initial true (Voice.page (Sample.filled "Engineer")))
                 (Sample.until_listening ++ [Voice.ClickStart]) = Some st
               /\ In (Some (JStr "Why this role?"))
                    (Voice.asked (Voice.conversationHistory st))).
    { vm_compute. eexists. split; [reflexivity|]. left. reflexivity. }
    destruct H as (st & Hrun & Hin).
    exact (Hvoice true _ _ st _ Hrun Hin).
  - assert (H : exists s v,
               Chat.run (Chat.start Sample.pages "/index.html") Sample.offline = Some s
               /\ In v (chat_asked s)).
    { vm_compute. do 2 eexists. split; [reflexivity|]. left. reflexivity. }
    destruct H as (s & v & Hrun & Hin). exists s, v.
    split; [exact Hrun|]. split; [exact Hin|].
    exact (Hchat Sample.pages "/index.html" _ s v Hrun Hin).
Defined.

(** ** The index and the list *)

(** The index stays within the list as long as the list is not replaced by
    a further analysis; follow-ups are then inserted at the index itself. *)
Lemma voice_index_within (st st' : Voice.state) (e : Voice.event) :
  Voice.step st e = Some st' ->
  (forall data, e <> Voice.AnalyzeSettled (Resolved true (Body data))) ->
  (forall qs, Voice.initialQuestions st = Some qs ->
     Voice.currentQuestionIndex st <= List.length qs) ->
  forall qs', Voice.initialQuestions st' = Some qs' ->
    Voice.currentQuestionIndex st' <= List.length qs'.
Proof.
  intros H Hne Hin.
  destruct e; simpl in H;
    unfold Voice.click, Voice.resume, Voice.during, option_map in H.
  all: repeat match type of H with
         | context [match ?x with _ => _ end] => destruct x eqn:?; simpl in H
         end; try discriminate; injection H as <-.
  all: unfold Voice.handleFileSelection, Voice.handleJobRoleSubmit,
      Voice.handleJobRoleSubmit_settled, Voice.handleJobRoleSubmit_catch,
      Voice.setupMedia_settled, Voice.setupMedia_loaded,
      Voice.setupMedia_catch, Voice.uncaught, Voice.initAudioVisualizer,
      Voice.setupSpeechSynthesis, Voice.setupMedia, Voice.initAvatar,
      Voice.animateAvatar, Voice.askNextQuestion, Voice.askNextQuestion_spoken,
      Voice.endInterview, Voice.endInterview_spoken, Voice.endInterview_settled,
      Voice.endInterview_catch, Voice.toggleRecording, Voice.onstart,
      Voice.onresult, Voice.onend, Voice.onend_settled, Voice.onend_catch;
    simpl; break_match.
  all: try match goal with
         | H : negb ?b = false |- _ => destruct b; [clear H|discriminate H]
         end.
  all: try (exfalso; eapply Hne; reflexivity).
  all: intros qs' Hqs'; try discriminate.
  all: try (injection Hqs' as <-); rewrite ?splice_length.
  all: try match goal with
         | Hlt : (_ <=? _) = false |- _ => apply Nat.leb_gt in Hlt
         end.
  all: try solve [ apply Hin; congruence | lia
                 | match goal with
                   | |- _ <= S (List.length ?l) =>
                       assert (Voice.currentQuestionIndex st <= List.length l)
                         by (apply Hin; congruence); lia
                   end ].
  all: match goal with
       | H1 : ?x = Some ?a, H2 : ?x = Some ?b |- _ =>
           assert (a = b) by congruence; subst; lia
       end.
Qed.

Lemma voice_index_within_run (events : list Voice.event) :
  forall st st' : Voice.state,
    Forall (fun e => forall data,
                e <> Voice.AnalyzeSettled (Resolved true (Body data))) events ->
    (forall qs, Voice.initialQuestions st = Some qs ->
       Voice.currentQuestionIndex st <= List.length qs) ->
    Voice.run st events = Some st' ->
    forall qs', Voice.initialQuestions st' = Some qs' ->
      Voice.currentQuestionIndex st' <= List.length qs'.
Proof.
  induction events as [|e events IH]; simpl; intros st st' Hall Hin Hrun.
  - now injection Hrun as <-.
  - destruct (Voice.step st e) as [st1|] eqn:Hstep; [|discriminate].
    inversion Hall as [|e' events' He Hrest]; subst.
    apply (IH st1 st' Hrest); [|exact Hrun].
    now apply (voice_index_within st st1 e).
Qed.

(** ** The avatar *)

Lemma getByteFrequencyData_length (data array : list byte) :
  List.length (Voice.getByteFrequencyData data array) = List.length array.
Proof.
  unfold Voice.getByteFrequencyData.
  rewrite length_app, length_firstn, length_skipn. lia.
Qed.

Lemma fold_left_sum (l : list byte) (a : Z) :
  fold_left (fun a c => (a + Voice.byte_value c)%Z) l a
  = (a + fold_right (fun b acc => (Voice.byte_value b + acc)%Z) 0%Z l)%Z.
Proof.
  revert a. induction l as [|b l IH]; intros a; simpl; [lia|].
  rewrite IH. lia.
Qed.

Lemma reduce_sum_spec (array : list byte) :
  array <> [] ->
  Voice.reduce_sum array
  = Some (fold_right (fun b acc => (Voice.byte_value b + acc)%Z) 0%Z array).
Proof.
  destruct array as [|b l]; [congruence|]. intros _. simpl.
  now rewrite fold_left_sum.
Qed.

Lemma take_subset {T : Type} (eqb : T -> T -> bool) (t x : T) (l rest : list T) :
  take eqb t l = Some rest -> In x rest -> In x l.
Proof.
  revert rest. induction l as [|u l IH]; simpl; intros rest H Hin; [discriminate|].
  destruct (eqb t u); [injection H as <-; now right|].
  destruct (take eqb t l) as [r|]; [|discriminate].
  injection H as <-. destruct Hin as [->|Hin]; [now left|right; now apply (IH r)].
Qed.

Lemma voice_take_pending (t : Voice.task) (l rest : list Voice.task) :
  take Voice.task_eqb t l = Some rest -> In t l.
Proof.
  revert rest. induction l as [|u l IH]; simpl; intros rest H; [discriminate|].
  destruct (Voice.task_eqb t u) eqn:E.
  - left. destruct t, u; (reflexivity || discriminate).
  - destruct (take Voice.task_eqb t l) as [r|]; [|discriminate].
    right. now apply (IH r).
Qed.

Lemma voice_step_ready (st st' : Voice.state) (e : Voice.event) :
  avatar_ready st -> Voice.step st e = Some st' -> avatar_ready st'.
Proof.
  intros Hr.
  destruct e; simpl; unfold Voice.click, Voice.resume, Voice.during, option_map;
    intros H.
  all: repeat match type of H with
         | context [match ?x with _ => _ end] => destruct x eqn:?; simpl in H
         end; try discriminate; injection H as <-.
  all: unfold Voice.handleFileSelection, Voice.handleJobRoleSubmit,
      Voice.handleJobRoleSubmit_settled, Voice.handleJobRoleSubmit_catch,
      Voice.setupMedia_settled, Voice.setupMedia_loaded,
      Voice.setupMedia_catch, Voice.uncaught, Voice.initAudioVisualizer,
      Voice.setupSpeechSynthesis, Voice.setupMedia, Voice.initAvatar,
      Voice.animateAvatar, Voice.askNextQuestion, Voice.askNextQuestion_spoken,
      Voice.endInterview, Voice.endInterview_spoken, Voice.endInterview_settled,
      Voice.endInterview_catch, Voice.toggleRecording, Voice.onstart,
      Voice.onresult, Voice.onend, Voice.onend_settled, Voice.onend_catch;
    simpl; break_match.
  all: destruct Hr as [Harr Hav]; split; simpl.
  all: try (intros Hin; repeat (apply in_app_or in Hin as [Hin|Hin]);
            try (destruct Hin as [Hin|[]]; discriminate Hin);
            try discriminate;
            try (eapply take_subset in Hin; [|eassumption]);
            solve [ apply Hav; assumption | congruence | discriminate ]).
  all: try (intros Hana; rewrite ?getByteFrequencyData_length;
            solve [ reflexivity | apply Harr; congruence ]).
  all: intros _; apply Hav; eapply voice_take_pending; eassumption.
Qed.

Lemma voice_initial_ready (supported : bool) (doc : document) :
  avatar_ready (Voice.initial supported doc).
Proof. split; simpl; [congruence|tauto]. Qed.

(** * Rounding in binary64: properties *)

Section RoundingProperties.
Local Open Scope Z_scope.

Lemma iter_pos_nat {A : Type} (f : A -> A) (p : positive) :
  forall x, iter_pos f p x = Nat.iter (Pos.to_nat p) f x.
Proof.
  induction p as [p IH|p IH|]; intros x; cbn [iter_pos].
  - rewrite !IH, Pos2Nat.inj_xI.
    replace (S (2 * Pos.to_nat p))%nat with (Pos.to_nat p + (Pos.to_nat p + 1))%nat by lia.
    rewrite !Nat.iter_add. simpl. reflexivity.
  - rewrite !IH, Pos2Nat.inj_xO.
    replace (2 * Pos.to_nat p)%nat with (Pos.to_nat p + Pos.to_nat p)%nat by lia.
    now rewrite Nat.iter_add.
  - reflexivity.
Qed.

Lemma shr_1_spec (m : Z) (r s : bool) :
  0 <= m ->
  shr_1 {| shr_m := m; shr_r := r; shr_s := s |}
  = {| shr_m := m / 2; shr_r := Z.odd m; shr_s := r || s |}.
Proof.
  intros Hm. destruct m as [|p|p]; [reflexivity| |lia].
  destruct p as [p|p|]; simpl; try reflexivity.
  - f_equal. rewrite Pos2Z.inj_xI.
    apply Z.div_unique with (r := 1); lia.
  - f_equal. rewrite Pos2Z.inj_xO.
    apply Z.div_unique with (r := 0); lia.
Qed.

Lemma shr_iter_spec (m : Z) (k : nat) :
  0 <= m ->
  let mrs := Nat.iter k shr_1 {| shr_m := m; shr_r := false; shr_s := false |} in
  shr_m mrs = m / 2 ^ Z.of_nat k
  /\ loc_of_shr_record mrs = loc_of m (Z.of_nat k).
Proof.
  intros Hm. induction k as [|k IH].
  - simpl. unfold loc_of. simpl. rewrite Z.div_1_r, Z.mod_1_r. now split.
  - cbv zeta in *.
    change (Nat.iter (S k) shr_1 ?x) with (shr_1 (Nat.iter k shr_1 x)).
    destruct (Nat.iter k shr_1 _) as [M r s]. simpl in IH. destruct IH as [HM Hloc].
    assert (HM0 : 0 <= M) by (subst M; apply Z.div_pos; [lia|apply Z.pow_pos_nonneg; lia]).
    rewrite shr_1_spec by exact HM0.
    assert (Hp : 0 < 2 ^ Z.of_nat k) by (apply Z.pow_pos_nonneg; lia).
    assert (Hs : 2 ^ Z.of_nat (S k) = 2 * 2 ^ Z.of_nat k)
      by (rewrite Nat2Z.inj_succ, Z.pow_succ_r; lia).
    assert (Hdiv : m / 2 ^ Z.of_nat (S k) = M / 2).
    { rewrite Hs, HM, Z.mul_comm, Z.div_div; lia. }
    assert (Hmod : m mod 2 ^ Z.of_nat (S k)
                   = m mod 2 ^ Z.of_nat k + 2 ^ Z.of_nat k * (M mod 2)).
    { rewrite Hs, HM, Z.mul_comm. rewrite Z.rem_mul_r by lia. reflexivity. }
    split; [cbn [shr_m]; exact (eq_sym Hdiv)|].
    unfold loc_of in *. rewrite Hmod, Hs, Zmod_odd.
    pose proof (Z.mod_pos_bound m (2 ^ Z.of_nat k) Hp) as Hr.
    cbn [shr_m shr_r shr_s loc_of_shr_record] in *.
    destruct (Z.eqb_spec (m mod 2 ^ Z.of_nat k) 0) as [E0|E0].
    + assert (r = false /\ s = false) as [-> ->].
      { destruct r, s; try discriminate; now split. }
      cbn [orb]. destruct (Z.odd M).
      * destruct (Z.eqb_spec (m mod 2 ^ Z.of_nat k + 2 ^ Z.of_nat k * 1) 0); [lia|].
        destruct (Z.compare_spec (2 * (m mod 2 ^ Z.of_nat k + 2 ^ Z.of_nat k * 1))
                    (2 * 2 ^ Z.of_nat k)); try lia. reflexivity.
      * destruct (Z.eqb_spec (m mod 2 ^ Z.of_nat k + 2 ^ Z.of_nat k * 0) 0); [|lia].
        reflexivity.
    + assert (r || s = true) as Hrs.
      { destruct r, s; try reflexivity. discriminate. }
      rewrite Hrs. destruct (Z.odd M).
      * destruct (Z.eqb_spec (m mod 2 ^ Z.of_nat k + 2 ^ Z.of_nat k * 1) 0); [lia|].
        destruct (Z.compare_spec (2 * (m mod 2 ^ Z.of_nat k + 2 ^ Z.of_nat k * 1))
                    (2 * 2 ^ Z.of_nat k)); try lia. reflexivity.
      * destruct (Z.eqb_spec (m mod 2 ^ Z.of_nat k + 2 ^ Z.of_nat k * 0) 0); [lia|].
        destruct (Z.compare_spec (2 * (m mod 2 ^ Z.of_nat k + 2 ^ Z.of_nat k * 0))
                    (2 * 2 ^ Z.of_nat k)); try lia. reflexivity.
Qed.

Lemma round_loc_of (m k : Z) :
  round_nearest_even (m / 2 ^ k) (loc_of m k) = rne m k.
Proof.
  unfold rne, loc_of. destruct (m mod 2 ^ k =? 0); [reflexivity|].
  destruct (2 * (m mod 2 ^ k) ?= 2 ^ k); reflexivity.
Qed.

(** ** binary64 *)

Lemma fexp64 (e : Z) : fexp 53 1024 e = Z.max (e - 53) (-1074).
Proof. reflexivity. Qed.

Lemma digits2_size (p : positive) : digits2_pos p = Pos.size p.
Proof. induction p as [p IH|p IH|]; simpl; now rewrite ?IH. Qed.

Lemma digits_bounds (p : positive) :
  2 ^ (Z.pos (digits2_pos p) - 1) <= Z.pos p < 2 ^ Z.pos (digits2_pos p).
Proof.
  rewrite digits2_size. split.
  - pose proof (Pos.size_le p) as H.
    assert (H2 : 2 ^ Z.pos (Pos.size p) <= 2 * Z.pos p).
    { change 2 with (Z.pos 2) at 1. rewrite <- Pos2Z.inj_pow.
      change (2 * Z.pos p) with (Z.pos p~0). now apply Pos2Z.pos_le_pos. }
    replace (Z.pos (Pos.size p)) with (Z.succ (Z.pos (Pos.size p) - 1)) in H2 by lia.
    rewrite Z.pow_succ_r in H2 by lia. lia.
  - pose proof (Pos.size_gt p) as H.
    change 2 with (Z.pos 2). rewrite <- Pos2Z.inj_pow. now apply Pos2Z.pos_lt_pos.
Qed.

Lemma digits_le (p : positive) (k : Z) :
  Z.pos p < 2 ^ k -> Z.pos (digits2_pos p) <= k.
Proof.
  intros H. destruct (digits_bounds p) as [Hlo _].
  destruct (Z.le_gt_cases (Z.pos (digits2_pos p)) k) as [Hle|Hgt]; [exact Hle|].
  exfalso. assert (2 ^ k <= 2 ^ (Z.pos (digits2_pos p) - 1)).
  { apply Z.pow_le_mono_r; lia. }
  lia.
Qed.

Lemma digits_ge (p : positive) (k : Z) :
  0 <= k -> 2 ^ k <= Z.pos p -> k < Z.pos (digits2_pos p).
Proof.
  intros Hk H. destruct (digits_bounds p) as [_ Hhi].
  destruct (Z.lt_ge_cases k (Z.pos (digits2_pos p))) as [Hlt|Hge]; [exact Hlt|].
  exfalso. assert (2 ^ Z.pos (digits2_pos p) <= 2 ^ k).
  { apply Z.pow_le_mono_r; lia. }
  lia.
Qed.

Lemma rne_bounds (m k : Z) :
  0 <= m -> 0 <= k -> m / 2 ^ k <= rne m k <= m / 2 ^ k + 1.
Proof.
  intros Hm Hk. unfold rne. destruct (m mod 2 ^ k =? 0); [lia|].
  destruct (2 * (m mod 2 ^ k) ?= 2 ^ k); try lia.
  destruct (Z.even (m / 2 ^ k)); lia.
Qed.

Lemma rne_le_pow (m k d : Z) :
  0 <= m -> 0 <= k -> k <= d -> m < 2 ^ d -> rne m k <= 2 ^ (d - k).
Proof.
  intros Hm Hk Hd Hlt.
  pose proof (rne_bounds m k Hm Hk) as [_ Hhi].
  assert (Hp : 0 < 2 ^ k) by (apply Z.pow_pos_nonneg; lia).
  assert (Hq : m / 2 ^ k < 2 ^ (d - k)).
  { apply Z.div_lt_upper_bound; [exact Hp|].
    rewrite <- Z.pow_add_r by lia. now replace (k + (d - k)) with d by lia. }
  lia.
Qed.

Lemma shr_spec (m e n : Z) :
  0 <= m -> 0 < n ->
  exists mrs,
    shr (shr_record_of_loc m loc_Exact) e n = (mrs, e + n)
    /\ shr_m mrs = m / 2 ^ n
    /\ round_nearest_even (shr_m mrs) (loc_of_shr_record mrs) = rne m n.
Proof.
  intros Hm Hn. destruct n as [|p|p]; try lia.
  cbn [shr shr_record_of_loc]. eexists. split; [reflexivity|].
  rewrite iter_pos_nat.
  destruct (shr_iter_spec m (Pos.to_nat p) Hm) as [HM Hloc].
  rewrite positive_nat_Z in HM, Hloc.
  split; [exact HM|]. rewrite HM, Hloc. apply round_loc_of.
Qed.

Lemma shr_none (m e n : Z) :
  n <= 0 ->
  shr (shr_record_of_loc m loc_Exact) e n
  = ({| shr_m := m; shr_r := false; shr_s := false |}, e).
Proof. intros Hn. destruct n as [|p|p]; try reflexivity. lia. Qed.

Lemma bra_exact (sx : bool) (m : positive) (e : Z) :
  target_exp m e <= e ->
  bra sx m e = if e <=? 971 then S754_finite sx m e else S754_infinity sx.
Proof.
  unfold target_exp, bra, binary_round_aux, shr_fexp. intros HE.
  cbn [Zdigits2]. rewrite fexp64.
  replace (Z.pos (digits2_pos m) + e - 53) with (Z.pos (digits2_pos m) + e - 53) by lia.
  rewrite shr_none by lia.
  cbn [shr_m loc_of_shr_record round_nearest_even Zdigits2].
  rewrite fexp64, shr_none by lia.
  cbn [shr_m]. reflexivity.
Qed.

Lemma bra_round (sx : bool) (m : positive) (e : Z) :
  e < target_exp m e ->
  let E := target_exp m e in
  let M := rne (Z.pos m) (E - e) in
  0 <= M <= 2 ^ 53
  /\ bra sx m e
     = if M =? 0 then S754_zero sx
       else if M =? 2 ^ 53
            then if E + 1 <=? 971 then S754_finite sx (2 ^ 52) (E + 1)
                 else S754_infinity sx
            else if E <=? 971 then S754_finite sx (Z.to_pos M) E
                 else S754_infinity sx.
Proof.
  intros HE E M.
  assert (HM : 0 <= M <= 2 ^ 53).
  { subst M. split.
    - pose proof (rne_bounds (Z.pos m) (E - e) ltac:(lia) ltac:(lia)) as [Hlo _].
      assert (0 <= Z.pos m / 2 ^ (E - e))
        by (apply Z.div_pos; [lia|apply Z.pow_pos_nonneg; lia]).
      lia.
    - destruct (digits_bounds m) as [_ Hhi].
      assert (Hd : E - e <= Z.pos (digits2_pos m) \/ Z.pos (digits2_pos m) < E - e) by lia.
      destruct Hd as [Hd|Hd].
      + eapply Z.le_trans.
        * apply (rne_le_pow (Z.pos m) (E - e) (Z.pos (digits2_pos m))); lia.
        * apply Z.pow_le_mono_r; [lia|]. unfold E, target_exp. lia.
      + eapply Z.le_trans.
        * apply (rne_le_pow (Z.pos m) (E - e) (E - e)); try lia.
          eapply Z.lt_le_trans; [exact Hhi|]. apply Z.pow_le_mono_r; lia.
        * rewrite Z.sub_diag. simpl. lia. }
  split; [exact HM|].
  unfold bra, binary_round_aux, shr_fexp. cbn [Zdigits2]. rewrite fexp64.
  fold (target_exp m e). fold E.
  destruct (shr_spec (Z.pos m) e (E - e) ltac:(lia) ltac:(lia)) as (mrs & Hshr & _ & Hr).
  rewrite Hshr, Hr. fold M. replace (e + (E - e)) with E by lia.
  assert (HE74 : -1074 <= E) by (unfold E, target_exp; lia).
  destruct (Z.eqb_spec M 0) as [E0|E0].
  - rewrite E0. cbn [Zdigits2]. rewrite fexp64, shr_none by lia. reflexivity.
  - destruct (Z.eqb_spec M (2 ^ 53)) as [E1|E1].
    + rewrite E1. change (Zdigits2 (2 ^ 53)) with 54. rewrite fexp64.
      replace (Z.max (54 + E - 53) (-1074) - E) with 1 by lia.
      cbn [shr shr_record_of_loc iter_pos]. 
      change (shr_1 {| shr_m := 2 ^ 53; shr_r := false; shr_s := false |})
        with {| shr_m := 2 ^ 52; shr_r := false; shr_s := false |}.
      cbn [shr_m]. reflexivity.
    + destruct M as [|p|p]; try lia. cbn [Zdigits2]. rewrite fexp64.
      assert (Z.pos (digits2_pos p) <= 53) by (apply digits_le; lia).
      rewrite shr_none by lia. cbn [shr_m Z.to_pos]. reflexivity.
Qed.

(** ** Values, in units of 2^-2200 *)

Lemma pow2_pos (k : Z) : 0 <= k -> 0 < 2 ^ k.
Proof. intros. apply Z.pow_pos_nonneg; lia. Qed.

Lemma pow2_split (a b : Z) : 0 <= a -> 0 <= b -> 2 ^ (a + b) = 2 ^ a * 2 ^ b.
Proof. intros. apply Z.pow_add_r; lia. Qed.

Lemma W_shift (m e j : Z) : 0 <= j -> 0 <= e + grain -> scaled (m * 2 ^ j) e = scaled m (e + j).
Proof.
  intros Hj He. unfold scaled. replace (e + j + grain) with (j + (e + grain)) by lia.
  rewrite (pow2_split j (e + grain)) by lia. ring.
Qed.

Lemma W_le (m1 m2 e : Z) : 0 <= e + grain -> (scaled m1 e <= scaled m2 e <-> m1 <= m2).
Proof.
  intros He. unfold scaled. pose proof (pow2_pos (e + grain) He). split; intros; nia.
Qed.

Lemma W_lt (m1 m2 e : Z) : 0 <= e + grain -> (scaled m1 e < scaled m2 e <-> m1 < m2).
Proof.
  intros He. unfold scaled. pose proof (pow2_pos (e + grain) He). split; intros; nia.
Qed.

Lemma W_pow_le (a b : Z) : 0 <= a + grain -> a <= b -> scaled 1 a <= scaled 1 b.
Proof.
  intros Ha Hab. unfold scaled. rewrite !Z.mul_1_l. apply Z.pow_le_mono_r; lia.
Qed.

Lemma rne_exact (m k : Z) : 0 <= k -> rne (m * 2 ^ k) k = m.
Proof.
  intros Hk. unfold rne. pose proof (pow2_pos k Hk).
  rewrite Z.mod_mul, Z.div_mul by lia. reflexivity.
Qed.

Lemma rne_shift (m k j : Z) :
  0 <= k -> 0 <= j -> rne (m * 2 ^ j) (k + j) = rne m k.
Proof.
  intros Hk Hj. unfold rne.
  pose proof (pow2_pos k Hk) as Hpk. pose proof (pow2_pos j Hj) as Hpj.
  rewrite (pow2_split k j) by lia.
  rewrite Z.div_mul_cancel_r by lia.
  rewrite Z.mul_mod_distr_r by lia.
  destruct (Z.eqb_spec (m mod 2 ^ k) 0) as [E|E].
  - rewrite E. reflexivity.
  - destruct (Z.eqb_spec (m mod 2 ^ k * 2 ^ j) 0) as [E'|E']; [nia|].
    replace (2 * (m mod 2 ^ k * 2 ^ j) ?= 2 ^ k * 2 ^ j)
      with (2 * (m mod 2 ^ k) ?= 2 ^ k); [reflexivity|].
    destruct (Z.compare_spec (2 * (m mod 2 ^ k)) (2 ^ k));
      destruct (Z.compare_spec (2 * (m mod 2 ^ k * 2 ^ j)) (2 ^ k * 2 ^ j));
      try reflexivity; nia.
Qed.

Lemma rne_mono (m1 m2 k : Z) : 0 <= k -> m1 <= m2 -> rne m1 k <= rne m2 k.
Proof.
  intros Hk Hm. pose proof (pow2_pos k Hk) as Hp.
  assert (Hq : m1 / 2 ^ k <= m2 / 2 ^ k) by (apply Z.div_le_mono; lia).
  pose proof (Z.div_mod m1 (2 ^ k) ltac:(lia)) as D1.
  pose proof (Z.div_mod m2 (2 ^ k) ltac:(lia)) as D2.
  pose proof (Z.mod_pos_bound m1 (2 ^ k) Hp) as B1.
  pose proof (Z.mod_pos_bound m2 (2 ^ k) Hp) as B2.
  unfold rne.
  destruct (Z.eq_dec (m1 / 2 ^ k) (m2 / 2 ^ k)) as [Eq|Ne].
  - rewrite Eq in *. assert (Hr : m1 mod 2 ^ k <= m2 mod 2 ^ k) by lia.
    destruct (Z.eqb_spec (m1 mod 2 ^ k) 0); destruct (Z.eqb_spec (m2 mod 2 ^ k) 0);
      destruct (Z.compare_spec (2 * (m1 mod 2 ^ k)) (2 ^ k));
      destruct (Z.compare_spec (2 * (m2 mod 2 ^ k)) (2 ^ k));
      destruct (Z.even (m2 / 2 ^ k)); lia.
  - assert (m1 / 2 ^ k + 1 <= m2 / 2 ^ k) by lia.
    destruct (Z.eqb_spec (m1 mod 2 ^ k) 0); destruct (Z.eqb_spec (m2 mod 2 ^ k) 0);
      destruct (2 * (m1 mod 2 ^ k) ?= 2 ^ k);
      destruct (2 * (m2 mod 2 ^ k) ?= 2 ^ k);
      destruct (Z.even (m1 / 2 ^ k)); destruct (Z.even (m2 / 2 ^ k)); lia.
Qed.

Lemma rnd_at_common (E m e e0 : Z) :
  0 <= e0 + grain -> e0 <= e -> e0 <= E ->
  rnd_at E m e = scaled (rne (m * 2 ^ (e - e0)) (E - e0)) E.
Proof.
  intros H0 He HE. unfold rnd_at. destruct (Z.leb_spec E e) as [Hle|Hlt].
  - replace (m * 2 ^ (e - e0)) with (m * 2 ^ (e - E) * 2 ^ (E - e0)).
    + rewrite rne_exact by lia. rewrite W_shift by lia. f_equal. lia.
    + rewrite <- Z.mul_assoc, <- pow2_split by lia. do 2 f_equal. lia.
  - replace (E - e0) with (E - e + (e - e0)) by lia.
    rewrite rne_shift by lia. reflexivity.
Qed.

Lemma rnd_at_mono (E m1 e1 m2 e2 : Z) :
  0 <= e1 + grain -> 0 <= e2 + grain -> 0 <= E + grain ->
  scaled m1 e1 <= scaled m2 e2 -> rnd_at E m1 e1 <= rnd_at E m2 e2.
Proof.
  intros H1 H2 HE Hle.
  set (e0 := Z.min E (Z.min e1 e2)).
  rewrite (rnd_at_common E m1 e1 e0), (rnd_at_common E m2 e2 e0) by lia.
  apply W_le; [lia|]. apply rne_mono; [lia|].
  replace e1 with (e0 + (e1 - e0)) in Hle at 1 by lia.
  replace e2 with (e0 + (e2 - e0)) in Hle at 1 by lia.
  rewrite <- !W_shift in Hle by lia. apply W_le in Hle; lia.
Qed.

Lemma magnitude (m : positive) (e : Z) :
  0 <= e + grain ->
  scaled 1 (Z.pos (digits2_pos m) + e - 1) <= scaled (Z.pos m) e
  /\ scaled (Z.pos m) e < scaled 1 (Z.pos (digits2_pos m) + e).
Proof.
  intros He. destruct (digits_bounds m) as [Hlo Hhi].
  assert (Hd : 1 <= Z.pos (digits2_pos m)) by lia.
  split.
  - replace (Z.pos (digits2_pos m) + e - 1) with (e + (Z.pos (digits2_pos m) - 1)) by lia.
    rewrite <- W_shift by lia. apply W_le; lia.
  - replace (Z.pos (digits2_pos m) + e) with (e + Z.pos (digits2_pos m)) by lia.
    rewrite <- W_shift by lia. apply W_lt; lia.
Qed.

Lemma magnitude_mono (m1 m2 : positive) (e1 e2 : Z) :
  0 <= e1 + grain -> 0 <= e2 + grain ->
  scaled (Z.pos m1) e1 <= scaled (Z.pos m2) e2 ->
  Z.pos (digits2_pos m1) + e1 <= Z.pos (digits2_pos m2) + e2.
Proof.
  intros H1 H2 Hle.
  destruct (magnitude m1 e1 H1) as [Hlo1 _].
  destruct (magnitude m2 e2 H2) as [_ Hhi2].
  destruct (Z.le_gt_cases (Z.pos (digits2_pos m1) + e1) (Z.pos (digits2_pos m2) + e2))
    as [H|H]; [exact H|].
  exfalso.
  assert (scaled 1 (Z.pos (digits2_pos m2) + e2) <= scaled 1 (Z.pos (digits2_pos m1) + e1 - 1)).
  { apply W_pow_le; lia. }
  lia.
Qed.

Lemma rndW_mono (m1 m2 : positive) (e1 e2 : Z) :
  0 <= e1 + grain -> 0 <= e2 + grain ->
  scaled (Z.pos m1) e1 <= scaled (Z.pos m2) e2 -> rndW m1 e1 <= rndW m2 e2.
Proof.
  intros H1 H2 Hle. unfold rndW.
  pose proof (magnitude_mono m1 m2 e1 e2 H1 H2 Hle) as HA.
  destruct (Z.eq_dec (target_exp m1 e1) (target_exp m2 e2)) as [Eq|Ne].
  - rewrite Eq. apply rnd_at_mono; try lia. unfold target_exp, grain. lia.
  - assert (HE : target_exp m1 e1 < target_exp m2 e2) by (unfold target_exp in *; lia).
    set (A2 := Z.pos (digits2_pos m2) + e2) in *.
    assert (HA2 : target_exp m2 e2 = A2 - 53) by (unfold target_exp in *; lia).
    assert (HA1 : Z.pos (digits2_pos m1) + e1 <= A2 - 1) by (unfold target_exp in *; lia).
    destruct (magnitude m1 e1 H1) as [_ Hhi1].
    destruct (magnitude m2 e2 H2) as [Hlo2 _]. fold A2 in Hlo2.
    assert (Hmid : scaled 1 (Z.pos (digits2_pos m1) + e1) <= scaled 1 (A2 - 1)).
    { apply W_pow_le; lia. }
    apply Z.le_trans with (scaled 1 (A2 - 1)).
    + replace (scaled 1 (A2 - 1)) with (rnd_at (target_exp m1 e1) 1 (A2 - 1)).
      * assert (1 <= Z.pos (digits2_pos m1)) by lia.
        apply rnd_at_mono; try lia; unfold target_exp, grain in *; lia.
      * unfold rnd_at. destruct (Z.leb_spec (target_exp m1 e1) (A2 - 1)); [reflexivity|lia].
    + replace (scaled 1 (A2 - 1)) with (rnd_at (target_exp m2 e2) 1 (A2 - 1)).
      * assert (1 <= Z.pos (digits2_pos m1)) by lia.
        apply rnd_at_mono; try lia; unfold target_exp, grain in *; lia.
      * unfold rnd_at. destruct (Z.leb_spec (target_exp m2 e2) (A2 - 1)); [reflexivity|lia].
Qed.

(** ** Rounding as a function of the value *)

Lemma W_at_K (m : Z) : scaled m (- grain) = m.
Proof. unfold scaled. replace (- grain + grain) with 0 by lia. simpl. lia. Qed.

Lemma W_pos (m : positive) (e : Z) : 0 <= e + grain -> 0 < scaled (Z.pos m) e.
Proof. intros He. unfold scaled. pose proof (pow2_pos (e + grain) He). nia. Qed.

Lemma W_opp (m e : Z) : scaled (- m) e = - scaled m e.
Proof. unfold scaled. ring. Qed.

Lemma rnd_at_nonneg (E m e : Z) :
  0 <= m -> 0 <= e + grain -> 0 <= E + grain -> 0 <= rnd_at E m e.
Proof.
  intros Hm He HE. unfold rnd_at, scaled. destruct (E <=? e) eqn:El.
  - pose proof (pow2_pos (e + grain) He). nia.
  - apply Z.leb_gt in El. pose proof (pow2_pos (E + grain) HE).
    pose proof (rne_bounds m (E - e) Hm ltac:(lia)) as [Hlo _].
    assert (0 <= m / 2 ^ (E - e)) by (apply Z.div_pos; [lia|apply pow2_pos; lia]).
    nia.
Qed.

Lemma rndW_nonneg (m : positive) (e : Z) : 0 <= e + grain -> 0 <= rndW m e.
Proof.
  intros He. unfold rndW. apply rnd_at_nonneg; try lia. unfold target_exp, grain. lia.
Qed.

Lemma RN_W (m : positive) (e : Z) : 0 <= e + grain -> nearest (scaled (Z.pos m) e) = rndW m e.
Proof.
  intros He. pose proof (W_pos m e He) as Hp.
  destruct (scaled (Z.pos m) e) as [|p|p] eqn:Ew; try lia.
  unfold nearest. apply Z.le_antisymm; apply rndW_mono; try lia; try (unfold grain; lia);
    rewrite W_at_K, Ew; lia.
Qed.

Lemma RN_opp (v : Z) : nearest (- v) = - nearest v.
Proof. destruct v; simpl; lia. Qed.

Lemma RN_nonneg (v : Z) : 0 <= v -> 0 <= nearest v.
Proof.
  intros Hv. destruct v as [|p|p]; simpl; try lia.
  apply rndW_nonneg. unfold grain. lia.
Qed.

Lemma RN_mono (v1 v2 : Z) : v1 <= v2 -> nearest v1 <= nearest v2.
Proof.
  intros Hle.
  assert (HK : 0 <= - grain + grain) by lia.
  destruct v1 as [|p1|p1], v2 as [|p2|p2]; cbn [nearest]; try lia.
  - apply rndW_nonneg, HK.
  - apply rndW_mono; try exact HK. rewrite !W_at_K. lia.
  - pose proof (rndW_nonneg p1 (- grain) HK). lia.
  - pose proof (rndW_nonneg p1 (- grain) HK). pose proof (rndW_nonneg p2 (- grain) HK). lia.
  - assert (rndW p2 (- grain) <= rndW p1 (- grain)); [|lia].
    apply rndW_mono; try exact HK. rewrite !W_at_K. lia.
Qed.

(** ** The shape of results *)

Lemma fin_shape (B : Z) (x : spec_float) : finite_below B x -> representable x.
Proof. destruct x; simpl; tauto. Qed.

Lemma fin_more (B fifth : Z) (x : spec_float) : B <= fifth -> finite_below B x -> finite_below fifth x.
Proof. destruct x; simpl; intros; try tauto. lia. Qed.

Lemma Wf_finite (s : bool) (m : positive) (e : Z) :
  weight (S754_finite s m e) = signed s (scaled (Z.pos m) e).
Proof.
  destruct s; cbn [weight signed]; [|reflexivity].
  change (Z.neg m) with (- Z.pos m). apply W_opp.
Qed.

Lemma RN_fin (B : Z) (x : spec_float) : finite_below B x -> nearest (weight x) = weight x.
Proof.
  destruct x as [s|s| |s m e]; cbn [finite_below]; try tauto; try reflexivity.
  intros (Hd & He & _). rewrite Wf_finite.
  assert (Hr : nearest (scaled (Z.pos m) e) = scaled (Z.pos m) e).
  { rewrite RN_W by (unfold grain; lia). unfold rndW, rnd_at.
    destruct (Z.leb_spec (target_exp m e) e); [reflexivity|].
    unfold target_exp in *. lia. }
  destruct s; cbn [signed]; [rewrite RN_opp|]; now rewrite Hr.
Qed.

Lemma bra_W (sx : bool) (m : positive) (e : Z) :
  0 <= e + grain -> Z.pos (digits2_pos m) + e <= 900 ->
  representable (bra sx m e) /\ weight (bra sx m e) = signed sx (rndW m e).
Proof.
  intros He HA. unfold rndW, rnd_at.
  destruct (Z.leb_spec (target_exp m e) e) as [Hle|Hlt].
  - rewrite (bra_exact sx m e Hle).
    assert (1 <= Z.pos (digits2_pos m)) by lia.
    destruct (Z.leb_spec e 971); [|lia].
    split; [|apply Wf_finite]. simpl. unfold target_exp in Hle. lia.
  - destruct (bra_round sx m e Hlt) as [HM Hbra]. cbv zeta in *. rewrite Hbra.
    set (E := target_exp m e) in *. set (M := rne (Z.pos m) (E - e)) in *.
    assert (HE : -1074 <= E <= 847) by (unfold E, target_exp; lia).
    destruct (Z.eqb_spec M 0) as [E0|E0].
    + rewrite E0. split; [exact I|]. unfold scaled. simpl. now destruct sx.
    + destruct (Z.eqb_spec M (2 ^ 53)) as [E1|E1].
      * destruct (Z.leb_spec (E + 1) 971); [|lia]. split.
        -- simpl. split; [|lia]. now vm_compute.
        -- rewrite Wf_finite. f_equal. rewrite E1.
           change (2 ^ 53) with (2 ^ 52 * 2 ^ 1). rewrite W_shift by (unfold grain; lia).
           reflexivity.
      * destruct (Z.leb_spec E 971); [|lia].
        destruct M as [|p|p] eqn:EM; try lia. cbn [Z.to_pos]. split.
        -- simpl. split; [|lia]. apply digits_le. lia.
        -- apply Wf_finite.
Qed.

Lemma iter_xO (m d : positive) :
  Z.pos (Pos.iter xO m d) = Z.pos m * 2 ^ Z.pos d
  /\ Z.pos (digits2_pos (Pos.iter xO m d)) = Z.pos (digits2_pos m) + Z.pos d.
Proof.
  induction d as [|d IH] using Pos.peano_ind.
  - simpl. split; lia.
  - rewrite Pos.iter_succ. destruct IH as [IH1 IH2]. split.
    + rewrite Pos2Z.inj_xO, IH1, Pos2Z.inj_succ, Z.pow_succ_r by lia. ring.
    + cbn [digits2_pos]. rewrite Pos2Z.inj_succ, IH2, Pos2Z.inj_succ. lia.
Qed.

Lemma shl_align_spec (m : positive) (e e' : Z) :
  e' <= e ->
  Z.pos (fst (shl_align m e e')) = Z.pos m * 2 ^ (e - e')
  /\ snd (shl_align m e e') = e'
  /\ Z.pos (digits2_pos (fst (shl_align m e e'))) = Z.pos (digits2_pos m) + (e - e').
Proof.
  intros Hle. unfold shl_align. destruct (e' - e) as [|d|d] eqn:Ed; try lia.
  - assert (e' = e) by lia. subst e'. rewrite Z.sub_diag. simpl. lia.
  - assert (Hd : e - e' = Z.pos d) by lia. rewrite Hd. cbn [fst snd].
    destruct (iter_xO m d) as [H1 H2]. now rewrite H1, H2.
Qed.

Lemma shl_align_none (m : positive) (e e' : Z) :
  e <= e' -> shl_align m e e' = (m, e).
Proof. intros Hle. unfold shl_align. destruct (e' - e) eqn:Ed; try reflexivity. lia. Qed.

Lemma binary_round_W (sx : bool) (m : positive) (e : Z) :
  0 <= e + grain -> Z.pos (digits2_pos m) + e <= 900 ->
  representable (binary_round 53 1024 sx m e)
  /\ weight (binary_round 53 1024 sx m e) = signed sx (rndW m e).
Proof.
  intros He HA. unfold binary_round. rewrite fexp64.
  fold (target_exp m e).
  destruct (Z.le_gt_cases e (target_exp m e)) as [Hle|Hgt].
  - rewrite shl_align_none by exact Hle. now apply bra_W.
  - destruct (shl_align_spec m e (target_exp m e) ltac:(lia)) as (Hm & Hs & Hd).
    destruct (shl_align m e (target_exp m e)) as [mz ez]. cbn [fst snd] in *. subst ez.
    fold (bra sx mz (target_exp m e)).
    assert (HT : target_exp mz (target_exp m e) = target_exp m e).
    { unfold target_exp at 1. rewrite Hd. unfold target_exp. lia. }
    assert (HE : -1074 <= target_exp m e) by (unfold target_exp; lia).
    destruct (bra_W sx mz (target_exp m e)) as [Hsh Hw]; [unfold grain; lia|lia|].
    split; [exact Hsh|]. rewrite Hw. f_equal.
    unfold rndW, rnd_at. rewrite HT, Z.leb_refl.
    destruct (Z.leb_spec (target_exp m e) e); [|lia].
    rewrite Hm. rewrite W_shift by (unfold grain; lia). f_equal. lia.
Qed.

Lemma normalize_W (M e : Z) :
  0 <= e + grain -> Zdigits2 M + e <= 900 ->
  representable (binary_normalize 53 1024 M e false)
  /\ weight (binary_normalize 53 1024 M e false) = nearest (scaled M e).
Proof.
  intros He HA. destruct M as [|m|m]; cbn [binary_normalize Zdigits2] in *.
  - split; [exact I|]. reflexivity.
  - destruct (binary_round_W false m e He HA) as [Hs Hw]. split; [exact Hs|].
    rewrite Hw, RN_W by exact He. reflexivity.
  - destruct (binary_round_W true m e He HA) as [Hs Hw]. split; [exact Hs|].
    rewrite Hw. change (Z.neg m) with (- Z.pos m). rewrite W_opp, RN_opp, RN_W by exact He.
    reflexivity.
Qed.

(** ** The operations *)

Lemma W_add (a b e : Z) : scaled (a + b) e = scaled a e + scaled b e.
Proof. unfold scaled. ring. Qed.

Lemma W_sub (a b e : Z) : scaled (a - b) e = scaled a e - scaled b e.
Proof. unfold scaled. ring. Qed.

Lemma W_cond_Zopp (s : bool) (m e : Z) : scaled (cond_Zopp s m) e = signed s (scaled m e).
Proof. destruct s; cbn [cond_Zopp signed]; [apply W_opp|reflexivity]. Qed.

Lemma Zdigits2_le (M k : Z) : 0 <= k -> Z.abs M < 2 ^ k -> Zdigits2 M <= k.
Proof.
  intros Hk H. destruct M as [|p|p]; cbn [Zdigits2]; [lia| |]; apply digits_le; lia.
Qed.

Lemma aligned (s : bool) (m : positive) (e ez B : Z) :
  ez <= e -> -1074 <= ez -> Z.pos (digits2_pos m) + e <= B ->
  scaled (cond_Zopp s (Z.pos (fst (shl_align m e ez)))) ez = weight (S754_finite s m e)
  /\ Z.abs (cond_Zopp s (Z.pos (fst (shl_align m e ez)))) < 2 ^ (B - ez).
Proof.
  intros Hle Hez HB.
  destruct (shl_align_spec m e ez Hle) as (Hm & _ & Hd).
  split.
  - rewrite W_cond_Zopp, Wf_finite, Hm, W_shift by (unfold grain; lia).
    do 2 f_equal. lia.
  - assert (Z.pos (fst (shl_align m e ez)) < 2 ^ (B - ez)).
    { destruct (digits_bounds (fst (shl_align m e ez))) as [_ Hhi].
      eapply Z.lt_le_trans; [exact Hhi|]. apply Z.pow_le_mono_r; lia. }
    destruct s; cbn [cond_Zopp]; lia.
Qed.

Lemma add_spec (B : Z) (x y : spec_float) :
  B <= 800 -> finite_below B x -> finite_below B y ->
  representable (SFadd 53 1024 x y)
  /\ weight (SFadd 53 1024 x y) = nearest (weight x + weight y).
Proof.
  intros HB Hx Hy.
  destruct x as [sx|sx| |sx mx ex]; try contradiction;
    destruct y as [sy|sy| |sy my ey]; try contradiction.
  - split; [destruct sx, sy; exact I|]. destruct sx, sy; reflexivity.
  - cbn [SFadd]. split; [exact (fin_shape B _ Hy)|].
    change (weight (S754_zero sx)) with 0. rewrite Z.add_0_l. symmetry. exact (RN_fin B _ Hy).
  - cbn [SFadd]. split; [exact (fin_shape B _ Hx)|].
    change (weight (S754_zero sy)) with 0. rewrite Z.add_0_r. symmetry. exact (RN_fin B _ Hx).
  - cbn [SFadd]. cbn [finite_below] in Hx, Hy. destruct Hx as (Hdx & Hex & HAx), Hy as (Hdy & Hey & HAy).
    set (ez := Z.min ex ey).
    destruct (aligned sx mx ex ez B) as [Wx Ax]; try lia.
    destruct (aligned sy my ey ez B) as [Wy Ay]; try lia.
    set (Mx := cond_Zopp sx (Z.pos (fst (shl_align mx ex ez)))) in *.
    set (My := cond_Zopp sy (Z.pos (fst (shl_align my ey ez)))) in *.
    destruct (normalize_W (Mx + My) ez) as [Hs Hw]; [unfold grain; lia| |].
    + assert (Zdigits2 (Mx + My) <= B - ez + 1); [|lia].
      apply Zdigits2_le; [lia|].
      replace (B - ez + 1) with (Z.succ (B - ez)) by lia. rewrite Z.pow_succ_r by lia. lia.
    + split; [exact Hs|]. now rewrite Hw, W_add, Wx, Wy.
Qed.

Lemma sub_spec (B : Z) (x y : spec_float) :
  B <= 800 -> finite_below B x -> finite_below B y ->
  representable (SFsub 53 1024 x y)
  /\ weight (SFsub 53 1024 x y) = nearest (weight x - weight y).
Proof.
  intros HB Hx Hy.
  destruct x as [sx|sx| |sx mx ex]; try contradiction;
    destruct y as [sy|sy| |sy my ey]; try contradiction.
  - split; [destruct sx, sy; exact I|]. destruct sx, sy; reflexivity.
  - cbn [SFsub]. split; [exact (fin_shape B _ Hy)|].
    change (weight (S754_zero sx)) with 0. rewrite Z.sub_0_l, RN_opp, (RN_fin B _ Hy).
    rewrite !Wf_finite. destruct sy; cbn [negb signed]; lia.
  - cbn [SFsub]. split; [exact (fin_shape B _ Hx)|].
    change (weight (S754_zero sy)) with 0. rewrite Z.sub_0_r. symmetry. exact (RN_fin B _ Hx).
  - cbn [SFsub]. cbn [finite_below] in Hx, Hy. destruct Hx as (Hdx & Hex & HAx), Hy as (Hdy & Hey & HAy).
    set (ez := Z.min ex ey).
    destruct (aligned sx mx ex ez B) as [Wx Ax]; try lia.
    destruct (aligned sy my ey ez B) as [Wy Ay]; try lia.
    set (Mx := cond_Zopp sx (Z.pos (fst (shl_align mx ex ez)))) in *.
    set (My := cond_Zopp sy (Z.pos (fst (shl_align my ey ez)))) in *.
    destruct (normalize_W (Mx - My) ez) as [Hs Hw]; [unfold grain; lia| |].
    + assert (Zdigits2 (Mx - My) <= B - ez + 1); [|lia].
      apply Zdigits2_le; [lia|].
      replace (B - ez + 1) with (Z.succ (B - ez)) by lia. rewrite Z.pow_succ_r by lia. lia.
    + split; [exact Hs|]. now rewrite Hw, W_sub, Wx, Wy.
Qed.

Lemma digits_mul (a b : positive) :
  Z.pos (digits2_pos (a * b)) <= Z.pos (digits2_pos a) + Z.pos (digits2_pos b).
Proof.
  apply digits_le. rewrite Pos2Z.inj_mul, pow2_split by lia.
  destruct (digits_bounds a) as [_ Ha]. destruct (digits_bounds b) as [_ Hb]. nia.
Qed.

Lemma signed_mul (s t : bool) (a b : Z) :
  signed s a * signed t b = signed (xorb s t) (a * b).
Proof. destruct s, t; cbn [signed xorb]; ring. Qed.

Lemma signed_div (s : bool) (a b : Z) : 0 < b -> signed s (a * b) / b = signed s a.
Proof.
  intros Hb. destruct s; cbn [signed].
  - replace (- (a * b)) with (- a * b) by ring. apply Z.div_mul. lia.
  - apply Z.div_mul. lia.
Qed.

Lemma W_mul (a b ea eb : Z) :
  0 <= ea + grain -> 0 <= eb + grain -> 0 <= ea + eb + grain ->
  scaled a ea * scaled b eb = scaled (a * b) (ea + eb) * 2 ^ grain.
Proof.
  intros Ha Hb Hab. unfold scaled.
  replace (a * 2 ^ (ea + grain) * (b * 2 ^ (eb + grain)))
    with (a * b * (2 ^ (ea + grain) * 2 ^ (eb + grain))) by ring.
  rewrite <- pow2_split by lia.
  replace (a * b * 2 ^ (ea + eb + grain) * 2 ^ grain)
    with (a * b * (2 ^ (ea + eb + grain) * 2 ^ grain)) by ring.
  rewrite <- pow2_split by (unfold grain in *; lia).
  do 2 f_equal. lia.
Qed.

Lemma mul_spec (B : Z) (x y : spec_float) :
  B <= 400 -> finite_below B x -> finite_below B y ->
  representable (SFmul 53 1024 x y)
  /\ weight (SFmul 53 1024 x y) = nearest (weight x * weight y / 2 ^ grain).
Proof.
  intros HB Hx Hy.
  destruct x as [sx|sx| |sx mx ex]; try contradiction;
    destruct y as [sy|sy| |sy my ey]; try contradiction.
  - split; [exact I|reflexivity].
  - split; [exact I|reflexivity].
  - split; [exact I|]. change (weight (S754_zero sy)) with 0. now rewrite Z.mul_0_r.
  - cbn [SFmul]. cbn [finite_below] in Hx, Hy. destruct Hx as (Hdx & Hex & HAx), Hy as (Hdy & Hey & HAy).
    fold (bra (xorb sx sy) (mx * my) (ex + ey)).
    pose proof (digits_mul mx my) as Hd.
    destruct (bra_W (xorb sx sy) (mx * my) (ex + ey)) as [Hs Hw];
      [unfold grain; lia|lia|].
    split; [exact Hs|]. rewrite Hw, !Wf_finite, signed_mul.
    rewrite W_mul by (unfold grain; lia). rewrite <- Pos2Z.inj_mul.
    rewrite signed_div by (apply pow2_pos; unfold grain; lia).
    destruct (xorb sx sy); cbn [signed].
    + rewrite RN_opp, RN_W by (unfold grain; lia). reflexivity.
    + rewrite RN_W by (unfold grain; lia). reflexivity.
Qed.

(** ** Bounds *)

Lemma W_pow_le_inv (a b : Z) : 0 <= a + grain -> 0 <= b + grain -> scaled 1 a <= scaled 1 b -> a <= b.
Proof.
  unfold scaled. rewrite !Z.mul_1_l. intros Ha Hb H.
  destruct (Z.le_gt_cases a b) as [Hle|Hgt]; [exact Hle|].
  exfalso. assert (2 ^ (b + grain) < 2 ^ (a + grain)) by (apply Z.pow_lt_mono_r; lia). lia.
Qed.

Lemma fin_bound (B : Z) (x : spec_float) :
  0 <= B + grain -> finite_below B x -> Z.abs (weight x) < scaled 1 B.
Proof.
  intros HB. destruct x as [s|s| |s m e]; cbn [finite_below]; try tauto.
  - intros _. cbn [weight]. unfold scaled. pose proof (pow2_pos (B + grain) HB). simpl Z.abs. lia.
  - intros (Hd & He & HA). rewrite Wf_finite.
    destruct (magnitude m e) as [_ Hhi]; [unfold grain; lia|].
    pose proof (W_pos m e ltac:(unfold grain; lia)).
    assert (scaled 1 (Z.pos (digits2_pos m) + e) <= scaled 1 B)
      by (apply W_pow_le; [unfold grain; lia|lia]).
    destruct s; cbn [signed]; lia.
Qed.

Lemma shape_fin (k : Z) (x : spec_float) :
  0 <= k + grain -> representable x -> Z.abs (weight x) <= scaled 1 k -> finite_below (k + 1) x.
Proof.
  intros Hk. destruct x as [s|s| |s m e]; cbn [representable finite_below]; try tauto.
  intros (Hd & He). rewrite Wf_finite. intros Hle.
  split; [exact Hd|]. split; [exact He|].
  destruct (magnitude m e) as [Hlo _]; [unfold grain; lia|].
  pose proof (W_pos m e ltac:(unfold grain; lia)).
  assert (Hw : scaled 1 (Z.pos (digits2_pos m) + e - 1) <= scaled 1 k)
    by (destruct s; cbn [signed] in Hle; lia).
  apply W_pow_le_inv in Hw; unfold grain in *; lia.
Qed.

Lemma RN_abs (v P : Z) (B : Z) (p : spec_float) :
  finite_below B p -> weight p = P -> Z.abs v <= P -> Z.abs (nearest v) <= P.
Proof.
  intros Hp HP Hv.
  pose proof (RN_fin B p Hp) as Hr. rewrite HP in Hr.
  pose proof (RN_mono v P ltac:(lia)) as H1.
  pose proof (RN_mono (- P) v ltac:(lia)) as H2.
  rewrite RN_opp in H2. lia.
Qed.

Lemma RN_zero : nearest 0 = 0.
Proof. reflexivity. Qed.

Lemma shape_grid (x : spec_float) : representable x -> exists n, weight x = n * 2 ^ 1126.
Proof.
  destruct x as [s|s| |s m e]; cbn [representable]; try tauto.
  - intros _. exists 0. reflexivity.
  - intros (_ & He). rewrite Wf_finite. exists (signed s (Z.pos m * 2 ^ (e + 1074))).
    unfold scaled. replace (e + grain) with (e + 1074 + 1126) by (unfold grain; lia).
    rewrite pow2_split by lia. destruct s; cbn [signed]; ring.
Qed.

Lemma W_pow_lt_inv (a b : Z) : 0 <= a + grain -> 0 <= b + grain -> scaled 1 a < scaled 1 b -> a < b.
Proof.
  unfold scaled. rewrite !Z.mul_1_l. intros Ha Hb H.
  destruct (Z.lt_ge_cases a b) as [Hlt|Hge]; [exact Hlt|].
  exfalso. assert (2 ^ (b + grain) <= 2 ^ (a + grain)) by (apply Z.pow_le_mono_r; lia). lia.
Qed.

Lemma shape_fin_lt (B : Z) (x : spec_float) :
  0 <= B + grain -> representable x -> Z.abs (weight x) < scaled 1 B -> finite_below B x.
Proof.
  intros HB. destruct x as [s|s| |s m e]; cbn [representable finite_below]; try tauto.
  intros (Hd & He). rewrite Wf_finite. intros Hlt.
  split; [exact Hd|]. split; [exact He|].
  destruct (magnitude m e) as [Hlo _]; [unfold grain; lia|].
  pose proof (W_pos m e ltac:(unfold grain; lia)).
  assert (Hw : scaled 1 (Z.pos (digits2_pos m) + e - 1) < scaled 1 B)
    by (destruct s; cbn [signed] in Hlt; lia).
  apply W_pow_lt_inv in Hw; unfold grain in *; lia.
Qed.

Lemma W_one (k : Z) : scaled 1 k = 2 ^ (k + grain).
Proof. unfold scaled. lia. Qed.

Lemma checked : forallb target_check (seq 0 (Z.to_nat 8161)) = true.
Proof. vm_compute. reflexivity. Qed.

Lemma normal_fin (x : spec_float) :
  normal x = true ->
  exists m e, x = S754_finite false m e /\ Z.pos (digits2_pos m) = 53 /\ -1074 <= e.
Proof.
  destruct x as [s|s| |[|] m e]; try discriminate. cbn [normal].
  intros H. apply andb_true_iff in H as [Hd He].
  apply Pos.eqb_eq in Hd. apply Z.leb_le in He.
  exists m, e. repeat split; [now rewrite Hd|exact He].
Qed.

Lemma leb_normal_le (x y : spec_float) :
  normal x = true -> normal y = true -> leb_normal x y = true -> weight x <= weight y.
Proof.
  intros Hx Hy.
  destruct (normal_fin x Hx) as (m1 & e1 & -> & Hd1 & He1).
  destruct (normal_fin y Hy) as (m2 & e2 & -> & Hd2 & He2).
  cbn [leb_normal]. rewrite !Wf_finite. cbn [signed]. intros H.
  apply orb_true_iff in H as [H|H].
  - apply Z.ltb_lt in H.
    destruct (magnitude m1 e1) as [_ Hhi]; [unfold grain; lia|].
    destruct (magnitude m2 e2) as [Hlo _]; [unfold grain; lia|].
    assert (scaled 1 (Z.pos (digits2_pos m1) + e1) <= scaled 1 (Z.pos (digits2_pos m2) + e2 - 1))
      by (apply W_pow_le; unfold grain; lia).
    lia.
  - apply andb_true_iff in H as [He Hm]. apply Z.eqb_eq in He. apply Pos.leb_le in Hm.
    subst e2. apply W_le; [unfold grain; lia|]. now apply Pos2Z.pos_le_pos.
Qed.

Lemma check_spec (total : Z) :
  0 <= total <= 8160 -> target_check (Z.to_nat total) = true.
Proof.
  intros H. pose proof checked as Hall. rewrite forallb_forall in Hall.
  apply Hall. apply in_seq. lia.
Qed.

Lemma normal_one : normal (Number.of_Z 1) = true.
Proof. reflexivity. Qed.

Lemma mean_exact_spec (total : Z) (avg : spec_float) :
  mean_exact total avg = true -> weight avg * 32 = scaled total 0.
Proof.
  destruct avg as [s|s| |[|] m e]; try discriminate; cbn [mean_exact].
  - intros H. apply Z.eqb_eq in H. subst total. reflexivity.
  - intros H. apply andb_true_iff in H as [He H].
    apply Z.leb_le in He. apply Z.eqb_eq in H.
    rewrite Wf_finite. cbn [signed]. unfold scaled.
    replace (e + grain) with (e + 60 + (grain - 60)) by lia.
    replace (0 + grain) with (60 + (grain - 60)) by lia.
    rewrite (pow2_split (e + 60) (grain - 60)), (pow2_split 60 (grain - 60))
      by (unfold grain; lia).
    replace (Z.pos m * (2 ^ (e + 60) * 2 ^ (grain - 60)) * 32)
      with (Z.pos m * 2 ^ (e + 60) * 32 * 2 ^ (grain - 60)) by ring.
    rewrite H. ring.
Qed.

Lemma target_facts (total : Z) :
  0 <= total <= 8160 ->
  let t := target_of total in
  let t' := target_of (total + 1) in
  normal t = true /\ normal t' = true /\ finite_below 2 t
  /\ scaled 1 0 <= weight t /\ weight t <= weight t'
  /\ weight (Number.div (Number.of_Z total) (Number.of_Z 32)) * 32 = scaled total 0.
Proof.
  intros H t t'. pose proof (check_spec total H) as Hc. unfold target_check in Hc.
  rewrite Z2Nat.id in Hc by lia. fold t t' in Hc.
  repeat (apply andb_true_iff in Hc as [Hc ?]).
  rename H0 into Hexp, H1 into Hmean, H2 into Hnext, H3 into Hone, H4 into Hn'.
  split; [exact Hc|]. split; [exact Hn'|]. split; [|split; [|split]].
  - destruct (normal_fin t Hc) as (m & e & Et & Hd & He). rewrite Et in *.
    apply Z.leb_le in Hexp. cbn [finite_below]. lia.
  - rewrite <- (leb_normal_le (Number.of_Z 1) t normal_one Hc Hone). reflexivity.
  - exact (leb_normal_le t t' Hc Hn' Hnext).
  - exact (mean_exact_spec total _ Hmean).
Qed.

Lemma target_mono (k1 k2 : Z) :
  0 <= k1 -> k1 <= k2 -> k2 <= 8160 -> weight (target_of k1) <= weight (target_of k2).
Proof.
  intros H1 H12 H2.
  replace k2 with (k1 + Z.of_nat (Z.to_nat (k2 - k1))) by lia.
  assert (Hn : k1 + Z.of_nat (Z.to_nat (k2 - k1)) <= 8160) by lia.
  induction (Z.to_nat (k2 - k1)) as [|n IH].
  - rewrite Z.add_0_r. lia.
  - rewrite Nat2Z.inj_succ in *.
    destruct (target_facts (k1 + Z.of_nat n)) as (_ & _ & _ & _ & Hstep & _); [lia|].
    replace (k1 + Z.succ (Z.of_nat n)) with (k1 + Z.of_nat n + 1) by lia.
    specialize (IH ltac:(lia)). lia.
Qed.

(** ** The smoothing step *)

Lemma C_facts : 0 <= fifth /\ 4 * fifth <= 2 ^ grain /\ exists mc, fifth = mc * 2 ^ 1074.
Proof.
  split; [|split].
  - vm_compute. discriminate.
  - vm_compute. discriminate.
  - exists (7205759403792794 * 2 ^ 1071). vm_compute. reflexivity.
Qed.

Lemma fin_n0_2 : finite_below 4 (Number.tenths 2).
Proof. vm_compute. repeat split; discriminate. Qed.

Lemma pow_float (k : Z) :
  -1074 <= k -> finite_below (k + 1) (S754_finite false 1 k) /\ weight (S754_finite false 1 k) = 2 ^ (k + grain).
Proof.
  intros Hk. split; [cbn [finite_below digits2_pos]; lia|]. rewrite Wf_finite. cbn [signed]. apply W_one.
Qed.

Lemma RN_pow (k : Z) : 1126 <= k -> nearest (2 ^ k) = 2 ^ k.
Proof.
  intros Hk. destruct (pow_float (k - grain)) as [Hf Hw]; [unfold grain; lia|].
  replace (k - grain + grain) with k in Hw by lia.
  rewrite <- Hw. apply (RN_fin _ _ Hf).
Qed.

Lemma RN_tiny : nearest (2 ^ 1125) = 0.
Proof. vm_compute. reflexivity. Qed.

Lemma scaled_le (a : Z) : Z.abs (a * fifth / 2 ^ grain) <= Z.abs a.
Proof.
  destruct C_facts as (C0 & C4 & _).
  assert (HK : 0 < 2 ^ grain) by (apply pow2_pos; unfold grain; lia).
  destruct (Z.le_gt_cases 0 a) as [Ha|Ha].
  - assert (0 <= a * fifth / 2 ^ grain) by (apply Z.div_pos; nia).
    assert (a * fifth / 2 ^ grain <= a).
    { apply Z.div_le_upper_bound; [exact HK|]. nia. }
    lia.
  - assert (a * fifth / 2 ^ grain <= 0).
    { apply Z.div_le_upper_bound; [exact HK|]. nia. }
    assert (a <= a * fifth / 2 ^ grain).
    { apply Z.div_le_lower_bound; [exact HK|]. nia. }
    lia.
Qed.

Lemma damp (d : Z) :
  0 < d -> (exists n, d = n * 2 ^ 1126) -> 0 <= nearest (nearest d * fifth / 2 ^ grain) <= d.
Proof.
  intros Hd [n Hn].
  destruct C_facts as (C0 & C4 & _).
  assert (HK : 0 < 2 ^ grain) by (apply pow2_pos; unfold grain; lia).
  assert (Hx0 : 0 <= nearest d) by (apply RN_nonneg; lia).
  split.
  - apply RN_nonneg. apply Z.div_pos; nia.
  - destruct d as [|p|p]; try lia.
    destruct (digits_bounds p) as [Hlo Hhi].
    set (D := Z.pos (digits2_pos p)) in *.
    assert (HD : 1126 < D).
    { apply digits_ge; [lia|]. assert (1 <= n) by nia. nia. }
    assert (Hx : nearest (Z.pos p) <= 2 ^ D).
    { rewrite <- (RN_pow D) by lia. apply RN_mono. lia. }
    assert (Hq : nearest (Z.pos p) * fifth / 2 ^ grain <= 2 ^ (D - 2)).
    { apply Z.div_le_upper_bound; [exact HK|].
      assert (2 ^ D = 4 * 2 ^ (D - 2)).
      { replace D with (2 + (D - 2)) at 1 by lia. rewrite pow2_split by lia. reflexivity. }
      assert (0 < 2 ^ (D - 2)) by (apply pow2_pos; lia). nia. }
    apply RN_mono in Hq.
    destruct (Z.eq_dec D 1127) as [E|E].
    + rewrite E in Hq. change (1127 - 2) with 1125 in Hq. rewrite RN_tiny in Hq. lia.
    + rewrite RN_pow in Hq by lia.
      assert (2 ^ (D - 2) <= 2 ^ (D - 1)) by (apply Z.pow_le_mono_r; lia). lia.
Qed.

Lemma float8 : finite_below 4 (S754_finite false 1 3) /\ weight (S754_finite false 1 3) = scaled 1 3.
Proof. split; [cbn [finite_below digits2_pos]; lia|]. now rewrite Wf_finite. Qed.

Lemma smooth_spec (s t : Number.t) :
  finite_below 2 s -> finite_below 2 t ->
  exists x y : spec_float,
    representable x /\ weight x = nearest (weight t - weight s)
    /\ representable y /\ weight y = nearest (weight x * fifth / 2 ^ grain)
    /\ representable (smooth s t) /\ weight (smooth s t) = nearest (weight s + weight y).
Proof.
  intros Hs Ht.
  pose proof (fin_bound 2 s ltac:(unfold grain; lia) Hs) as Bs.
  pose proof (fin_bound 2 t ltac:(unfold grain; lia) Ht) as Bt.
  assert (H23 : 2 * scaled 1 2 = scaled 1 3).
  { rewrite !W_one. replace (3 + grain) with (1 + (2 + grain)) by lia.
    rewrite pow2_split by (unfold grain; lia). reflexivity. }
  destruct float8 as [F8 W8].
  destruct (sub_spec 2 t s ltac:(lia) Ht Hs) as [Sx Wx].
  assert (Fx : finite_below 4 (Number.sub t s)).
  { apply (shape_fin 3); [unfold grain; lia|exact Sx|].
    unfold Number.sub. rewrite Wx. apply (RN_abs _ _ 4 _ F8 W8). lia. }
  destruct (mul_spec 4 (Number.sub t s) (Number.tenths 2) ltac:(lia) Fx fin_n0_2) as [Sy Wy].
  fold fifth in Wy.
  assert (Fy : finite_below 4 (Number.mul (Number.sub t s) (Number.tenths 2))).
  { apply (shape_fin 3); [unfold grain; lia|exact Sy|].
    unfold Number.mul. rewrite Wy. apply (RN_abs _ _ 4 _ F8 W8).
    pose proof (scaled_le (weight (SFsub 53 1024 t s))) as Hsc.
    pose proof (fin_bound 4 _ ltac:(unfold grain; lia) Fx) as Bx.
    assert (scaled 1 4 = 2 * scaled 1 3).
    { rewrite !W_one. replace (4 + grain) with (1 + (3 + grain)) by lia.
      rewrite pow2_split by (unfold grain; lia). reflexivity. }
    unfold Number.sub in *. rewrite Wx in *.
    assert (Z.abs (nearest (weight t - weight s)) <= scaled 1 3)
      by (apply (RN_abs _ _ 4 _ F8 W8); lia).
    lia. }
  destruct (add_spec 4 s (Number.mul (Number.sub t s) (Number.tenths 2)) ltac:(lia)
              (fin_more 2 4 s ltac:(lia) Hs) Fy) as [Ss Ws].
  exists (Number.sub t s), (Number.mul (Number.sub t s) (Number.tenths 2)).
  repeat split; assumption.
Qed.

Lemma smooth_mono (s t1 t2 : Number.t) :
  finite_below 2 s -> finite_below 2 t1 -> finite_below 2 t2 ->
  weight t1 <= weight t2 -> weight (smooth s t1) <= weight (smooth s t2).
Proof.
  intros Hs H1 H2 Hle.
  destruct (smooth_spec s t1 Hs H1) as (x1 & y1 & _ & Wx1 & _ & Wy1 & _ & W1).
  destruct (smooth_spec s t2 Hs H2) as (x2 & y2 & _ & Wx2 & _ & Wy2 & _ & W2).
  destruct C_facts as (C0 & _).
  assert (HK : 0 < 2 ^ grain) by (apply pow2_pos; unfold grain; lia).
  rewrite W1, W2. apply RN_mono.
  assert (weight y1 <= weight y2); [|lia].
  rewrite Wy1, Wy2. apply RN_mono. apply Z.div_le_mono; [exact HK|].
  apply Z.mul_le_mono_nonneg_r; [exact C0|].
  rewrite Wx1, Wx2. apply RN_mono. lia.
Qed.

Lemma smooth_between (s t : Number.t) :
  finite_below 2 s -> finite_below 2 t ->
  representable (smooth s t)
  /\ Z.min (weight s) (weight t) <= weight (smooth s t) <= Z.max (weight s) (weight t).
Proof.
  intros Hs Ht.
  destruct (smooth_spec s t Hs Ht) as (x & y & Sx & Wx & Sy & Wy & Ss & Ws).
  split; [exact Ss|].
  destruct (shape_grid s (fin_shape _ _ Hs)) as [ns Gs].
  destruct (shape_grid t (fin_shape _ _ Ht)) as [nt Gt].
  destruct (shape_grid x Sx) as [nx Gx].
  destruct C_facts as (C0 & C4 & mc & HC).
  assert (HK : 0 < 2 ^ grain) by (apply pow2_pos; unfold grain; lia).
  pose proof (RN_fin 2 s Hs) as Rs. pose proof (RN_fin 2 t Ht) as Rt.
  assert (Hy : (0 <= weight t - weight s -> 0 <= weight y <= weight t - weight s)
               /\ (weight t - weight s <= 0 -> weight t - weight s <= weight y <= 0)).
  { split; intros Hd.
    - destruct (Z.eq_dec (weight t - weight s) 0) as [E|E].
      + rewrite Wy, Wx, E. cbn. lia.
      + rewrite Wy, Wx. apply damp; [lia|]. exists (nt - ns). rewrite Gs, Gt. ring.
    - destruct (Z.eq_dec (weight t - weight s) 0) as [E|E].
      + rewrite Wy, Wx, E. cbn. lia.
      + destruct (damp (weight s - weight t)) as [D0 D1]; [lia| |].
        { exists (ns - nt). rewrite Gs, Gt. ring. }
        assert (Ex : weight x = - nearest (weight s - weight t)).
        { rewrite Wx, <- RN_opp. f_equal. lia. }
        assert (Eq : weight x * fifth / 2 ^ grain = - (nearest (weight s - weight t) * fifth / 2 ^ grain)).
        { assert (Hg : nearest (weight s - weight t) = (- nx) * 2 ^ 1126) by (rewrite Gx in Ex; lia).
          assert (H2K : 2 ^ grain = 2 ^ 1126 * 2 ^ 1074).
          { unfold grain. rewrite <- pow2_split by lia. reflexivity. }
          rewrite Ex, Hg, HC.
          replace (- (- nx * 2 ^ 1126) * (mc * 2 ^ 1074)) with (nx * mc * 2 ^ grain)
            by (rewrite H2K; ring).
          replace (- nx * 2 ^ 1126 * (mc * 2 ^ 1074)) with (- nx * mc * 2 ^ grain)
            by (rewrite H2K; ring).
          rewrite !Z.div_mul by lia. ring. }
        rewrite Wy, Eq, RN_opp. lia. }
  destruct Hy as [Hup Hdown].
  destruct (Z.le_gt_cases 0 (weight t - weight s)) as [Hd|Hd].
  - specialize (Hup Hd).
    assert (weight s <= nearest (weight s + weight y)) by (rewrite <- Rs at 1; apply RN_mono; lia).
    assert (nearest (weight s + weight y) <= weight t) by (rewrite <- Rt; apply RN_mono; lia).
    rewrite Ws. lia.
  - specialize (Hdown ltac:(lia)).
    assert (nearest (weight s + weight y) <= weight s) by (rewrite <- Rs at 2; apply RN_mono; lia).
    assert (weight t <= nearest (weight s + weight y)) by (rewrite <- Rt at 1; apply RN_mono; lia).
    rewrite Ws. lia.
Qed.

End RoundingProperties.

(** ** The avatar follows the volume *)

(** The literals of [animateAvatar]: 0.7 and 0.2 denote the Numbers nearest
    to 7/10 and 2/10, within half a unit of the last of their 53 digits. *)
Example literal_0_7 :
  Number.tenths 7 = S754_finite false 6305039478318694 (-53)
  /\ (Z.abs (10 * 6305039478318694 - 7 * 2 ^ 53) <= 5)%Z.
Proof. split; [vm_compute; reflexivity|vm_compute; discriminate]. Qed.

Example literal_0_2 :
  Number.tenths 2 = S754_finite false 7205759403792794 (-55)
  /\ (Z.abs (10 * 7205759403792794 - 2 * 2 ^ 55) <= 5)%Z.
Proof. split; [vm_compute; reflexivity|vm_compute; discriminate]. Qed.

Example literal_128 : Number.of_Z 128 = S754_finite false 4503599627370496 (-45).
Proof. vm_compute. reflexivity. Qed.

Lemma byte_value_bounds (b : byte) : (0 <= Voice.byte_value b <= 255)%Z.
Proof.
  unfold Voice.byte_value. pose proof (Byte.to_N_bounded b). lia.
Qed.

Lemma sum_of_bounds (bins : list byte) :
  (0 <= sum_of bins <= 255 * Z.of_nat (List.length bins))%Z.
Proof.
  unfold sum_of.
  induction bins as [|b bins IH]; simpl List.length; simpl fold_right; [lia|].
  pose proof (byte_value_bounds b). lia.
Qed.

Lemma getByteFrequencyData_all (data array : list byte) :
  List.length data = List.length array ->
  Voice.getByteFrequencyData data array = data.
Proof.
  intros H. unfold Voice.getByteFrequencyData.
  rewrite <- H, firstn_all, H, skipn_all. apply app_nil_r.
Qed.

Lemma animateAvatar_active (st : Voice.state) (data : list byte) (sc : Voice.scale) :
  Voice.analyser st = Some data ->
  Voice.avatar st = Some sc ->
  Voice.getByteFrequencyData data (Voice.audioDataArray st) <> [] ->
  let bins := Voice.getByteFrequencyData data (Voice.audioDataArray st) in
  let avg :=
    Number.div (Number.of_Z (sum_of bins)) (Number.of_Z (Z.of_nat (List.length bins))) in
  let volume := smooth (Voice.smoothedVolume st) (targetScale avg) in
  exists st',
    Voice.animateAvatar st = Voice.Returned st'
    /\ Voice.audioDataArray st' = bins
    /\ Voice.smoothedVolume st' = volume
    /\ Voice.avatar st' = Some (volume, volume, volume)
    /\ Voice.trace st' = Voice.trace st ++ [Render]
    /\ Voice.pending st' = Voice.pending st ++ [Voice.NextFrame].
Proof.
  intros Han Hav Hne bins avg volume.
  unfold Voice.animateAvatar. simpl. rewrite Han, Hav. simpl.
  rewrite (reduce_sum_spec _ Hne). simpl. eexists. split; [reflexivity|].
  repeat split.
Qed.

(** The value of a Number of binary64, in the two units. *)
Lemma weight_ulps (x : Number.t) :
  representable x -> weight x = (Number.ulps x * 2 ^ 1126)%Z.
Proof.
  destruct x as [s|s| |s m e]; cbn [representable]; try tauto; try reflexivity.
  intros (_ & He). cbn [weight Number.ulps]. unfold scaled, grain.
  replace (e + 2200)%Z with (e + 1074 + 1126)%Z by lia.
  rewrite Z.pow_add_r by lia. ring.
Qed.

Lemma to_Q_le (x y : Number.t) :
  representable x -> representable y ->
  ((Number.to_Q x <= Number.to_Q y)%Q <-> (weight x <= weight y)%Z).
Proof.
  intros Hx Hy. rewrite (weight_ulps x Hx), (weight_ulps y Hy).
  unfold Number.to_Q, Qle. cbn [Qnum Qden].
  assert (0 < 2 ^ 1126)%Z by (apply Z.pow_pos_nonneg; lia).
  assert (0 < Z.pos (2 ^ 1074))%Z by lia.
  split; intros; nia.
Qed.

Lemma mean_exact_Q (total : Z) (avg : Number.t) :
  mean_exact total avg = true ->
  (Number.to_Q avg == inject_Z total / inject_Z 32)%Q.
Proof.
  intros H.
  assert (E : (Number.ulps avg * 32 = total * 2 ^ 1074)%Z).
  { destruct avg as [s|s| |[|] m e]; try discriminate; cbn [mean_exact] in H.
    - apply Z.eqb_eq in H. subst total. reflexivity.
    - apply andb_true_iff in H as [He H]. apply Z.leb_le in He. apply Z.eqb_eq in H.
      cbn [Number.ulps].
      replace (e + 1074)%Z with (e + 60 + 1014)%Z by lia.
      replace 1074%Z with (60 + 1014)%Z at 2 by lia.
      rewrite !Z.pow_add_r by lia.
      replace (Z.pos m * (2 ^ (e + 60) * 2 ^ 1014) * 32)%Z
        with (Z.pos m * 2 ^ (e + 60) * 32 * 2 ^ 1014)%Z by ring.
      rewrite H. ring. }
  unfold Qdiv. change (/ inject_Z 32)%Q with (1 # 32)%Q.
  unfold Qeq, Qmult, inject_Z, Number.to_Q. cbn [Qnum Qden].
  rewrite Pos2Z.inj_mul, Pos2Z.inj_pow. change (Z.pos 1) with 1%Z.
  change (Z.pos 32) with 32%Z. change (Z.pos 2) with 2%Z. change (Z.pos 1074) with 1074%Z.
  lia.
Qed.

Lemma target_mean_exact (total : Z) :
  (0 <= total <= 8160)%Z ->
  mean_exact total (Number.div (Number.of_Z total) (Number.of_Z 32)) = true.
Proof.
  intros H. pose proof (check_spec total H) as Hc. unfold target_check in Hc.
  rewrite Z2Nat.id in Hc by lia.
  repeat (apply andb_true_iff in Hc as [Hc ?]). assumption.
Qed.

Lemma in_range_zero : in_range (Number.of_Z 0).
Proof.
  split; [exact I|]. split; [reflexivity|].
  change (weight (Number.of_Z 0)) with 0%Z.
  destruct (target_facts 8160 ltac:(lia)) as (_ & _ & _ & H & _).
  unfold largest_scale. pose proof (W_pos 1 0 ltac:(unfold grain; lia)).
  lia.
Qed.

Lemma in_range_target (total : Z) :
  (0 <= total <= 8160)%Z ->
  finite_below 2 (target_of total)
  /\ (0 <= weight (target_of total) <= weight largest_scale)%Z.
Proof.
  intros H.
  destruct (target_facts total H) as (_ & _ & Hf & H1 & _).
  split; [exact Hf|]. split.
  - pose proof (W_pos 1 0 ltac:(unfold grain; lia)). lia.
  - apply target_mono; lia.
Qed.

Lemma in_range_smooth (s : Number.t) (total : Z) :
  in_range s -> (0 <= total <= 8160)%Z -> in_range (smooth s (target_of total)).
Proof.
  intros [Hs Hw] Ht.
  destruct (in_range_target total Ht) as [Hf Hb].
  destruct (smooth_between s (target_of total) Hs Hf) as [Hr Hbetween].
  destruct (in_range_target 8160 ltac:(lia)) as [Hl _].
  pose proof (fin_bound 2 _ ltac:(unfold grain; lia) Hl) as Hlt.
  fold largest_scale in Hlt.
  split.
  - apply shape_fin_lt; [unfold grain; lia|exact Hr|]. lia.
  - lia.
Qed.

(** Frames keep the volume in range: with an analyser the array has 32
    bins, whose sum is at most 8160. *)
Lemma animateAvatar_bounded (st : Voice.state) :
  avatar_ready st -> avatar_in_bounds st ->
  exists st', Voice.animateAvatar st = Voice.Returned st' /\ avatar_in_bounds st'.
Proof.
  intros [Hlen _] [Hs Hav].
  destruct (Voice.analyser st) as [data|] eqn:Han.
  2:{ unfold Voice.animateAvatar. simpl. rewrite Han. eexists.
      split; [reflexivity|]. split; assumption. }
  destruct (Voice.avatar st) as [sc|] eqn:Hsc.
  2:{ unfold Voice.animateAvatar. simpl. rewrite Han, Hsc. eexists.
      split; [reflexivity|]. split; simpl; [assumption|now left]. }
  assert (Hl : List.length (Voice.getByteFrequencyData data (Voice.audioDataArray st))
               = Voice.frequencyBinCount).
  { rewrite getByteFrequencyData_length. apply Hlen. discriminate. }
  destruct (animateAvatar_active st data sc Han Hsc) as (st' & Hst' & _ & Hv & Ha & _).
  { intros E. rewrite E in Hl. discriminate. }
  cbv zeta in Hv, Ha. rewrite Hl in Hv, Ha.
  exists st'. split; [exact Hst'|].
  pose proof (sum_of_bounds (Voice.getByteFrequencyData data (Voice.audioDataArray st)))
    as Hsum.
  rewrite Hl in Hsum.
  split.
  - rewrite Hv. apply in_range_smooth; [exact Hs|].
    unfold Voice.frequencyBinCount in Hsum. lia.
  - right. right. rewrite Ha, Hv. reflexivity.
Qed.

Lemma avatar_in_bounds_same (a b : Voice.state) :
  Voice.smoothedVolume a = Voice.smoothedVolume b ->
  Voice.avatar a = Voice.avatar b ->
  avatar_in_bounds b -> avatar_in_bounds a.
Proof. unfold avatar_in_bounds. intros -> ->. exact (fun H => H). Qed.

Lemma avatar_ready_same (a b : Voice.state) :
  Voice.analyser a = Voice.analyser b ->
  Voice.audioDataArray a = Voice.audioDataArray b ->
  Voice.avatar a = Voice.avatar b ->
  Voice.pending a = Voice.pending b ->
  avatar_ready b -> avatar_ready a.
Proof. unfold avatar_ready. intros -> -> -> ->. exact (fun H => H). Qed.

Lemma initAvatar_bounded (st : Voice.state) :
  avatar_ready st -> avatar_in_bounds st ->
  exists st',
    (Voice.initAvatar st = Voice.Returned st'
     \/ exists message, Voice.initAvatar st = Voice.Thrown message st')
    /\ avatar_in_bounds st'.
Proof.
  intros [Hlen _] [Hs Hav]. unfold Voice.initAvatar. simpl.
  destruct (Voice.webgl st) as [message|].
  - eexists. split; [right; eexists; reflexivity|]. split; simpl; [exact Hs|exact Hav].
  - match goal with |- context [Voice.animateAvatar ?s] =>
      destruct (animateAvatar_bounded s) as (st' & Hst' & Hb)
    end.
    + split; simpl; [exact Hlen|discriminate].
    + split; simpl; [exact Hs|right; left; reflexivity].
    + exists st'. split; [left; exact Hst'|exact Hb].
Qed.

(** * Further properties *)

(** ** Case analysis over the events *)

Ltac voice_handlers :=
  unfold Voice.handleFileSelection, Voice.handleJobRoleSubmit,
    Voice.handleJobRoleSubmit_settled, Voice.handleJobRoleSubmit_catch,
    Voice.setupMedia_settled, Voice.setupMedia_loaded,
      Voice.setupMedia_catch, Voice.uncaught, Voice.initAudioVisualizer,
    Voice.setupSpeechSynthesis, Voice.setupMedia, Voice.initAvatar,
    Voice.animateAvatar, Voice.askNextQuestion, Voice.askNextQuestion_spoken,
    Voice.endInterview, Voice.endInterview_spoken, Voice.endInterview_settled,
    Voice.endInterview_catch, Voice.toggleRecording, Voice.onstart,
    Voice.onresult, Voice.onend, Voice.onend_settled, Voice.onend_catch.

Ltac chat_handlers :=
  unfold Chat.Interview.handleAnswerSubmission,
    Chat.Interview.handleAnswerSubmission_settled,
    Chat.Interview.handleAnswerSubmission_catch,
    Chat.Interview.endInterview_settled, Chat.Interview.endInterview_catch,
    Chat.Interview.displayReport, Chat.Interview.askNextInitialQuestion,
    Chat.Interview.endInterview, Chat.Interview.enableUserInput,
    Chat.Interview.disableUserInput.

(** [H : step st e = Some st'] is split into the paths of the handlers. *)
Ltac step_paths H :=
  simpl in H;
  unfold Voice.click, Voice.resume, Voice.during, Chat.Interview.resume,
    option_map in H;
  repeat match type of H with
    | context [match ?x with _ => _ end] => destruct x eqn:?; simpl in H
    end;
  try discriminate H; injection H as <-.

Ltac ok_is_true :=
  try match goal with
    | H : negb ?b = false |- _ => destruct b; [clear H|discriminate H]
    end.

(** Looking an element up after updates of known ids. *)
Ltac page_lookup :=
  repeat first [rewrite update_same | rewrite update_other by reflexivity].

(** ** Trimmed strings *)

Lemma trimStart_drop_space (s : string) :
  trimStart s = string_of_list_ascii (drop_space (list_ascii_of_string s)).
Proof.
  induction s as [|c s IH]; simpl; [reflexivity|].
  destruct (is_space c); [exact IH|]. simpl.
  now rewrite string_of_list_ascii_of_string.
Qed.

Lemma trimEnd_drop_space (s : string) :
  trimEnd s
  = string_of_list_ascii (rev (drop_space (rev (list_ascii_of_string s)))).
Proof.
  unfold trimEnd, reverse.
  now rewrite trimStart_drop_space, !list_ascii_of_string_of_list_ascii.
Qed.

Lemma drop_space_length (l : list ascii) :
  List.length (drop_space l) <= List.length l.
Proof.
  induction l as [|c l IH]; simpl; [lia|]. destruct (is_space c); simpl; lia.
Qed.

Lemma drop_space_idem (l : list ascii) : drop_space (drop_space l) = drop_space l.
Proof.
  induction l as [|c l IH]; simpl; [reflexivity|].
  destruct (is_space c) eqn:E; [exact IH|]. simpl. now rewrite E.
Qed.

Lemma drop_space_split (l : list ascii) :
  exists p, l = p ++ drop_space l /\ forallb is_space p = true.
Proof.
  induction l as [|c l (p & Hl & Hp)]; simpl; [now exists []|].
  destruct (is_space c) eqn:E.
  - exists (c :: p). simpl. rewrite E, Hp. split; [now f_equal|reflexivity].
  - now exists [].
Qed.

Lemma drop_space_fixed (c : ascii) (l : list ascii) :
  drop_space (c :: l) = c :: l -> is_space c = false.
Proof.
  simpl. destruct (is_space c); [|reflexivity]. intros H.
  pose proof (drop_space_length l) as Hlen. rewrite H in Hlen. simpl in Hlen. lia.
Qed.

(** Dropping trailing white space from a list without leading white space
    leaves it without leading white space. *)
Lemma drop_space_front_kept (m : list ascii) :
  drop_space m = m ->
  drop_space (rev (drop_space (rev m))) = rev (drop_space (rev m)).
Proof.
  intros Hm. destruct (drop_space_split (rev m)) as (p & Hsplit & Hp).
  assert (Hrev : m = rev (drop_space (rev m)) ++ rev p).
  { rewrite <- rev_app_distr, <- Hsplit. now rewrite rev_involutive. }
  destruct (rev (drop_space (rev m))) as [|c x] eqn:E; [reflexivity|].
  rewrite Hrev in Hm. simpl in Hm |- *.
  assert (Hc : is_space c = false).
  { apply (drop_space_fixed c (x ++ rev p)). exact Hm. }
  now rewrite Hc.
Qed.

Lemma trim_is_trimmed (s : string) : trimmed (trim s).
Proof.
  unfold trimmed, trim. split.
  - rewrite trimStart_drop_space, trimEnd_drop_space.
    rewrite !trimStart_drop_space, !list_ascii_of_string_of_list_ascii.
    f_equal. apply drop_space_front_kept, drop_space_idem.
  - rewrite !trimEnd_drop_space, !list_ascii_of_string_of_list_ascii.
    f_equal. now rewrite rev_involutive, drop_space_idem.
Qed.

Lemma is_empty_false_not_empty (s : string) : is_empty s = false <-> s <> ""%string.
Proof. destruct s; simpl; split; congruence. Qed.

(** ** Invariants of a session *)

(** A property of the typed interview holds throughout a session when it
    holds as the page opens, given a property of what the landing page may
    have stored, and every event of the interview keeps it. *)
Lemma chat_interview_invariant
  (S : option (list json) -> Prop) (P : Chat.Interview.state -> Prop) :
  S None ->
  (forall l e l', Chat.Landing.step l e = Some l' ->
     S (Chat.Landing.storage l) -> S (Chat.Landing.storage l')) ->
  (forall doc stored, S stored -> P (Chat.Interview.initial doc stored)) ->
  (forall st e st', P st -> Chat.Interview.step st e = Some st' -> P st') ->
  forall pages address events s st,
    Chat.run (Chat.start pages address) events = Some s ->
    Chat.at_ s = Chat.OnInterview st -> P st.
Proof.
  intros Hnone Hland Hinit Hstep pages address events s st Hrun Hat.
  set (Inv := fun s : Chat.session =>
              S (Chat.sessionStorage s)
              /\ match Chat.at_ s with
                 | Chat.OnLanding l => S (Chat.Landing.storage l)
                 | Chat.OnInterview st => P st
                 | Chat.Elsewhere => True
                 end).
  assert (Hvisit : forall a stored s0, S stored -> Inv (Chat.visit a stored s0)).
  { intros a stored s0 Hs. unfold Inv, Chat.visit, Chat.load. simpl. split; [exact Hs|].
    destruct (existsb _ (Chat.ids _)); [exact Hs|].
    destruct (existsb _ (Chat.bodyClassList _)); [|exact I].
    now apply Hinit. }
  assert (HI : Inv s).
  { apply (chat_run_invariant Inv) with (3 := Hrun); [|now apply Hvisit].
    intros s0 e s1 [Hs0 Ha0] He. unfold Chat.step in He.
    destruct e as [a|e|e].
    - assert (E : s1 = Chat.visit a (Chat.sessionStorage s0) s0)
        by (destruct (Chat.at_ s0); now injection He as <-).
      subst s1. now apply Hvisit.
    - destruct (Chat.at_ s0) as [l| |]; try discriminate.
      destruct (Chat.Landing.step l e) as [l'|] eqn:El; [|discriminate].
      pose proof (Hland l e l' El Ha0) as Hl'.
      destruct (Chat.Landing.href l') as [a|]; injection He as <-.
      + now apply Hvisit.
      + now split.
    - destruct (Chat.at_ s0) as [|st0|]; try discriminate.
      destruct (Chat.Interview.step st0 e) as [st1|] eqn:E; [|discriminate].
      injection He as <-. split; [exact Hs0|]. simpl. now apply (Hstep st0 e). }
  destruct HI as [_ HI]. now rewrite Hat in HI.
Qed.

(** ** What is sent and what is recorded *)

(** X1: whenever the job role holds a character that is not white space,
    [handleJobRoleSubmit] sends its request, whether or not a file is
    selected (a missing file goes out as the text 'undefined'), and the job
    role it carries is not empty and has neither leading nor trailing white
    space. *)
Theorem job_role_is_sent_trimmed (st : Voice.state) :
  all_space (input (Voice.page st Voice.jobRoleInput)) = false ->
  exists role,
    Voice.trace (Voice.handleJobRoleSubmit st)
    = Voice.trace st
      ++ [Fetch "/api/analyze"
            (FormData [("resume",
                        match files (Voice.page st Voice.resumeFile) with
                        | Some f => FormFile f
                        | None => FormString "undefined"
                        end);
                       ("job_role", FormString role)])]
    /\ role <> ""%string
    /\ trimmed role.
Proof.
  intros Hrole. rewrite <- trim_empty in Hrole.
  exists (trim (input (Voice.page st Voice.jobRoleInput))).
  split; [|split].
  - unfold Voice.handleJobRoleSubmit. now rewrite Hrole.
  - now apply is_empty_false_not_empty.
  - apply trim_is_trimmed.
Qed.

Lemma job_role_is_sent_trimmed_witness :
  exists role,
    Voice.trace
      (Voice.handleJobRoleSubmit
         (Voice.on Voice.jobRoleInput (set_input "  QA lead ")
            (Voice.initial true Sample.empty_page)))
    = [Fetch "/api/analyze"
         (FormData [("resume", FormString "undefined");
                    ("job_role", FormString role)])]
    /\ role <> ""%string
    /\ trimmed role.
Proof.
  exact (job_role_is_sent_trimmed
           (Voice.on Voice.jobRoleInput (set_input "  QA lead ")
              (Voice.initial true Sample.empty_page)) eq_refl).
Defined.

Lemma voice_answers_not_empty_step (st st' : Voice.state) (e : Voice.event) :
  Voice.step st e = Some st' ->
  Forall (fun a => a <> ""%string) (Voice.allUserAnswers st) ->
  Forall (fun a => a <> ""%string) (Voice.allUserAnswers st').
Proof.
  intros H Hinv. destruct e; step_paths H.
  all: voice_handlers; simpl; break_match; simpl; try exact Hinv.
  all: apply Forall_app; split; [exact Hinv|]; constructor; [|constructor].
  all: apply is_empty_false_not_empty.
  all: match goal with H : negb ?x = true |- _ => now destruct x end.
Qed.

Lemma chat_answers_trimmed_step (st st' : Chat.Interview.state)
  (e : Chat.Interview.event) :
  Chat.Interview.step st e = Some st' ->
  Forall (fun a => a <> ""%string /\ trimmed a) (Chat.Interview.allUserAnswers st) ->
  Forall (fun a => a <> ""%string /\ trimmed a) (Chat.Interview.allUserAnswers st').
Proof.
  intros H Hinv. destruct e; step_paths H.
  all: chat_handlers; simpl; break_match; simpl; try exact Hinv.
  all: apply Forall_app; split; [exact Hinv|]; constructor; [|constructor].
  all: split; [now apply is_empty_false_not_empty|apply trim_is_trimmed].
Qed.

Lemma chat_initial_answers (doc : document) (stored : option (list json)) :
  Chat.Interview.allUserAnswers (Chat.Interview.initial doc stored) = [].
Proof.
  unfold Chat.Interview.initial, Chat.Interview.startInterview,
    Chat.Interview.askNextInitialQuestion.
  destruct stored; simpl; break_match; reflexivity.
Qed.

(** X2: no empty answer is ever recorded.  On the voice page every
    element of [allUserAnswers] is a non-empty transcript; on the typed page
    every element is non-empty and has neither leading nor trailing white
    space. *)
Theorem recorded_answers_are_not_empty :
  (forall (supported : bool) (doc : document) (events : list Voice.event)
      (st : Voice.state),
      Voice.run (Voice.initial supported doc) events = Some st ->
      Forall (fun a => a <> ""%string) (Voice.allUserAnswers st))
  /\ (forall (pages : string -> Chat.html) (address : string)
        (events : list Chat.event) (s : Chat.session) (st : Chat.Interview.state),
      Chat.run (Chat.start pages address) events = Some s ->
      Chat.at_ s = Chat.OnInterview st ->
      Forall (fun a => a <> ""%string /\ trimmed a) (Chat.Interview.allUserAnswers st)).
Proof.
  split.
  - intros supported doc events st Hrun.
    apply (voice_run_invariant
             (fun st => Forall (fun a => a <> ""%string) (Voice.allUserAnswers st)))
      with (3 := Hrun); [|constructor].
    intros s e s' Hs He. now apply (voice_answers_not_empty_step s s' e).
  - apply (chat_interview_invariant (fun _ => True)); auto.
    + intros doc stored _. rewrite chat_initial_answers. constructor.
    + intros st e st' Hs He. now apply (chat_answers_trimmed_step st st' e).
Qed.

Lemma recorded_answers_are_not_empty_witness :
  (exists st,
      Voice.run (Voice.initial true Sample.empty_page) Scenario.answering = Some st
      /\ Forall (fun a => a <> ""%string) (Voice.allUserAnswers st))
  /\ (exists s st,
        Chat.run (Chat.start Sample.pages "/interview.html") Scenario.typing = Some s
        /\ Chat.at_ s = Chat.OnInterview st
        /\ Chat.Interview.allUserAnswers st = ["Because."]%string
        /\ Forall (fun a => a <> ""%string /\ trimmed a)
             (Chat.Interview.allUserAnswers st)).
Proof.
  destruct recorded_answers_are_not_empty as [Hvoice Hchat].
  split.
  - assert (H : exists st,
               Voice.run (Voice.initial true Sample.empty_page) Scenario.answering
               = Some st).
    { vm_compute. eexists. reflexivity. }
    destruct H as (st & Hrun). exists st. split; [exact Hrun|].
    exact (Hvoice true Sample.empty_page _ st Hrun).
  - assert (H : exists s st,
               Chat.run (Chat.start Sample.pages "/interview.html") Scenario.typing
               = Some s
               /\ Chat.at_ s = Chat.OnInterview st
               /\ Chat.Interview.allUserAnswers st = ["Because."]%string).
    { vm_compute. do 2 eexists. split; [reflexivity|]. split; reflexivity. }
    destruct H as (s & st & Hrun & Hat & Hanswers). exists s, st.
    split; [exact Hrun|]. split; [exact Hat|]. split; [exact Hanswers|].
    exact (Hchat Sample.pages "/interview.html" _ s st Hrun Hat).
Defined.

Lemma voice_follow_up_per_answer_step (st st' : Voice.state) (e : Voice.event) :
  Voice.step st e = Some st' ->
  fetches_to "/api/follow-up" (Voice.trace st) = List.length (Voice.allUserAnswers st) ->
  fetches_to "/api/follow-up" (Voice.trace st') = List.length (Voice.allUserAnswers st').
Proof.
  intros H Hinv. destruct e; step_paths H.
  all: voice_handlers; simpl; break_match.
  all: unfold fetches_to in *; simpl;
    rewrite ?filter_app, ?length_app; simpl; lia.
Qed.

Lemma chat_follow_up_per_answer_step (st st' : Chat.Interview.state)
  (e : Chat.Interview.event) :
  Chat.Interview.step st e = Some st' ->
  fetches_to "/api/follow-up" (Chat.Interview.trace st)
  = List.length (Chat.Interview.allUserAnswers st) ->
  fetches_to "/api/follow-up" (Chat.Interview.trace st')
  = List.length (Chat.Interview.allUserAnswers st').
Proof.
  intros H Hinv. destruct e; step_paths H.
  all: chat_handlers; simpl; break_match.
  all: unfold fetches_to in *; simpl;
    rewrite ?filter_app, ?length_app; simpl; lia.
Qed.

(** X3: every recorded answer goes to the backend for a follow-up, once:
    on both pages the number of requests to /api/follow-up issued so far is
    the number of answers recorded so far. *)
Theorem one_follow_up_request_per_answer :
  (forall (supported : bool) (doc : document) (events : list Voice.event)
      (st : Voice.state),
      Voice.run (Voice.initial supported doc) events = Some st ->
      fetches_to "/api/follow-up" (Voice.trace st)
      = List.length (Voice.allUserAnswers st))
  /\ (forall (pages : string -> Chat.html) (address : string)
        (events : list Chat.event) (s : Chat.session) (st : Chat.Interview.state),
      Chat.run (Chat.start pages address) events = Some s ->
      Chat.at_ s = Chat.OnInterview st ->
      fetches_to "/api/follow-up" (Chat.Interview.trace st)
      = List.length (Chat.Interview.allUserAnswers st)).
Proof.
  split.
  - intros supported doc events st Hrun.
    apply (voice_run_invariant
             (fun st => fetches_to "/api/follow-up" (Voice.trace st)
                        = List.length (Voice.allUserAnswers st)))
      with (3 := Hrun); [|reflexivity].
    intros s e s' Hs He. now apply (voice_follow_up_per_answer_step s s' e).
  - apply (chat_interview_invariant (fun _ => True)); auto.
    + intros doc stored _.
      unfold Chat.Interview.initial, Chat.Interview.startInterview,
        Chat.Interview.askNextInitialQuestion.
      destruct stored; simpl; break_match; reflexivity.
    + intros st e st' Hs He. now apply (chat_follow_up_per_answer_step st st' e).
Qed.

Lemma one_follow_up_request_per_answer_witness :
  exists st,
    Voice.run (Voice.initial true Sample.empty_page) Scenario.answering = Some st
    /\ fetches_to "/api/follow-up" (Voice.trace st) = 1.
Proof.
  assert (H : exists st,
             Voice.run (Voice.initial true Sample.empty_page) Scenario.answering
             = Some st
             /\ List.length (Voice.allUserAnswers st) = 1).
  { vm_compute. eexists. split; reflexivity. }
  destruct H as (st & Hrun & Hlen). exists st. split; [exact Hrun|].
  rewrite <- Hlen.
  exact (proj1 one_follow_up_request_per_answer true Sample.empty_page _ st Hrun).
Defined.

(** ** The start button *)

Lemma voice_start_stays_disabled (st st' : Voice.state) (e : Voice.event) :
  Voice.step st e = Some st' ->
  disabled (Voice.page st Voice.startInterviewBtn) = true ->
  disabled (Voice.page st' Voice.startInterviewBtn) = true.
Proof.
  intros H Hinv. destruct e; step_paths H.
  all: try congruence.
  all: voice_handlers; simpl; break_match; page_lookup; try exact Hinv.
Qed.

(** X4: the interview is started at most once.  A click on the start
    button disables it, no handler enables it again, so no run holds a second
    click on start. *)
Theorem interview_starts_at_most_once (st st' : Voice.state)
  (before after : list Voice.event) :
  Voice.run st (before ++ Voice.ClickStart :: after) = Some st' ->
  ~ In Voice.ClickStart after
  /\ disabled (Voice.page st' Voice.startInterviewBtn) = true.
Proof.
  revert st. induction before as [|e before IH]; simpl; intros st Hrun.
  - unfold Voice.click in Hrun.
    destruct (disabled (Voice.page st Voice.startInterviewBtn)) eqn:Hd; [discriminate|].
    match type of Hrun with Voice.run ?s _ = _ => set (st1 := s) in * end.
    assert (Hdis : disabled (Voice.page st1 Voice.startInterviewBtn) = true).
    { subst st1. unfold Voice.askNextQuestion, Voice.endInterview.
      simpl. break_match; page_lookup; reflexivity. }
    clearbody st1. clear Hd st. revert st1 Hdis Hrun.
    induction after as [|e after IHa]; simpl; intros st1 Hdis Hrun.
    + injection Hrun as <-. now split.
    + destruct (Voice.step st1 e) as [st2|] eqn:Hstep; [|discriminate].
      pose proof (voice_start_stays_disabled st1 st2 e Hstep Hdis) as Hdis2.
      destruct (IHa st2 Hdis2 Hrun) as [Hnot Hfinal]. split; [|exact Hfinal].
      intros [->|Hin]; [|contradiction].
      simpl in Hstep. unfold Voice.click in Hstep. rewrite Hdis in Hstep. discriminate.
  - destruct (Voice.step st e) as [st1|]; [|discriminate]. now apply (IH st1).
Qed.

Lemma interview_starts_at_most_once_witness :
  exists st',
    Voice.run Sample.loaded [Voice.ClickStart; Voice.QuestionSpoken] = Some st'
    /\ disabled (Voice.page st' Voice.startInterviewBtn) = true.
Proof.
  assert (H : exists st',
             Voice.run Sample.loaded ([] ++ Voice.ClickStart :: [Voice.QuestionSpoken])
             = Some st').
  { vm_compute. eexists. reflexivity. }
  destruct H as (st' & Hrun). exists st'. split; [exact Hrun|].
  exact (proj2 (interview_starts_at_most_once Sample.loaded st' [] _ Hrun)).
Defined.

(** ** The record button *)

Lemma voice_recording_shown_step (st st' : Voice.state) (e : Voice.event) :
  Voice.step st e = Some st' ->
  has_class "is-recording" (Voice.page st Voice.recordBtn) = Voice.isRecording st
  /\ (Voice.isRecording st = true ->
      inner (Voice.page st Voice.recordBtnSpan) = [Lit "Stop Recording"]) ->
  has_class "is-recording" (Voice.page st' Voice.recordBtn) = Voice.isRecording st'
  /\ (Voice.isRecording st' = true ->
      inner (Voice.page st' Voice.recordBtnSpan) = [Lit "Stop Recording"]).
Proof.
  intros H Hinv. destruct e; step_paths H.
  all: voice_handlers; simpl; break_match; try exact Hinv.
  all: destruct Hinv as [Hclass Hlabel]; page_lookup; simpl.
  all: rewrite ?has_class_add, ?has_class_remove.
  all: split;
    [congruence
    |first [discriminate|exact Hlabel|reflexivity|intros; apply Hlabel; congruence]].
Qed.

(** X5: the record button shows whether a recording is running.  On a
    page whose record button does not start out marked, the button carries
    the class 'is-recording' exactly while [isRecording] is set, and while it
    is set the label reads 'Stop Recording'. *)
Theorem record_button_shows_recording (supported : bool) (doc : document)
  (events : list Voice.event) (st : Voice.state) :
  has_class "is-recording" (doc Voice.recordBtn) = false ->
  Voice.run (Voice.initial supported doc) events = Some st ->
  has_class "is-recording" (Voice.page st Voice.recordBtn) = Voice.isRecording st
  /\ (Voice.isRecording st = true ->
      inner (Voice.page st Voice.recordBtnSpan) = [Lit "Stop Recording"]).
Proof.
  intros Hdoc Hrun.
  apply (voice_run_invariant
           (fun st =>
              has_class "is-recording" (Voice.page st Voice.recordBtn)
              = Voice.isRecording st
              /\ (Voice.isRecording st = true ->
                  inner (Voice.page st Voice.recordBtnSpan) = [Lit "Stop Recording"])))
    with (3 := Hrun).
  - intros s e s' Hs He. now apply (voice_recording_shown_step s s' e).
  - split; [exact Hdoc|discriminate].
Qed.

Lemma record_button_shows_recording_witness :
  exists st,
    Voice.run (Voice.initial true Sample.empty_page)
      [Voice.ClickRecord; Voice.RecognitionStart] = Some st
    /\ Voice.isRecording st = true
    /\ has_class "is-recording" (Voice.page st Voice.recordBtn) = true.
Proof.
  assert (H : exists st,
             Voice.run (Voice.initial true Sample.empty_page)
               [Voice.ClickRecord; Voice.RecognitionStart] = Some st
             /\ Voice.isRecording st = true).
  { vm_compute. eexists. split; reflexivity. }
  destruct H as (st & Hrun & Hrec). exists st.
  split; [exact Hrun|]. split; [exact Hrec|].
  rewrite (proj1 (record_button_shows_recording true Sample.empty_page _ st
                    eq_refl Hrun)).
  exact Hrec.
Defined.

(** ** The conversation log *)

Lemma voice_log_follows_step (st st' : Voice.state) (e : Voice.event)
  (shown : list text) :
  Voice.step st e = Some st' ->
  children (Voice.page st Voice.responsesLog)
  = shown ++ map voice_log_line (Voice.conversationHistory st) ->
  children (Voice.page st' Voice.responsesLog)
  = shown ++ map voice_log_line (Voice.conversationHistory st').
Proof.
  intros H Hinv. destruct e; step_paths H.
  all: voice_handlers; simpl; break_match; page_lookup; try exact Hinv.
  all: simpl; rewrite Hinv, map_app, app_assoc; reflexivity.
Qed.

(** X6: the conversation log on the voice page mirrors
    [conversationHistory]: after any run the log holds, behind what the page
    showed from the start, one line per entry of the history, in order,
    'Improvyu' lines for the questions and 'You' lines for the answers. *)
Theorem log_mirrors_history (supported : bool) (doc : document)
  (events : list Voice.event) (st : Voice.state) :
  Voice.run (Voice.initial supported doc) events = Some st ->
  children (Voice.page st Voice.responsesLog)
  = children (doc Voice.responsesLog)
    ++ map voice_log_line (Voice.conversationHistory st).
Proof.
  intros Hrun.
  apply (voice_run_invariant
           (fun st =>
              children (Voice.page st Voice.responsesLog)
              = children (doc Voice.responsesLog)
                ++ map voice_log_line (Voice.conversationHistory st)))
    with (3 := Hrun).
  - intros s e s' Hs He. now apply (voice_log_follows_step s s' e).
  - simpl. now rewrite app_nil_r.
Qed.

Lemma log_mirrors_history_witness :
  exists st,
    Voice.run (Voice.initial true Sample.empty_page) Scenario.answering = Some st
    /\ List.length (children (Voice.page st Voice.responsesLog)) = 1.
Proof.
  assert (H : exists st,
             Voice.run (Voice.initial true Sample.empty_page) Scenario.answering
             = Some st
             /\ List.length (Voice.conversationHistory st) = 1).
  { vm_compute. eexists. split; reflexivity. }
  destruct H as (st & Hrun & Hlen). exists st. split; [exact Hrun|].
  rewrite (log_mirrors_history true Sample.empty_page _ st Hrun).
  simpl. rewrite length_map. exact Hlen.
Defined.

(** ** The animation loop *)

Lemma voice_take_waiting (t u : Voice.task) (l rest : list Voice.task) :
  take Voice.task_eqb t l = Some rest ->
  voice_waiting u l
  = voice_waiting u rest + (if Voice.task_eqb u t then 1 else 0).
Proof.
  unfold voice_waiting. revert rest.
  induction l as [|v l IH]; simpl; intros rest H; [discriminate|].
  destruct (Voice.task_eqb t v) eqn:E.
  - injection H as <-.
    assert (v = t) by (destruct t, v; (reflexivity || discriminate)). subst v.
    destruct (Voice.task_eqb u t); simpl; lia.
  - destruct (take Voice.task_eqb t l) as [r|]; [|discriminate].
    injection H as <-. simpl. specialize (IH r eq_refl).
    destruct (Voice.task_eqb u v); simpl; lia.
Qed.

(** ** Runs without some events *)

Lemma voice_run_invariant_when (E : Voice.event -> Prop) (P : Voice.state -> Prop) :
  (forall st e st', E e -> P st -> Voice.step st e = Some st' -> P st') ->
  forall events st st',
    Forall E events -> P st -> Voice.run st events = Some st' -> P st'.
Proof.
  intros Hstep. induction events as [|e events IH]; simpl; intros st st' Hall HP H.
  - now injection H as <-.
  - destruct (Voice.step st e) as [st1|] eqn:Es; [|discriminate].
    inversion Hall as [|e' events' He Hrest]; subst.
    apply (IH st1 st' Hrest); [|exact H]. now apply (Hstep st e).
Qed.

Lemma voice_rest_step (st st' : Voice.state) (e : Voice.event) :
  (forall n, e <> Voice.MediaSettled (Voice.Stream (S n))) ->
  Voice.analyser st = None
  /\ Voice.smoothedVolume st = Number.of_Z 0
  /\ (Voice.avatar st = None \/ Voice.avatar st = Some (Number.of_Z 1, Number.of_Z 1, Number.of_Z 1)) ->
  Voice.step st e = Some st' ->
  Voice.analyser st' = None
  /\ Voice.smoothedVolume st' = Number.of_Z 0
  /\ (Voice.avatar st' = None \/ Voice.avatar st' = Some (Number.of_Z 1, Number.of_Z 1, Number.of_Z 1)).
Proof.
  intros Hne (Han & Hvol & Hav) H. destruct e; step_paths H.
  all: try congruence.
  all: voice_handlers; simpl; break_match; try congruence.
  all: try (exfalso; eapply Hne; reflexivity).
  all: repeat split; simpl; try assumption; try congruence; auto.
Qed.

(** X9: without an audio track the avatar stays at rest.  As long as no
    media stream with an audio track arrives (no microphone, permission
    denied, nothing yet), there is no analyser, [smoothedVolume] stays 0 and
    the avatar, once created, keeps the scale (1, 1, 1) through every frame. *)
Theorem avatar_rests_without_audio (supported : bool) (doc : document)
  (events : list Voice.event) (st : Voice.state) :
  Forall (fun e => forall n, e <> Voice.MediaSettled (Voice.Stream (S n))) events ->
  Voice.run (Voice.initial supported doc) events = Some st ->
  Voice.analyser st = None
  /\ Voice.smoothedVolume st = Number.of_Z 0
  /\ (Voice.avatar st = None \/ Voice.avatar st = Some (Number.of_Z 1, Number.of_Z 1, Number.of_Z 1)).
Proof.
  intros Hall Hrun.
  apply (voice_run_invariant_when
           (fun e => forall n, e <> Voice.MediaSettled (Voice.Stream (S n)))
           (fun st =>
              Voice.analyser st = None
              /\ Voice.smoothedVolume st = Number.of_Z 0
              /\ (Voice.avatar st = None \/ Voice.avatar st = Some (Number.of_Z 1, Number.of_Z 1, Number.of_Z 1))))
    with (2 := Hall) (4 := Hrun).
  - intros s e s' He Hs Hstep. now apply (voice_rest_step s s' e).
  - simpl. auto.
Qed.

Lemma avatar_rests_without_audio_witness :
  exists st,
    Voice.run (Voice.initial true (Voice.page (Sample.filled "Engineer")))
      Scenario.no_microphone = Some st
    /\ Voice.avatar st = Some (Number.of_Z 1, Number.of_Z 1, Number.of_Z 1).
Proof.
  assert (H : exists st,
             Voice.run (Voice.initial true (Voice.page (Sample.filled "Engineer")))
               Scenario.no_microphone = Some st
             /\ Voice.avatar st <> None).
  { vm_compute. eexists. split; [reflexivity|discriminate]. }
  destruct H as (st & Hrun & Hsome). exists st. split; [exact Hrun|].
  assert (Hall : Forall (fun e => forall n, e <> Voice.MediaSettled (Voice.Stream (S n)))
                   Scenario.no_microphone)
    by (repeat constructor; intros n; discriminate).
  destruct (avatar_rests_without_audio true _ _ st Hall Hrun) as (_ & _ & [Hav|Hav]);
    [contradiction|exact Hav].
Defined.

(** ** A browser without speech recognition *)

Lemma voice_deaf_step (st st' : Voice.state) (e : Voice.event) :
  Voice.recognition st = false
  /\ Voice.isRecording st = false
  /\ voice_waiting Voice.Recognising (Voice.pending st) = 0
  /\ Voice.allUserAnswers st = []
  /\ fetches_to "/api/follow-up" (Voice.trace st) = 0 ->
  Voice.step st e = Some st' ->
  Voice.recognition st' = false
  /\ Voice.isRecording st' = false
  /\ voice_waiting Voice.Recognising (Voice.pending st') = 0
  /\ Voice.allUserAnswers st' = []
  /\ fetches_to "/api/follow-up" (Voice.trace st') = 0.
Proof.
  intros (Hrec & Hnot & Hwait & Hans & Hreq) H. destruct e.
  15, 16: simpl in H; unfold Voice.during in H;
    destruct (existsb _ _) eqn:Hex; [|discriminate];
    apply existsb_exists in Hex as (t & Hin & Ht);
    unfold voice_waiting in Hwait;
    assert (Hnone : In t (filter (Voice.task_eqb Voice.Recognising) (Voice.pending st)))
      by (apply filter_In; now split);
    destruct (filter _ (Voice.pending st)); [destruct Hnone|discriminate].
  all: step_paths H.
  all: try match goal with
         | Ht : take Voice.task_eqb _ _ = Some _ |- _ =>
             apply (voice_take_waiting _ Voice.Recognising) in Ht; simpl in Ht
         end.
  all: try congruence; try lia.
  all: voice_handlers; simpl; break_match; try congruence.
  all: unfold voice_waiting, fetches_to in *; simpl;
    rewrite ?filter_app, ?length_app; simpl.
  all: repeat split; try assumption; try lia.
  all: rewrite Hrec in *; discriminate.
Qed.

(** X10: in a browser without speech recognition no answer is ever
    recorded.  After any run of the voice page there [allUserAnswers] is
    empty, no recording is running, no request has gone to /api/follow-up,
    and a click on the enabled record button does nothing but alert. *)
Theorem no_answers_without_speech_recognition (doc : document)
  (events : list Voice.event) (st : Voice.state) :
  Voice.run (Voice.initial false doc) events = Some st ->
  Voice.allUserAnswers st = []
  /\ Voice.isRecording st = false
  /\ fetches_to "/api/follow-up" (Voice.trace st) = 0
  /\ (disabled (Voice.page st Voice.recordBtn) = false ->
      Voice.step st Voice.ClickRecord
      = Some (Voice.emit
                (Alert "Speech Recognition is not supported by this browser.") st)).
Proof.
  intros Hrun.
  assert (H : Voice.recognition st = false
              /\ Voice.isRecording st = false
              /\ voice_waiting Voice.Recognising (Voice.pending st) = 0
              /\ Voice.allUserAnswers st = []
              /\ fetches_to "/api/follow-up" (Voice.trace st) = 0).
  { apply (voice_run_invariant
             (fun st =>
                Voice.recognition st = false
                /\ Voice.isRecording st = false
                /\ voice_waiting Voice.Recognising (Voice.pending st) = 0
                /\ Voice.allUserAnswers st = []
                /\ fetches_to "/api/follow-up" (Voice.trace st) = 0))
      with (3 := Hrun).
    - intros s e s' Hs He. now apply (voice_deaf_step s s' e).
    - repeat split. }
  destruct H as (Hrec & Hnot & _ & Hans & Hreq).
  repeat match goal with |- _ /\ _ => split end; try assumption.
  intros Hbtn. simpl. unfold Voice.click, Voice.toggleRecording.
  now rewrite Hbtn, Hnot, Hrec.
Qed.

Lemma no_answers_without_speech_recognition_witness :
  exists st,
    Voice.run (Voice.initial false Sample.empty_page) [Voice.ClickRecord] = Some st
    /\ Voice.allUserAnswers st = [].
Proof.
  assert (H : exists st,
             Voice.run (Voice.initial false Sample.empty_page) [Voice.ClickRecord]
             = Some st).
  { vm_compute. eexists. reflexivity. }
  destruct H as (st & Hrun). exists st. split; [exact Hrun|].
  exact (proj1 (no_answers_without_speech_recognition Sample.empty_page _ st Hrun)).
Defined.

(** ** A response without questions *)

Lemma voice_stuck_step (st st' : Voice.state) (e : Voice.event) (n : nat)
  (h : list entry) :
  (forall data, e <> Voice.AnalyzeSettled (Resolved true (Body data))) ->
  Voice.initialQuestions st = None
  /\ utterances (Voice.trace st) = n
  /\ Voice.asked (Voice.conversationHistory st) = Voice.asked h ->
  Voice.step st e = Some st' ->
  Voice.initialQuestions st' = None
  /\ utterances (Voice.trace st') = n
  /\ Voice.asked (Voice.conversationHistory st') = Voice.asked h.
Proof.
  intros Hne (Hqs & Hn & Hh) H. destruct e; step_paths H.
  all: voice_handlers; simpl; break_match; ok_is_true; try congruence.
  all: try (exfalso; eapply Hne; reflexivity).
  all: unfold utterances in *; simpl;
    rewrite ?filter_app, ?length_app, ?asked_user; simpl; rewrite ?Nat.add_0_r.
  all: repeat split; assumption.
Qed.

(** X11: an ok response of /api/analyze without [questions] leaves the
    interview stuck.  While [initialQuestions] is undefined and no further
    analysis succeeds, every [askNextQuestion] fails on reading its length:
    no question is asked, nothing is spoken, the list stays undefined (the
    follow-up insertion fails and is caught), whatever else happens. *)
Theorem no_interview_without_questions (st st' : Voice.state)
  (events : list Voice.event) :
  Voice.initialQuestions st = None ->
  Forall (fun e => forall data,
              e <> Voice.AnalyzeSettled (Resolved true (Body data))) events ->
  Voice.run st events = Some st' ->
  Voice.initialQuestions st' = None
  /\ utterances (Voice.trace st') = utterances (Voice.trace st)
  /\ Voice.asked (Voice.conversationHistory st')
     = Voice.asked (Voice.conversationHistory st).
Proof.
  intros Hqs Hall Hrun.
  apply (voice_run_invariant_when
           (fun e => forall data,
                e <> Voice.AnalyzeSettled (Resolved true (Body data)))
           (fun s =>
              Voice.initialQuestions s = None
              /\ utterances (Voice.trace s) = utterances (Voice.trace st)
              /\ Voice.asked (Voice.conversationHistory s)
                 = Voice.asked (Voice.conversationHistory st)))
    with (2 := Hall) (4 := Hrun).
  - intros s e s' He Hs Hstep. now apply (voice_stuck_step s s' e).
  - now repeat split.
Qed.

Lemma no_interview_without_questions_witness :
  exists st',
    Voice.run (Voice.with_initialQuestions None (Voice.initial true Sample.empty_page))
      [Voice.ClickStart; Voice.ClickRecord; Voice.RecognitionEnd; Voice.TimerFired] = Some st'
    /\ Voice.asked (Voice.conversationHistory st') = [].
Proof.
  assert (H : exists st',
             Voice.run
               (Voice.with_initialQuestions None (Voice.initial true Sample.empty_page))
               [Voice.ClickStart; Voice.ClickRecord; Voice.RecognitionEnd; Voice.TimerFired]
             = Some st').
  { vm_compute. eexists. reflexivity. }
  destruct H as (st' & Hrun). exists st'. split; [exact Hrun|].
  assert (Hall : Forall (fun e => forall data,
                             e <> Voice.AnalyzeSettled (Resolved true (Body data)))
                   [Voice.ClickStart; Voice.ClickRecord; Voice.RecognitionEnd; Voice.TimerFired])
    by (repeat constructor; intros data; discriminate).
  exact (proj2 (proj2 (no_interview_without_questions
                        (Voice.with_initialQuestions None
                           (Voice.initial true Sample.empty_page))
                        st' _ eq_refl Hall Hrun))).
Defined.

(** ** The index *)

Lemma voice_index_counts_step (st st' : Voice.state) (e : Voice.event) :
  Voice.step st e = Some st' ->
  List.length (Voice.asked (Voice.conversationHistory st))
  = Voice.currentQuestionIndex st ->
  List.length (Voice.asked (Voice.conversationHistory st'))
  = Voice.currentQuestionIndex st'.
Proof.
  intros H Hinv. destruct e; step_paths H.
  all: voice_handlers; simpl; break_match; try exact Hinv.
  all: rewrite ?asked_user, ?asked_one, ?length_app; simpl; lia.
Qed.

(** X12: on the voice page [currentQuestionIndex] counts the questions
    asked: after any run it equals the number of 'model' entries of
    [conversationHistory]. *)
Theorem index_counts_questions_asked (supported : bool) (doc : document)
  (events : list Voice.event) (st : Voice.state) :
  Voice.run (Voice.initial supported doc) events = Some st ->
  List.length (Voice.asked (Voice.conversationHistory st))
  = Voice.currentQuestionIndex st.
Proof.
  intros Hrun.
  apply (voice_run_invariant
           (fun st => List.length (Voice.asked (Voice.conversationHistory st))
                      = Voice.currentQuestionIndex st))
    with (3 := Hrun); [|reflexivity].
  intros s e s' Hs He. now apply (voice_index_counts_step s s' e).
Qed.

Lemma index_counts_questions_asked_witness :
  exists st,
    Voice.run (Voice.initial true (Voice.page (Sample.filled "Engineer")))
      (Sample.until_listening ++ [Voice.ClickStart]) = Some st
    /\ Voice.currentQuestionIndex st = 1.
Proof.
  assert (H : exists st,
             Voice.run (Voice.initial true (Voice.page (Sample.filled "Engineer")))
               (Sample.until_listening ++ [Voice.ClickStart]) = Some st
             /\ List.length (Voice.asked (Voice.conversationHistory st)) = 1).
  { vm_compute. eexists. split; reflexivity. }
  destruct H as (st & Hrun & Hlen). exists st. split; [exact Hrun|].
  rewrite <- Hlen. symmetry.
  exact (index_counts_questions_asked true _ _ st Hrun).
Defined.

(** ** The status dot *)




(** ** The upload form after a failure *)

Lemma failed_analysis_is_caught (r : fetched analysis) (st : Voice.state) :
  failed r = true ->
  exists message,
    Voice.handleJobRoleSubmit_settled r st = Voice.handleJobRoleSubmit_catch message st.
Proof.
  destruct r as [m|ok [m|data]]; simpl.
  - intros _. now exists m.
  - intros _. now exists m.
  - destruct ok; [discriminate|]. intros _. eexists. reflexivity.
Qed.

(** X14: a failed analysis leaves the upload form waiting for a new
    file.  After a submission with a job role and a failed request the
    job-role section is still hidden and the select-resume button is enabled;
    a change of the file input without a file changes nothing more, and with a
    file it shows the file name and the job-role section again and disables
    the select-resume button. *)
Theorem upload_form_recovers_by_new_file (st : Voice.state) (r : fetched analysis) :
  all_space (input (Voice.page st Voice.jobRoleInput)) = false ->
  disabled (Voice.page st Voice.submitJobRoleBtn) = false ->
  failed r = true ->
  exists st2,
    Voice.run st [Voice.ClickSubmitJobRole; Voice.AnalyzeSettled r] = Some st2
    /\ hidden (Voice.page st2) Voice.jobRoleSection = true
    /\ disabled (Voice.page st2 Voice.selectResumeBtn) = false
    /\ (exists st3,
          Voice.step st2 (Voice.ChooseFile None) = Some st3
          /\ hidden (Voice.page st3) Voice.jobRoleSection = true
          /\ disabled (Voice.page st3 Voice.selectResumeBtn) = false)
    /\ (forall f, exists st3,
          Voice.step st2 (Voice.ChooseFile (Some f)) = Some st3
          /\ hidden (Voice.page st3) Voice.jobRoleSection = false
          /\ disabled (Voice.page st3 Voice.selectResumeBtn) = true
          /\ inner (Voice.page st3 Voice.fileName)
             = [Lit "Selected: "; Interp (str (name f))]).
Proof.
  intros Hrole Hbtn Hfail. rewrite <- trim_empty in Hrole.
  destruct (take_last Voice.task_eqb Voice.AwaitAnalyze (Voice.pending st) eq_refl)
    as [rest Hrest].
  assert (Hp : Voice.pending (Voice.handleJobRoleSubmit st)
               = Voice.pending st ++ [Voice.AwaitAnalyze])
    by (unfold Voice.handleJobRoleSubmit; rewrite Hrole; reflexivity).
  destruct (failed_analysis_is_caught r
              (Voice.with_pending rest (Voice.handleJobRoleSubmit st)) Hfail)
    as [m Hm].
  assert (Hrun : Voice.run st [Voice.ClickSubmitJobRole; Voice.AnalyzeSettled r]
                 = Some (Voice.handleJobRoleSubmit_catch m
                           (Voice.with_pending rest (Voice.handleJobRoleSubmit st)))).
  { cbn [Voice.run Voice.step]. unfold Voice.click. rewrite Hbtn.
    cbn [Voice.run Voice.step]. unfold Voice.resume. rewrite Hp, Hrest.
    cbn [option_map]. now rewrite Hm. }
  eexists. split; [exact Hrun|].
  unfold Voice.handleJobRoleSubmit_catch, Voice.handleJobRoleSubmit. rewrite Hrole.
  split; [|split; [|split]].
  - unfold hidden. simpl. page_lookup. apply has_class_add.
  - simpl. page_lookup. reflexivity.
  - eexists. split; [reflexivity|]. unfold Voice.handleFileSelection.
    simpl. page_lookup. simpl. split.
    + unfold hidden. simpl. page_lookup. apply has_class_add.
    + simpl. page_lookup. reflexivity.
  - intros f. eexists. split; [reflexivity|]. unfold Voice.handleFileSelection.
    simpl. page_lookup. simpl. split; [|split].
    + unfold hidden. simpl. page_lookup. apply has_class_remove.
    + simpl. page_lookup. reflexivity.
    + simpl. page_lookup. reflexivity.
Qed.

Lemma upload_form_recovers_by_new_file_witness :
  exists st2,
    Voice.run (Sample.filled "Engineer")
      [Voice.ClickSubmitJobRole; Voice.AnalyzeSettled (Rejected [Lit "Failed to fetch"])]
    = Some st2
    /\ hidden (Voice.page st2) Voice.jobRoleSection = true.
Proof.
  destruct (upload_form_recovers_by_new_file (Sample.filled "Engineer")
              (Rejected [Lit "Failed to fetch"]) eq_refl eq_refl eq_refl)
    as (st2 & Hrun & Hhidden & _).
  exists st2. split; [exact Hrun|exact Hhidden].
Defined.

(** ** The tool buttons of the landing page *)

Lemma has_class_after_set_inner (c id k : string) (t : text) (d : document) :
  has_class c ((update id (set_inner t) d) k) = has_class c (d k).
Proof.
  unfold update, getElementById. simpl.
  destruct (String.eqb id k) eqn:E; [|reflexivity].
  apply String.eqb_eq in E. subst k. reflexivity.
Qed.

Lemma has_class_after_remove (c id k : string) (d : document) :
  has_class c ((update id (remove_class c) d) k)
  = if String.eqb id k then false else has_class c (d k).
Proof.
  unfold update, getElementById. simpl.
  destruct (String.eqb id k); [apply has_class_remove|reflexivity].
Qed.

Lemma landing_deactivate_keeps (btns : list (string * value)) :
  forall (st : Chat.Landing.state) (k : string),
    has_class "active" (Chat.Landing.page st k) = false ->
    has_class "active"
      (Chat.Landing.page
         (fold_left (fun st b => Chat.Landing.on (fst b) (remove_class "active") st)
            btns st) k) = false.
Proof.
  induction btns as [|b btns IH]; intros st k Hk; simpl; [exact Hk|].
  apply IH. simpl. rewrite has_class_after_remove.
  destruct (String.eqb (fst b) k); [reflexivity|exact Hk].
Qed.

Lemma landing_deactivate_all (btns : list (string * value)) :
  forall (st : Chat.Landing.state) (k : string),
    In k (map fst btns) ->
    has_class "active"
      (Chat.Landing.page
         (fold_left (fun st b => Chat.Landing.on (fst b) (remove_class "active") st)
            btns st) k) = false.
Proof.
  induction btns as [|b btns IH]; intros st k Hin; simpl in *; [contradiction|].
  destruct Hin as [<-|Hin]; [|now apply IH].
  apply landing_deactivate_keeps. simpl. rewrite has_class_after_remove.
  now rewrite String.eqb_refl.
Qed.

Lemma landing_selectTool_page (btn : string) (tool : value) (st : Chat.Landing.state) :
  exists label,
    Chat.Landing.page (Chat.Landing.selectTool btn tool st)
    = update Chat.Landing.mainActionBtnSpan (set_inner [Lit label])
        (update btn (add_class "active")
           (Chat.Landing.page
              (fold_left
                 (fun st b => Chat.Landing.on (fst b) (remove_class "active") st)
                 (Chat.Landing.toolBtns st) st)))
    /\ Chat.Landing.selectedTool (Chat.Landing.selectTool btn tool st) = tool
    /\ label = (if is_string "ats" tool then "Check Your Resume"
                else if is_string "placement" tool then "Explore Resources"
                     else "Start AI Interview")%string.
Proof.
  unfold Chat.Landing.selectTool. simpl.
  destruct (is_string "ats" tool); [|destruct (is_string "placement" tool)];
    eexists; repeat split.
Qed.

(** X15: the tool buttons behave like radio buttons.  A click on a tool
    button leaves that button with the class 'active' and every other tool
    button without it, takes the button's data-tool as the selected tool and
    sets the label of the main button to match it. *)
Theorem one_tool_is_active (st st' : Chat.Landing.state) (btn : string) :
  Chat.Landing.step st (Chat.Landing.ClickTool btn) = Some st' ->
  has_class "active" (Chat.Landing.page st' btn) = true
  /\ (forall k, In k (map fst (Chat.Landing.toolBtns st)) -> k <> btn ->
      has_class "active" (Chat.Landing.page st' k) = false)
  /\ (exists tool,
        In (btn, tool) (Chat.Landing.toolBtns st)
        /\ Chat.Landing.selectedTool st' = tool
        /\ inner (Chat.Landing.page st' Chat.Landing.mainActionBtnSpan)
           = [Lit (if is_string "ats" tool then "Check Your Resume"
                   else if is_string "placement" tool then "Explore Resources"
                        else "Start AI Interview")%string]).
Proof.
  simpl. intros H.
  destruct (find _ (Chat.Landing.toolBtns st)) as [[b tool]|] eqn:Hfind; [|discriminate].
  injection H as <-.
  apply find_some in Hfind as [Hin Hb]. simpl in Hb. apply String.eqb_eq in Hb. subst b.
  destruct (landing_selectTool_page btn tool st) as (label & Hpage & Htool & Hlabel).
  rewrite Hpage. split; [|split].
  - rewrite has_class_after_set_inner, update_same. apply has_class_add.
  - intros k Hk Hne. rewrite has_class_after_set_inner, update_other.
    + now apply landing_deactivate_all.
    + apply String.eqb_neq. congruence.
  - exists tool. split; [exact Hin|]. split; [exact Htool|].
    rewrite update_same. simpl. now rewrite Hlabel.
Qed.

Lemma one_tool_is_active_witness :
  exists st',
    Chat.Landing.step
      (Chat.Landing.initial [("tool-ats", str "ats"); ("tool-interview", str "interview")]
         Sample.empty_page None)
      (Chat.Landing.ClickTool "tool-ats") = Some st'
    /\ has_class "active" (Chat.Landing.page st' "tool-ats") = true
    /\ has_class "active" (Chat.Landing.page st' "tool-interview") = false.
Proof.
  assert (H : exists st',
             Chat.Landing.step
               (Chat.Landing.initial
                  [("tool-ats", str "ats"); ("tool-interview", str "interview")]
                  Sample.empty_page None)
               (Chat.Landing.ClickTool "tool-ats") = Some st').
  { vm_compute. eexists. reflexivity. }
  destruct H as (st' & Hstep). exists st'. split; [exact Hstep|].
  destruct (one_tool_is_active _ st' _ Hstep) as (Hactive & Hothers & _).
  split; [exact Hactive|].
  apply Hothers; [simpl; tauto|discriminate].
Defined.

(** ** Leaving the landing page *)

(** X16: whatever becomes of the request to /api/analyze, the landing page
    goes on to /interview.html with a list of questions stored that is not
    empty: the list of the response when it is ok and carries one, the
    default questions otherwise.  The error display of the submit listener
    is never reached. *)
Theorem landing_always_reaches_the_interview (s s' : Chat.session)
  (r : fetched analysis) :
  Chat.step s (Chat.Landing_ (Chat.Landing.AnalyzeSettled r)) = Some s' ->
  exists q qs,
    Chat.sessionStorage s' = Some (q :: qs)
    /\ Chat.at_ s' = Chat.load (Chat.site s "/interview.html") (Some (q :: qs))
    /\ Chat.site s' = Chat.site s
    /\ (q :: qs = Chat.getDefaultQuestions
        \/ exists data,
            r = Resolved true (Body data) /\ questions data = Some (q :: qs)).
Proof.
  unfold Chat.step. intros H.
  destruct (Chat.at_ s) as [l| |]; try discriminate.
  simpl in H. destruct (Chat.Landing.awaiting l) as [|n]; [discriminate|].
  destruct r as [message|ok [message|data]]; simpl in H.
  - injection H as <-. do 2 eexists. repeat split. now left.
  - injection H as <-. do 2 eexists. repeat split. now left.
  - destruct ok; simpl in H.
    + destruct (questions data) as [[|q qs]|] eqn:Hq; simpl in H; injection H as <-.
      * do 2 eexists. repeat split. now left.
      * exists q, qs. repeat split. right. now exists data.
      * do 2 eexists. repeat split. now left.
    + injection H as <-. do 2 eexists. repeat split. now left.
Qed.

Lemma landing_always_reaches_the_interview_witness :
  exists s s',
    Chat.run (Chat.start Sample.pages "/") [Chat.Landing_ Chat.Landing.Submit] = Some s
    /\ Chat.step s
         (Chat.Landing_ (Chat.Landing.AnalyzeSettled (Rejected [Lit "Failed to fetch"])))
       = Some s'
    /\ Chat.sessionStorage s' = Some Chat.getDefaultQuestions.
Proof.
  assert (H : exists s s',
             Chat.run (Chat.start Sample.pages "/") [Chat.Landing_ Chat.Landing.Submit]
             = Some s
             /\ Chat.step s
                  (Chat.Landing_
                     (Chat.Landing.AnalyzeSettled (Rejected [Lit "Failed to fetch"])))
                = Some s').
  { vm_compute. do 2 eexists. split; reflexivity. }
  destruct H as (s & s' & Hrun & Hstep). exists s, s'.
  split; [exact Hrun|]. split; [exact Hstep|].
  destruct (landing_always_reaches_the_interview s s' _ Hstep)
    as (q & qs & Hstored & _ & _ & [Hdefault|(data & Hr & _)]).
  - now rewrite Hstored, Hdefault.
  - discriminate Hr.
Defined.

(** ** How the typed interview opens *)

(** Nothing is stored, or a list of questions that is not empty. *)
Lemma landing_stores_questions (l l' : Chat.Landing.state) (e : Chat.Landing.event) :
  Chat.Landing.step l e = Some l' ->
  Chat.Landing.storage l' = Chat.Landing.storage l
  \/ exists q qs, Chat.Landing.storage l' = Some (q :: qs).
Proof.
  intros H. destruct (landing_step_storage l l' e H) as [Hsame|[Hdefault|Hdata]].
  - now left.
  - right. rewrite Hdefault. unfold Chat.getDefaultQuestions. eauto.
  - destruct Hdata as (data & qs & -> & Hq & Hstored).
    simpl in H. destruct (Chat.Landing.awaiting l) as [|n]; [discriminate|].
    injection H as <-. simpl. rewrite Hq.
    destruct qs as [|q qs]; simpl; right; unfold Chat.getDefaultQuestions; eauto.
Qed.

Lemma chat_opening_step (st st' : Chat.Interview.state) (e : Chat.Interview.event) :
  Chat.Interview.step st e = Some st' ->
  Chat.Interview.initialQuestions st' = Chat.Interview.initialQuestions st
  /\ (Chat.Interview.currentQuestionIndex st
      <= Chat.Interview.currentQuestionIndex st'
      <= Nat.max (Chat.Interview.currentQuestionIndex st)
           (List.length (Chat.Interview.initialQuestions st)))
  /\ exists more,
      Chat.Interview.conversationHistory st'
      = Chat.Interview.conversationHistory st ++ more.
Proof.
  intros H. destruct e; step_paths H.
  all: chat_handlers; simpl; break_match; simpl.
  all: repeat match goal with
         | H : (_ <? _) = true |- _ => apply Nat.ltb_lt in H
         end.
  all: split; [reflexivity|]; split; [lia|].
  all: rewrite <- ?app_assoc; first [now exists [] ; rewrite app_nil_r | eexists; reflexivity].
Qed.

(** X17: on the typed interview page of a session the list of questions is
    never empty, its first question opens the conversation, and the index of
    the next question stays between one and the number of questions. *)
Theorem typed_interview_opens_with_a_question
  (pages : string -> Chat.html) (address : string) (events : list Chat.event)
  (s : Chat.session) (st : Chat.Interview.state) :
  Chat.run (Chat.start pages address) events = Some s ->
  Chat.at_ s = Chat.OnInterview st ->
  (exists q rest,
      nth_error (Chat.Interview.initialQuestions st) 0 = Some q
      /\ Chat.Interview.conversationHistory st
         = {| role := "model"; parts := Some q |} :: rest)
  /\ 1 <= Chat.Interview.currentQuestionIndex st
     <= List.length (Chat.Interview.initialQuestions st).
Proof.
  apply (chat_interview_invariant
           (fun stored => stored = None \/ exists q qs, stored = Some (q :: qs))
           (fun st =>
              (exists q rest,
                  nth_error (Chat.Interview.initialQuestions st) 0 = Some q
                  /\ Chat.Interview.conversationHistory st
                     = {| role := "model"; parts := Some q |} :: rest)
              /\ 1 <= Chat.Interview.currentQuestionIndex st
                 <= List.length (Chat.Interview.initialQuestions st))).
  - now left.
  - intros l e l' Hstep Hs.
    destruct (landing_stores_questions l l' e Hstep) as [->|Hsome]; [exact Hs|now right].
  - intros doc stored [->|(q & qs & ->)].
    + split; [|simpl; lia]. do 2 eexists. split; reflexivity.
    + split; [|simpl; lia]. do 2 eexists. split; reflexivity.
  - intros st0 e st1 [(q & rest & Hq & Hh) Hidx] Hstep.
    destruct (chat_opening_step st0 st1 e Hstep) as (Hqs & Hi & more & Hmore).
    rewrite Hqs. split; [|lia].
    exists q, (rest ++ more). split; [exact Hq|]. now rewrite Hmore, Hh.
Qed.

Lemma typed_interview_opens_with_a_question_witness :
  exists s st,
    Chat.run (Chat.start Sample.pages "/") Sample.offline = Some s
    /\ Chat.at_ s = Chat.OnInterview st
    /\ Chat.Interview.currentQuestionIndex st = 1
    /\ 1 <= Chat.Interview.currentQuestionIndex st
       <= List.length (Chat.Interview.initialQuestions st).
Proof.
  assert (H : exists s st,
             Chat.run (Chat.start Sample.pages "/") Sample.offline = Some s
             /\ Chat.at_ s = Chat.OnInterview st
             /\ Chat.Interview.currentQuestionIndex st = 1).
  { vm_compute. do 2 eexists. split; [reflexivity|]. split; reflexivity. }
  destruct H as (s & st & Hrun & Hat & Hidx). exists s, st.
  split; [exact Hrun|]. split; [exact Hat|]. split; [exact Hidx|].
  exact (proj2 (typed_interview_opens_with_a_question _ _ _ s st Hrun Hat)).
Defined.

(** ** One request at a time on the typed interview page *)

Ltac chat_one_request :=
  unfold one_request_at_a_time, controls_disabled, report_requests, fetches_to in *;
  simpl; rewrite ?filter_app, ?length_app; simpl; page_lookup; simpl;
  repeat match goal with
    | H : Chat.Interview.pending _ = _ |- _ => rewrite H
    end;
  simpl;
  first
    [ left; split; [reflexivity|lia]
    | right; split; [split; (reflexivity || assumption)|];
      first [ left; split; [reflexivity|lia]
            | right; split; [lia|]; first [left; reflexivity|right; reflexivity] ] ].

Lemma chat_one_request_step (st st' : Chat.Interview.state)
  (e : Chat.Interview.event) :
  one_request_at_a_time st ->
  Chat.Interview.step st e = Some st' ->
  one_request_at_a_time st'.
Proof.
  intros Hinv H.
  destruct Hinv as [[Hp He]|[[Hd1 Hd2] [[Hp He]|[He [Hp|Hp]]]]].
  all: destruct e; unfold Chat.Interview.step, Chat.Interview.resume in H.
  all: rewrite ?Hp, ?Hd1, ?Hd2 in H; simpl in H; try discriminate H.
  all: repeat match type of H with
         | context [match ?x with _ => _ end] => destruct x eqn:?; simpl in H
         end; try discriminate H; injection H as <-.
  all: chat_handlers; simpl; break_match.
  all: chat_one_request.
Qed.

Lemma chat_one_request_initial (doc : document) (stored : option (list json)) :
  stored = None \/ (exists q qs, stored = Some (q :: qs)) ->
  one_request_at_a_time (Chat.Interview.initial doc stored).
Proof. intros [->|(q & qs & ->)]; left; split; reflexivity. Qed.

(** X18: the typed interview of a session has at most one request in
    flight and asks for the report at most once.  While a request is in
    flight, and for good once the report has been requested, the answer box
    and the submit button are disabled, and after the request for the report
    the page reacts to nothing but the settling of that request. *)
Theorem report_is_requested_at_most_once
  (pages : string -> Chat.html) (address : string) (events : list Chat.event)
  (s : Chat.session) (st : Chat.Interview.state) :
  Chat.run (Chat.start pages address) events = Some s ->
  Chat.at_ s = Chat.OnInterview st ->
  List.length (Chat.Interview.pending st) <= 1
  /\ report_requests st <= 1
  /\ (Chat.Interview.pending st <> [] \/ report_requests st = 1 ->
      controls_disabled st)
  /\ (report_requests st = 1 ->
      forall e st', Chat.Interview.step st e = Some st' ->
        exists r, e = Chat.Interview.EvaluateSettled r).
Proof.
  intros Hrun Hat.
  assert (Hinv : one_request_at_a_time st).
  { revert Hrun Hat.
    apply (chat_interview_invariant
             (fun stored => stored = None \/ exists q qs, stored = Some (q :: qs))
             one_request_at_a_time).
    - now left.
    - intros l e l' Hstep Hs.
      destruct (landing_stores_questions l l' e Hstep) as [->|Hsome];
        [exact Hs|now right].
    - intros doc stored. apply chat_one_request_initial.
    - intros st0 e st1 H0 Hstep. exact (chat_one_request_step st0 st1 e H0 Hstep). }
  destruct Hinv as [[Hp He]|[Hd [[Hp He]|[He Hp]]]].
  - rewrite Hp, He. simpl. split; [lia|]. split; [lia|]. split.
    + intros [H|H]; [now contradiction H|discriminate H].
    + intros H. discriminate H.
  - rewrite Hp, He. simpl. split; [lia|]. split; [lia|]. split.
    + intros _. exact Hd.
    + intros H. discriminate H.
  - rewrite He. split; [destruct Hp as [->| ->]; simpl; lia|].
    split; [lia|]. split; [intros _; exact Hd|].
    intros _ e st' Hstep. destruct Hd as [Hd1 Hd2].
    destruct e; unfold Chat.Interview.step, Chat.Interview.resume in Hstep;
      rewrite ?Hd1, ?Hd2 in Hstep; try discriminate Hstep.
    + destruct Hp as [Hp|Hp]; rewrite Hp in Hstep; discriminate Hstep.
    + eauto.
Qed.

Lemma report_is_requested_at_most_once_witness :
  exists s st,
    Chat.run (Chat.start Sample.pages "/") Scenario.one_question = Some s
    /\ Chat.at_ s = Chat.OnInterview st
    /\ report_requests st = 1
    /\ Chat.Interview.pending st = [Chat.Interview.AwaitEvaluate]
    /\ controls_disabled st.
Proof.
  assert (H : exists s st,
             Chat.run (Chat.start Sample.pages "/") Scenario.one_question = Some s
             /\ Chat.at_ s = Chat.OnInterview st
             /\ report_requests st = 1
             /\ Chat.Interview.pending st = [Chat.Interview.AwaitEvaluate]).
  { vm_compute. do 2 eexists. split; [reflexivity|]. split; [reflexivity|].
    split; reflexivity. }
  destruct H as (s & st & Hrun & Hat & Hreq & Hp). exists s, st.
  split; [exact Hrun|]. split; [exact Hat|]. split; [exact Hreq|]. split; [exact Hp|].
  destruct (report_is_requested_at_most_once _ _ _ s st Hrun Hat)
    as (_ & _ & Hd & _).
  apply Hd. now right.
Defined.

(** ** What the submit of the landing page does *)

Lemma landing_deactivate_shape (btns : list (string * value)) :
  forall st : Chat.Landing.state,
    fold_left (fun st b => Chat.Landing.on (fst b) (remove_class "active") st) btns st
    = Chat.Landing.with_page
        (Chat.Landing.page
           (fold_left (fun st b => Chat.Landing.on (fst b) (remove_class "active") st)
              btns st))
        st.
Proof.
  induction btns as [|b btns IH]; intros st; simpl.
  - now destruct st.
  - now rewrite IH at 1.
Qed.

Lemma landing_selectTool_shape (btn : string) (tool : value) (st : Chat.Landing.state) :
  Chat.Landing.selectTool btn tool st
  = Chat.Landing.with_page
      (Chat.Landing.page (Chat.Landing.selectTool btn tool st))
      (Chat.Landing.with_selectedTool tool st).
Proof.
  unfold Chat.Landing.selectTool.
  rewrite (landing_deactivate_shape (Chat.Landing.toolBtns st) st). simpl.
  destruct (is_string "ats" tool); [|destruct (is_string "placement" tool)]; reflexivity.
Qed.

(** X19: the tool chosen decides what the submit does.  With 'ats' or
    'placement' chosen the page is left for the resume checker or the
    placement resources, without a request and without storing anything; with
    any other tool the form gives way to the loading indicator and one
    request with an empty body goes to /api/analyze. *)
Theorem chosen_tool_decides_the_submit (st st1 : Chat.Landing.state) (btn : string) :
  Chat.Landing.step st (Chat.Landing.ClickTool btn) = Some st1 ->
  exists tool st2,
    In (btn, tool) (Chat.Landing.toolBtns st)
    /\ Chat.Landing.step st1 Chat.Landing.Submit = Some st2
    /\ Chat.Landing.storage st2 = Chat.Landing.storage st
    /\ if is_string "ats" tool || is_string "placement" tool then
         Chat.Landing.href st2
         = Some (if is_string "ats" tool then "resumechecker.html"
                 else "placementresources.html")%string
         /\ fetches_to "/api/analyze" (Chat.Landing.trace st2)
            = fetches_to "/api/analyze" (Chat.Landing.trace st)
         /\ Chat.Landing.awaiting st2 = Chat.Landing.awaiting st
         /\ Chat.Landing.page st2 = Chat.Landing.page st1
       else
         Chat.Landing.href st2 = Chat.Landing.href st
         /\ Chat.Landing.trace st2
            = Chat.Landing.trace st ++ [Fetch "/api/analyze" EmptyObject]
         /\ Chat.Landing.awaiting st2 = S (Chat.Landing.awaiting st)
         /\ display (Chat.Landing.page st2 Chat.Landing.resumeForm) = "none"%string
         /\ display (Chat.Landing.page st2 Chat.Landing.loadingIndicator)
            = "block"%string.
Proof.
  simpl. intros H.
  destruct (find _ (Chat.Landing.toolBtns st)) as [[b tool]|] eqn:Hfind; [|discriminate].
  injection H as <-.
  apply find_some in Hfind as [Hin Hb]. simpl in Hb. apply String.eqb_eq in Hb. subst b.
  exists tool. eexists. split; [exact Hin|]. split; [reflexivity|].
  rewrite (landing_selectTool_shape btn tool st).
  generalize (Chat.Landing.page (Chat.Landing.selectTool btn tool st)). intros p.
  unfold Chat.Landing.submit. simpl.
  destruct (is_string "ats" tool); simpl.
  - split; [reflexivity|]. split; [reflexivity|]. split; [|split; reflexivity].
    unfold fetches_to. rewrite filter_app, length_app. simpl. lia.
  - destruct (is_string "placement" tool); simpl.
    + split; [reflexivity|]. split; [reflexivity|]. split; [|split; reflexivity].
      unfold fetches_to. rewrite filter_app, length_app. simpl. lia.
    + split; [reflexivity|]. split; [reflexivity|]. split; [reflexivity|].
      split; [reflexivity|]. now page_lookup.
Qed.

Lemma chosen_tool_decides_the_submit_witness :
  exists st1 st2,
    Chat.Landing.step
      (Chat.Landing.initial [("tool-ats", str "ats"); ("tool-interview", str "interview")]
         Sample.empty_page None)
      (Chat.Landing.ClickTool "tool-ats") = Some st1
    /\ Chat.Landing.step st1 Chat.Landing.Submit = Some st2
    /\ Chat.Landing.storage st2 = None.
Proof.
  assert (H : exists st1,
             Chat.Landing.step
               (Chat.Landing.initial
                  [("tool-ats", str "ats"); ("tool-interview", str "interview")]
                  Sample.empty_page None)
               (Chat.Landing.ClickTool "tool-ats") = Some st1).
  { vm_compute. eexists. reflexivity. }
  destruct H as (st1 & Hstep). exists st1.
  destruct (chosen_tool_decides_the_submit _ st1 _ Hstep)
    as (tool & st2 & _ & Hsubmit & Hstorage & _).
  exists st2. split; [exact Hstep|]. split; [exact Hsubmit|]. exact Hstorage.
Defined.

(** * The avatar and the follow-ups over whole runs *)

(** ** The size of the avatar *)

Lemma voice_volume_step (st st' : Voice.state) (e : Voice.event) :
  Voice.step st e = Some st' ->
  avatar_ready st -> avatar_in_bounds st -> avatar_in_bounds st'.
Proof.
  intros H Hr Hinv. destruct e; step_paths H.
  all: unfold Voice.handleFileSelection, Voice.handleJobRoleSubmit,
      Voice.handleJobRoleSubmit_settled, Voice.handleJobRoleSubmit_catch,
      Voice.setupMedia_settled, Voice.setupMedia_loaded, Voice.setupMedia_catch,
      Voice.initAudioVisualizer, Voice.setupSpeechSynthesis, Voice.setupMedia,
      Voice.askNextQuestion, Voice.askNextQuestion_spoken,
      Voice.endInterview, Voice.endInterview_spoken, Voice.endInterview_settled,
      Voice.endInterview_catch, Voice.toggleRecording, Voice.onstart,
      Voice.onresult, Voice.onend, Voice.onend_settled, Voice.onend_catch;
    simpl.
  all: try match goal with
         | |- context [Voice.animateAvatar ?s] =>
             destruct (animateAvatar_bounded s) as (a & Ha & Hb);
               [ destruct Hr as [Hlen Hav]; split; simpl;
                 [ exact Hlen
                 | intros Hin; apply Hav;
                   eapply voice_take_pending; eassumption ]
               | apply (avatar_in_bounds_same _ st); try reflexivity; exact Hinv
               | rewrite Ha; simpl; exact Hb ]
         end.
  all: break_match; try exact Hinv.
  all: match goal with
       | Hi : Voice.initAvatar ?s = _ |- _ =>
           destruct (initAvatar_bounded s) as (a & Ha & Hb);
             [ destruct Hr as [Hlen Hav]; split; simpl;
               [ exact Hlen
               | intros Hin; apply Hav; eapply take_subset; eassumption ]
             | apply (avatar_in_bounds_same _ st); try reflexivity; exact Hinv
             | rewrite Hi in Ha;
               assert (a = st0) by (destruct Ha as [Ha|[m Ha]]; congruence);
               subst a; apply (avatar_in_bounds_same _ st0);
               [reflexivity|reflexivity|exact Hb] ]
       end.
Qed.

Lemma voice_avatar_invariant (supported : bool) (doc : document)
  (events : list Voice.event) (st : Voice.state) :
  Voice.run (Voice.initial supported doc) events = Some st ->
  avatar_ready st /\ avatar_in_bounds st.
Proof.
  intros Hrun.
  apply (voice_run_invariant (fun s => avatar_ready s /\ avatar_in_bounds s))
    with (3 := Hrun).
  - intros s e s' [Hr Hb] He. split.
    + now apply (voice_step_ready s s' e).
    + now apply (voice_volume_step s s' e).
  - split; [apply voice_initial_ready|]. split; [exact in_range_zero|now left].
Qed.

Lemma voice_run_app (st : Voice.state) (events1 events2 : list Voice.event) :
  Voice.run st (events1 ++ events2)
  = match Voice.run st events1 with
    | Some st1 => Voice.run st1 events2
    | None => None
    end.
Proof.
  revert st. induction events1 as [|e events1 IH]; intros st; simpl; [reflexivity|].
  destruct (Voice.step st e); [apply IH|reflexivity].
Qed.

Lemma mean_of_32 (bins : list byte) :
  List.length bins = Voice.frequencyBinCount ->
  (mean bins == inject_Z (sum_of bins) / inject_Z 32)%Q.
Proof. intros H. unfold mean, sum_of. rewrite H. reflexivity. Qed.

Lemma mean_le_sum (bins1 bins2 : list byte) :
  List.length bins1 = Voice.frequencyBinCount ->
  List.length bins2 = Voice.frequencyBinCount ->
  (mean bins1 <= mean bins2)%Q -> (sum_of bins1 <= sum_of bins2)%Z.
Proof.
  intros H1 H2. rewrite (mean_of_32 _ H1), (mean_of_32 _ H2).
  unfold Qdiv. change (/ inject_Z 32)%Q with (1 # 32)%Q.
  unfold Qle, Qmult, inject_Z. cbn [Qnum Qden]. lia.
Qed.

(** A frame of a running page that has an analyser. *)
Lemma voice_frame_reads (supported : bool) (doc : document)
  (events : list Voice.event) (st st' : Voice.state) (data : list byte) :
  Voice.run (Voice.initial supported doc) events = Some st ->
  Voice.analyser st = Some data ->
  Voice.step st Voice.Frame = Some st' ->
  let bins := Voice.getByteFrequencyData data (Voice.audioDataArray st) in
  let total := sum_of bins in
  let avg := Number.div (Number.of_Z total) (Number.of_Z 32) in
  let volume := smooth (Voice.smoothedVolume st) (target_of total) in
  List.length bins = Voice.frequencyBinCount
  /\ (0 <= total <= 8160)%Z
  /\ in_range (Voice.smoothedVolume st)
  /\ Voice.audioDataArray st' = bins
  /\ Voice.smoothedVolume st' = volume
  /\ Voice.avatar st' = Some (volume, volume, volume).
Proof.
  intros Hrun Han Hstep bins total avg volume.
  destruct (voice_avatar_invariant _ _ _ _ Hrun) as [[Harr Hav] [Hs _]].
  simpl in Hstep. unfold Voice.resume in Hstep.
  destruct (take Voice.task_eqb Voice.NextFrame (Voice.pending st)) as [rest|] eqn:Ht;
    [|discriminate].
  simpl in Hstep. injection Hstep as <-.
  destruct (Voice.avatar st) as [sc|] eqn:Hsc.
  2:{ exfalso. apply Hav; [|reflexivity]. now apply (voice_take_pending _ _ rest). }
  assert (Hlen : List.length bins = Voice.frequencyBinCount).
  { subst bins. rewrite getByteFrequencyData_length. apply Harr. congruence. }
  destruct (animateAvatar_active (Voice.with_pending rest st) data sc Han Hsc)
    as (a & Ha & Hbins & Hvol & Havatar & _).
  { simpl. fold bins. intros E. rewrite E in Hlen. discriminate. }
  simpl in Hbins, Hvol, Havatar. fold bins in Hbins, Hvol, Havatar.
  rewrite Hlen in Hvol, Havatar.
  rewrite Ha. simpl.
  pose proof (sum_of_bounds bins) as Hsum. rewrite Hlen in Hsum.
  unfold Voice.frequencyBinCount in Hsum.
  split; [exact Hlen|]. split; [subst total; lia|]. split; [exact Hs|].
  split; [exact Hbins|]. split; [exact Hvol|exact Havatar].
Qed.

Lemma voice_hear_frame (supported : bool) (doc : document)
  (events : list Voice.event) (st st' : Voice.state) (data : list byte) :
  Voice.run (Voice.initial supported doc) events = Some st ->
  Voice.run st [Voice.Hear data; Voice.Frame] = Some st' ->
  List.length data = Voice.frequencyBinCount
  /\ (0 <= sum_of data <= 8160)%Z
  /\ in_range (Voice.smoothedVolume st)
  /\ Voice.audioDataArray st' = data
  /\ Voice.smoothedVolume st' = smooth (Voice.smoothedVolume st) (target_of (sum_of data)).
Proof.
  intros Hrun H.
  destruct (voice_avatar_invariant _ _ _ _ Hrun) as [[Harr _] [Hs _]].
  cbn [Voice.run] in H.
  destruct (Voice.step st (Voice.Hear data)) as [st1|] eqn:Hhear; [|discriminate].
  destruct (Voice.step st1 Voice.Frame) as [st2|] eqn:Hframe; [|discriminate].
  injection H as <-.
  assert (Hrun1 : Voice.run (Voice.initial supported doc) (events ++ [Voice.Hear data])
                  = Some st1).
  { rewrite voice_run_app, Hrun. cbn [Voice.run]. now rewrite Hhear. }
  simpl in Hhear.
  destruct (Voice.analyser st) as [old|] eqn:Han; [|discriminate].
  destruct (List.length data =? Voice.frequencyBinCount) eqn:Hlen; [|discriminate].
  apply Nat.eqb_eq in Hlen. injection Hhear as <-.
  destruct (voice_frame_reads _ _ _ _ st2 data Hrun1 eq_refl Hframe)
    as (_ & Hsum & _ & Hbins & Hvol & _).
  simpl in Hsum, Hbins, Hvol.
  rewrite getByteFrequencyData_all in Hsum, Hbins, Hvol
    by (rewrite Hlen; symmetry; apply Harr; discriminate).
  split; [exact Hlen|]. split; [exact Hsum|]. split; [exact Hs|].
  split; [exact Hbins|exact Hvol].
Qed.

(** C7: on every animation frame of a running page that has an analyser,
    the bins are read; avg, their sum divided by their number, is exactly
    their arithmetic mean; the target scale is 1 + (avg / 128) * 0.7;
    [smoothedVolume] moves from its old value s to
    s + (targetScale - s) * 0.2, a finite Number; and the x, y and z scale
    of the avatar are all set to that new value.  Every operation is the one
    of binary64, rounding to nearest.  The same rule holds for every call of
    [animateAvatar] that finds an analyser, an avatar and a bin to read.  On
    a running page the new scale does not decrease when the mean of the bins
    the frame reads increases. *)
Theorem avatar_follows_volume :
  (forall (supported : bool) (doc : document) (events : list Voice.event)
      (st st' : Voice.state) (data : list byte),
      Voice.run (Voice.initial supported doc) events = Some st ->
      Voice.analyser st = Some data ->
      Voice.step st Voice.Frame = Some st' ->
      let bins := Voice.audioDataArray st' in
      let avg :=
        Number.div (Number.of_Z (sum_of bins))
          (Number.of_Z (Z.of_nat (List.length bins))) in
      let targetScale :=
        Number.add (Number.of_Z 1)
          (Number.mul (Number.div avg (Number.of_Z 128)) (Number.tenths 7)) in
      let volume :=
        Number.add (Voice.smoothedVolume st)
          (Number.mul (Number.sub targetScale (Voice.smoothedVolume st))
             (Number.tenths 2)) in
      bins = Voice.getByteFrequencyData data (Voice.audioDataArray st)
      /\ List.length bins = Voice.frequencyBinCount
      /\ (Number.to_Q avg == mean bins)%Q
      /\ Voice.smoothedVolume st' = volume
      /\ Voice.avatar st' = Some (volume, volume, volume)
      /\ representable volume)
  /\ (forall (st : Voice.state) (data : list byte) (sc : Voice.scale),
      Voice.analyser st = Some data -> Voice.avatar st = Some sc ->
      Voice.getByteFrequencyData data (Voice.audioDataArray st) <> [] ->
      let bins := Voice.getByteFrequencyData data (Voice.audioDataArray st) in
      let avg :=
        Number.div (Number.of_Z (sum_of bins))
          (Number.of_Z (Z.of_nat (List.length bins))) in
      let targetScale :=
        Number.add (Number.of_Z 1)
          (Number.mul (Number.div avg (Number.of_Z 128)) (Number.tenths 7)) in
      let volume :=
        Number.add (Voice.smoothedVolume st)
          (Number.mul (Number.sub targetScale (Voice.smoothedVolume st))
             (Number.tenths 2)) in
      exists st',
        Voice.animateAvatar st = Voice.Returned st'
        /\ Voice.smoothedVolume st' = volume
        /\ Voice.avatar st' = Some (volume, volume, volume))
  /\ (forall (supported : bool) (doc : document) (events : list Voice.event)
      (st st1 st2 : Voice.state) (data1 data2 : list byte),
      Voice.run (Voice.initial supported doc) events = Some st ->
      Voice.run st [Voice.Hear data1; Voice.Frame] = Some st1 ->
      Voice.run st [Voice.Hear data2; Voice.Frame] = Some st2 ->
      (mean data1 <= mean data2)%Q ->
      Voice.audioDataArray st1 = data1
      /\ Voice.audioDataArray st2 = data2
      /\ representable (Voice.smoothedVolume st1)
      /\ representable (Voice.smoothedVolume st2)
      /\ (Number.to_Q (Voice.smoothedVolume st1)
          <= Number.to_Q (Voice.smoothedVolume st2))%Q).
Proof.
  split; [|split].
  - intros supported doc events st st' data Hrun Han Hstep.
    destruct (voice_frame_reads _ _ _ _ _ _ Hrun Han Hstep)
      as (Hlen & Hsum & Hs & Hbins & Hvol & Hav).
    cbv zeta in *. rewrite Hbins, Hlen.
    split; [reflexivity|]. split; [reflexivity|].
    split.
    { rewrite (mean_of_32 _ Hlen). apply mean_exact_Q. now apply target_mean_exact. }
    split; [exact Hvol|]. split; [exact Hav|].
    apply (fin_shape 2). apply (in_range_smooth _ _ Hs Hsum).
  - intros st data sc Ha Hv Hne.
    destruct (animateAvatar_active st data sc Ha Hv Hne)
      as (st' & Hst' & _ & Hvol & Hsc & _).
    exists st'. split; [exact Hst'|]. split; [exact Hvol|exact Hsc].
  - intros supported doc events st st1 st2 data1 data2 Hrun H1 H2 Hmean.
    destruct (voice_hear_frame _ _ _ _ _ _ Hrun H1) as (Hl1 & Hs1 & Hs & Hb1 & Hv1).
    destruct (voice_hear_frame _ _ _ _ _ _ Hrun H2) as (Hl2 & Hs2 & _ & Hb2 & Hv2).
    pose proof (in_range_smooth _ _ Hs Hs1) as [Hf1 _].
    pose proof (in_range_smooth _ _ Hs Hs2) as [Hf2 _].
    rewrite <- Hv1 in Hf1. rewrite <- Hv2 in Hf2.
    split; [exact Hb1|]. split; [exact Hb2|].
    split; [exact (fin_shape 2 _ Hf1)|]. split; [exact (fin_shape 2 _ Hf2)|].
    apply to_Q_le; [exact (fin_shape 2 _ Hf1)|exact (fin_shape 2 _ Hf2)|].
    rewrite Hv1, Hv2.
    destruct Hs as [Hs _].
    destruct (in_range_target _ Hs1) as [Ht1 _].
    destruct (in_range_target _ Hs2) as [Ht2 _].
    apply smooth_mono; try assumption.
    apply target_mono; try lia.
    now apply mean_le_sum.
Qed.

Lemma avatar_follows_volume_witness :
  (exists st st',
      Voice.run (Voice.initial true (Voice.page (Sample.filled "Engineer")))
        Sample.until_listening = Some st
      /\ Voice.step st Voice.Frame = Some st'
      /\ Voice.smoothedVolume st' = S754_finite false 6124895493223875 (-54)
      /\ Voice.avatar st'
         = Some (Voice.smoothedVolume st', Voice.smoothedVolume st',
                 Voice.smoothedVolume st'))
  /\ (exists st st1 st2,
      Voice.run (Voice.initial true (Voice.page (Sample.filled "Engineer")))
        Sample.until_listening = Some st
      /\ Voice.run st [Voice.Hear Sample.silence; Voice.Frame] = Some st1
      /\ Voice.run st [Voice.Hear Sample.tone; Voice.Frame] = Some st2
      /\ (Number.to_Q (Voice.smoothedVolume st1)
          <= Number.to_Q (Voice.smoothedVolume st2))%Q).
Proof.
  destruct avatar_follows_volume as (Hframe & _ & Hmono).
  split.
  - assert (H : exists st,
               Voice.run (Voice.initial true (Voice.page (Sample.filled "Engineer")))
                 Sample.until_listening = Some st
               /\ Voice.analyser st = Some Sample.tone
               /\ exists st',
                   Voice.step st Voice.Frame = Some st'
                   /\ Voice.smoothedVolume st'
                      = S754_finite false 6124895493223875 (-54)).
    { eexists. split; [vm_compute; reflexivity|]. split; [vm_compute; reflexivity|].
      eexists. split; [vm_compute; reflexivity|]. vm_compute. reflexivity. }
    destruct H as (st & Hrun & Han & st' & Hstep & Hvol).
    exists st, st'. split; [exact Hrun|]. split; [exact Hstep|]. split; [exact Hvol|].
    destruct (Hframe true _ _ st st' Sample.tone Hrun Han Hstep)
      as (_ & _ & _ & Hnew & Hsc & _).
    rewrite Hsc, Hnew. reflexivity.
  - assert (H : exists st,
               Voice.run (Voice.initial true (Voice.page (Sample.filled "Engineer")))
                 Sample.until_listening = Some st
               /\ (exists st1,
                     Voice.run st [Voice.Hear Sample.silence; Voice.Frame] = Some st1)
               /\ (exists st2,
                     Voice.run st [Voice.Hear Sample.tone; Voice.Frame] = Some st2)).
    { eexists. split; [vm_compute; reflexivity|].
      split; eexists; vm_compute; reflexivity. }
    destruct H as (st & Hrun & (st1 & H1) & (st2 & H2)).
    assert (Hmean : (mean Sample.silence <= mean Sample.tone)%Q)
      by (vm_compute; discriminate).
    exists st, st1, st2. split; [exact Hrun|]. split; [exact H1|]. split; [exact H2|].
    exact (proj2 (proj2 (proj2 (proj2
             (Hmono true _ _ st st1 st2 _ _ Hrun H1 H2 Hmean))))).
Defined.

Lemma in_range_one : in_range (Number.of_Z 1).
Proof.
  split; [vm_compute; intuition discriminate|].
  destruct (target_facts 8160 ltac:(lia)) as (_ & _ & _ & H & _).
  fold largest_scale in H.
  assert (E : weight (Number.of_Z 1) = scaled 1 0) by (vm_compute; reflexivity).
  pose proof (W_pos 1 0 ltac:(unfold grain; lia)). lia.
Qed.

Lemma in_range_Q (x : Number.t) :
  in_range x ->
  representable x /\ (0 <= Number.to_Q x <= Number.to_Q largest_scale)%Q.
Proof.
  intros [Hf [H0 H1]].
  pose proof (fin_shape 2 x Hf) as Hx.
  destruct (in_range_target 8160 ltac:(lia)) as [Hl _]. fold largest_scale in Hl.
  pose proof (fin_shape 2 _ Hl) as Hy.
  split; [exact Hx|]. split.
  - rewrite (weight_ulps x Hx) in H0.
    assert (0 < 2 ^ 1126)%Z by (apply Z.pow_pos_nonneg; lia).
    unfold Number.to_Q, Qle. cbn [Qnum Qden]. nia.
  - apply to_Q_le; assumption.
Qed.

(** X8: the avatar stays within bounds and in proportion.  After any run
    [smoothedVolume] is a finite Number between 0 and the largest target
    scale, 1 + (255 / 128) * 0.7 as binary64 computes it, the target for
    every bin at its largest value; and the avatar, once created, has the
    same scale on x, y and z, within the same bounds. *)
Theorem avatar_scale_is_bounded (supported : bool) (doc : document)
  (events : list Voice.event) (st : Voice.state) :
  Voice.run (Voice.initial supported doc) events = Some st ->
  largest_scale
  = Number.add (Number.of_Z 1)
      (Number.mul (Number.div (Number.of_Z 255) (Number.of_Z 128)) (Number.tenths 7))
  /\ representable (Voice.smoothedVolume st)
  /\ (0 <= Number.to_Q (Voice.smoothedVolume st) <= Number.to_Q largest_scale)%Q
  /\ forall x y z : Number.t,
      Voice.avatar st = Some (x, y, z) ->
      x = y /\ y = z /\ representable x
      /\ (0 <= Number.to_Q x <= Number.to_Q largest_scale)%Q.
Proof.
  intros Hrun.
  destruct (voice_avatar_invariant _ _ _ _ Hrun) as [_ [Hs Hav]].
  split; [vm_compute; reflexivity|].
  destruct (in_range_Q _ Hs) as [Hr Hb].
  split; [exact Hr|]. split; [exact Hb|].
  intros x y z Hxyz. rewrite Hxyz in Hav.
  destruct Hav as [Hav|[Hav|Hav]]; [discriminate| |]; injection Hav as -> -> ->.
  - split; [reflexivity|]. split; [reflexivity|]. exact (in_range_Q _ in_range_one).
  - split; [reflexivity|]. split; [reflexivity|]. split; [exact Hr|exact Hb].
Qed.

Lemma avatar_scale_is_bounded_witness :
  exists st,
    Voice.run (Voice.initial true (Voice.page (Sample.filled "Engineer")))
      (Sample.until_listening ++ [Voice.Frame; Voice.Frame]) = Some st
    /\ Voice.smoothedVolume st = S754_finite false 5512405943901487 (-53)
    /\ (0 <= Number.to_Q (Voice.smoothedVolume st) <= Number.to_Q largest_scale)%Q.
Proof.
  assert (H : exists st,
             Voice.run (Voice.initial true (Voice.page (Sample.filled "Engineer")))
               (Sample.until_listening ++ [Voice.Frame; Voice.Frame]) = Some st
             /\ Voice.smoothedVolume st = S754_finite false 5512405943901487 (-53)).
  { eexists. split; [vm_compute; reflexivity|]. vm_compute. reflexivity. }
  destruct H as (st & Hrun & Hvol). exists st. split; [exact Hrun|].
  split; [exact Hvol|].
  exact (proj1 (proj2 (proj2 (avatar_scale_is_bounded true _ _ st Hrun)))).
Defined.


(** ** The animation loop *)

Lemma voice_frames_step (st st' : Voice.state) (e : Voice.event) :
  Voice.step st e = Some st' ->
  voice_waiting Voice.NextFrame (Voice.pending st)
    <= calls_of "initAvatar" (Voice.trace st)
  /\ (Voice.avatar st = None -> voice_waiting Voice.NextFrame (Voice.pending st) = 0)
  /\ (Voice.avatar st <> None -> 1 <= voice_waiting Voice.NextFrame (Voice.pending st)) ->
  voice_waiting Voice.NextFrame (Voice.pending st')
    <= calls_of "initAvatar" (Voice.trace st')
  /\ (Voice.avatar st' = None
      -> voice_waiting Voice.NextFrame (Voice.pending st') = 0)
  /\ (Voice.avatar st' <> None
      -> 1 <= voice_waiting Voice.NextFrame (Voice.pending st')).
Proof.
  intros H (Hle & Hnone & Hsome). destruct e; step_paths H.
  all: try match goal with
         | Ht : take Voice.task_eqb _ _ = Some _ |- _ =>
             apply (voice_take_waiting _ Voice.NextFrame) in Ht; simpl in Ht
         end.
  all: voice_handlers; simpl; break_match.
  all: unfold voice_waiting, calls_of in *; simpl;
    rewrite ?filter_app, ?length_app; simpl.
  all: repeat split; intros; try discriminate; try lia.
  all: try (specialize (Hnone ltac:(congruence)));
    try (specialize (Hsome ltac:(congruence))); lia.
Qed.

Lemma voice_frames_step_webgl (st st' : Voice.state) (e : Voice.event) :
  (forall message, e <> Voice.WebGL (Some message)) ->
  Voice.webgl st = None
  /\ voice_waiting Voice.NextFrame (Voice.pending st)
     = calls_of "initAvatar" (Voice.trace st) ->
  Voice.step st e = Some st' ->
  Voice.webgl st' = None
  /\ voice_waiting Voice.NextFrame (Voice.pending st')
     = calls_of "initAvatar" (Voice.trace st').
Proof.
  intros Hne (Hgl & Hinv) H. destruct e; step_paths H.
  all: try match goal with
         | Ht : take Voice.task_eqb _ _ = Some _ |- _ =>
             apply (voice_take_waiting _ Voice.NextFrame) in Ht; simpl in Ht
         end.
  all: voice_handlers; simpl; rewrite ?Hgl; simpl; break_match.
  all: try congruence.
  all: try (destruct failure as [message|]; [exfalso; now apply (Hne message)|]).
  all: split; [first [exact Hgl|reflexivity]|].
  all: unfold voice_waiting, calls_of in *; simpl;
    rewrite ?filter_app, ?length_app; simpl; lia.
Qed.

(** X7: the animation loop neither stops nor multiplies.  After any run
    there are at most as many animation frames requested and not yet run as
    calls of [initAvatar]; there is none as long as there is no avatar, and
    at least one once there is an avatar: every frame requests its successor
    before anything else.  In a run where the browser never refuses a WebGL
    context the two numbers are equal. *)
Theorem one_frame_pending_per_avatar (supported : bool) (doc : document)
  (events : list Voice.event) (st : Voice.state) :
  Voice.run (Voice.initial supported doc) events = Some st ->
  voice_waiting Voice.NextFrame (Voice.pending st)
    <= calls_of "initAvatar" (Voice.trace st)
  /\ (Voice.avatar st = None
      <-> voice_waiting Voice.NextFrame (Voice.pending st) = 0)
  /\ (Forall (fun e => forall message, e <> Voice.WebGL (Some message)) events ->
      voice_waiting Voice.NextFrame (Voice.pending st)
      = calls_of "initAvatar" (Voice.trace st)).
Proof.
  intros Hrun.
  assert (H : voice_waiting Voice.NextFrame (Voice.pending st)
                <= calls_of "initAvatar" (Voice.trace st)
              /\ (Voice.avatar st = None
                  -> voice_waiting Voice.NextFrame (Voice.pending st) = 0)
              /\ (Voice.avatar st <> None
                  -> 1 <= voice_waiting Voice.NextFrame (Voice.pending st))).
  { apply (voice_run_invariant
             (fun st => voice_waiting Voice.NextFrame (Voice.pending st)
                          <= calls_of "initAvatar" (Voice.trace st)
                        /\ (Voice.avatar st = None
                            -> voice_waiting Voice.NextFrame (Voice.pending st) = 0)
                        /\ (Voice.avatar st <> None
                            -> 1 <= voice_waiting Voice.NextFrame (Voice.pending st))))
      with (3 := Hrun).
    - intros s e s' Hs He. now apply (voice_frames_step s s' e).
    - split; [unfold voice_waiting, calls_of; simpl; lia|].
      split; [reflexivity|simpl; congruence]. }
  destruct H as (Hle & Hnone & Hsome).
  split; [exact Hle|]. split.
  - split; [exact Hnone|]. intros H0.
    destruct (Voice.avatar st) as [sc|]; [|reflexivity].
    specialize (Hsome ltac:(discriminate)). lia.
  - intros Hall.
    apply (voice_run_invariant_when
             (fun e => forall message, e <> Voice.WebGL (Some message))
             (fun st => Voice.webgl st = None
                        /\ voice_waiting Voice.NextFrame (Voice.pending st)
                           = calls_of "initAvatar" (Voice.trace st)))
      with (4 := Hrun); [|exact Hall|split; reflexivity].
    intros s e s' He Hs Hstep. now apply (voice_frames_step_webgl s s' e).
Qed.

Lemma one_frame_pending_per_avatar_witness :
  exists st,
    Voice.run (Voice.initial true (Voice.page (Sample.filled "Engineer")))
      (Sample.until_listening ++ [Voice.Frame; Voice.Frame]) = Some st
    /\ voice_waiting Voice.NextFrame (Voice.pending st) = 1.
Proof.
  assert (H : exists st,
             Voice.run (Voice.initial true (Voice.page (Sample.filled "Engineer")))
               (Sample.until_listening ++ [Voice.Frame; Voice.Frame]) = Some st
             /\ calls_of "initAvatar" (Voice.trace st) = 1).
  { eexists. split; [vm_compute; reflexivity|]. vm_compute. reflexivity. }
  destruct H as (st & Hrun & Hcalls). exists st. split; [exact Hrun|].
  rewrite <- Hcalls.
  apply (proj2 (proj2 (one_frame_pending_per_avatar true _ _ st Hrun))).
  repeat constructor; discriminate.
Defined.

(** ** The follow-up and the next question *)







